(** * gtfsrt2lc: static schedule indexes and the delay merge walk

    A shallow embedding of [lib/GtfsIndex.js] and [lib/Gtfsrt2LC.js].

    - [Js] holds the fragment of JavaScript the two files lean on: string to
      number coercion, [parseInt], [split], the [+] and [==] operators on
      strings and numbers, and the arithmetic of [Date].
    - [GtfsIndex] models the working directory as a finite map from file
      names to lines and the indexes as finite maps from keys to rows.
    - [Gtfsrt2LC] models [parse] as a function from the decoded feed to the
      trace of what is pushed on the output stream and written on the
      error console. *)

From Stdlib Require Import ZArith String Ascii List DecimalString Decimal DecimalPos.
From Stdlib Require Import Sorted Lia.
From stdpp Require Import gmap strings list fin_maps.

Local Open Scope Z_scope.

(* ===================================================================== *)
(** ** The JavaScript fragment *)
(* ===================================================================== *)

Module Js.

(** Numbers are exact: an integer, a decimal fraction that is not an
    integer, an infinity or [NaN].  JavaScript rounds every number to the
    nearest 64-bit float and the model does not, which changes nothing for
    the integers below 2^53 and for the literals of at most 15 significant
    digits within the range of a float.  The two zeros are one number.
    Strings are sequences of ASCII characters. *)
Inductive number :=
  | NaN
  | Num (z : Z)
  | Dec (m : Z) (e : positive)     (* m / 10^e, where 10 does not divide m *)
  | Infinity (negative : bool).

(** The values a CSV field, a split result or an operand can be. *)
Inductive value := Undefined | Str (s : string) | Number (n : number).

Inductive error :=
  | TypeError            (* property access on null or undefined *)
  | RangeError           (* toISOString or format on an Invalid Date *)
  | Error (message : string).

Inductive result (A : Type) := Ok (a : A) | Throw (e : error).
Arguments Ok {A} a.
Arguments Throw {A} e.

Definition bind {A B} (r : result A) (k : A -> result B) : result B :=
  match r with Ok a => k a | Throw e => Throw e end.

(** *** Characters and strings *)

Definition is_digit (c : ascii) : bool :=
  let n := nat_of_ascii c in (48 <=? n)%nat && (n <=? 57)%nat.

(** Tab, line feed, vertical tab, form feed, carriage return, space. *)
Definition is_white_space (c : ascii) : bool :=
  let n := nat_of_ascii c in
  ((9 <=? n)%nat && (n <=? 13)%nat) || (n =? 32)%nat.

Fixpoint trimStart (s : string) : string :=
  match s with
  | String c r => if is_white_space c then trimStart r else s
  | EmptyString => EmptyString
  end.

Definition reverse_string (s : string) : string :=
  string_of_list_ascii (rev (list_ascii_of_string s)).

Definition trim (s : string) : string :=
  reverse_string (trimStart (reverse_string (trimStart s))).

Fixpoint take_digits (s : string) : string :=
  match s with
  | String c r => if is_digit c then String c (take_digits r) else EmptyString
  | EmptyString => EmptyString
  end.

(** A string all of whose characters are digits. *)
Fixpoint all_digits (s : string) : bool :=
  match s with
  | String c r => is_digit c && all_digits r
  | EmptyString => true
  end.

(** What follows the leading digits of [s]. *)
Fixpoint drop_digits (s : string) : string :=
  match s with
  | String c r => if is_digit c then drop_digits r else s
  | EmptyString => EmptyString
  end.

(** The value of a non-empty string of decimal digits. *)
Definition digits_to_Z (s : string) : option Z :=
  match s with
  | EmptyString => None
  | _ => option_map Z.of_uint (NilEmpty.uint_of_string s)
  end.

Definition digits_to_number (sign : Z) (s : string) : number :=
  match digits_to_Z s with Some z => Num (sign * z) | None => NaN end.

(** The value of a digit in a radix up to 36. *)
Definition digit_value (c : ascii) : option Z :=
  let n := Z.of_nat (nat_of_ascii c) in
  if (48 <=? n) && (n <=? 57) then Some (n - 48)
  else if (97 <=? n) && (n <=? 122) then Some (n - 87)
  else if (65 <=? n) && (n <=? 90) then Some (n - 55)
  else None.

Definition is_radix_digit (radix : Z) (c : ascii) : bool :=
  match digit_value c with
  | Some v => v <? radix
  | None => false
  end.

Fixpoint take_radix_digits (radix : Z) (s : string) : string :=
  match s with
  | String c r =>
      if is_radix_digit radix c then String c (take_radix_digits radix r) else EmptyString
  | EmptyString => EmptyString
  end.

(** The value in [radix] of a non-empty string of digits of that radix. *)
Fixpoint radix_value (radix acc : Z) (s : string) : option Z :=
  match s with
  | EmptyString => Some acc
  | String c r =>
      match digit_value c with
      | Some v => if v <? radix then radix_value radix (acc * radix + v) r else None
      | None => None
      end
  end.

Definition radix_to_number (radix sign : Z) (s : string) : number :=
  match s with
  | EmptyString => NaN
  | _ => match radix_value radix 0 s with
         | Some z => Num (sign * z)
         | None => NaN
         end
  end.

(** *** Numbers *)

(** [m / 10 ^ e] with the trailing zeros of [m] cancelled against the
    power of ten. *)
Fixpoint cancel (e : nat) (m : Z) : number :=
  match e with
  | O => Num m
  | S e' => if m mod 10 =? 0 then cancel e' (m / 10) else Dec m (Pos.of_succ_nat e')
  end.

(** The number [m * 10 ^ e]. *)
Definition decimal (m e : Z) : number :=
  if 0 <=? e then Num (m * 10 ^ e) else cancel (Z.to_nat (- e)) m.

Definition negate (n : number) : number :=
  match n with
  | NaN => NaN
  | Num z => Num (- z)
  | Dec m e => Dec (- m) e
  | Infinity negative => Infinity (negb negative)
  end.

(** A finite number without its fraction; nothing for [NaN] and the
    infinities. *)
Definition truncate (n : number) : option Z :=
  match n with
  | Num z => Some z
  | Dec m e => Some (Z.quot m (10 ^ Z.pos e))
  | NaN | Infinity _ => None
  end.

(** An exponent part, or the end of the literal: the exponent. *)
Definition exponent_part (s : string) : option Z :=
  match s with
  | EmptyString => Some 0
  | String c r =>
      if Ascii.eqb c "e" || Ascii.eqb c "E" then
        match r with
        | String c' ds =>
            if Ascii.eqb c' "+" then digits_to_Z ds
            else if Ascii.eqb c' "-" then option_map Z.opp (digits_to_Z ds)
            else digits_to_Z r
        | EmptyString => None
        end
      else None
  end.

(** An unsigned decimal literal: [Infinity], or digits with an optional
    fraction and an optional exponent, with a digit before or after the
    point. *)
Definition unsigned_decimal (s : string) : option number :=
  if String.eqb s "Infinity" then Some (Infinity false)
  else
    let int := take_digits s in
    let '(frac, rest) :=
      match drop_digits s with
      | String c r =>
          if Ascii.eqb c "." then (take_digits r, drop_digits r)
          else (EmptyString, String c r)
      | EmptyString => (EmptyString, EmptyString)
      end in
    match int +:+ frac with
    | EmptyString => None
    | ds =>
        match NilEmpty.uint_of_string ds, exponent_part rest with
        | Some u, Some e => Some (decimal (Z.of_uint u) (e - Z.of_nat (String.length frac)))
        | _, _ => None
        end
    end.

(** The radix a prefix [0x], [0o] or [0b] announces. *)
Definition radix_of_prefix (c : ascii) : option Z :=
  if Ascii.eqb c "x" || Ascii.eqb c "X" then Some 16
  else if Ascii.eqb c "o" || Ascii.eqb c "O" then Some 8
  else if Ascii.eqb c "b" || Ascii.eqb c "B" then Some 2
  else None.

(** A numeric literal without white space around it; nothing when the text
    is not one.  A sign goes with a decimal literal only. *)
Definition numeric_literal (s : string) : option number :=
  match s with
  | EmptyString => Some (Num 0)
  | String c r =>
      if Ascii.eqb c "+" then unsigned_decimal r
      else if Ascii.eqb c "-" then option_map negate (unsigned_decimal r)
      else
        match r with
        | String c' digits =>
            match (if Ascii.eqb c "0" then radix_of_prefix c' else None) with
            | Some radix =>
                match digits with
                | EmptyString => None
                | _ => option_map Num (radix_value radix 0 digits)
                end
            | None => unsigned_decimal s
            end
        | EmptyString => unsigned_decimal s
        end
  end.

(** [ToNumber] applied to a string: white space is trimmed, the empty
    string is 0, a numeric literal is its value, and anything else is
    [NaN]. *)
Definition StringToNumber (s : string) : number :=
  match numeric_literal (trim s) with
  | Some n => n
  | None => NaN
  end.

(** [parseInt(s)] without a radix: leading white space and a sign are
    skipped, a prefix [0x] switches to radix 16, and the longest prefix of
    digits is read; no digit gives [NaN]. *)
Definition parseInt (s : string) : number :=
  let t := trimStart s in
  let '(sign, t) :=
    match t with
    | String c r =>
        if Ascii.eqb c "+" then (1, r)
        else if Ascii.eqb c "-" then (-1, r)
        else (1, t)
    | EmptyString => (1, t)
    end in
  match t with
  | String c (String c' r) =>
      if Ascii.eqb c "0" && (Ascii.eqb c' "x" || Ascii.eqb c' "X")
      then radix_to_number 16 sign (take_radix_digits 16 r)
      else digits_to_number sign (take_digits t)
  | _ => digits_to_number sign (take_digits t)
  end.

Definition zeros (n : nat) : string := string_of_list_ascii (repeat "0"%char n).

(** The positive integer [z] without its zeros at the end, and [j] plus
    their number. *)
Fixpoint strip_zeros (fuel : nat) (z j : Z) : Z * Z :=
  match fuel with
  | O => (z, j)
  | S fuel' => if z mod 10 =? 0 then strip_zeros fuel' (z / 10) (j + 1) else (z, j)
  end.

(** The digits [d1 d2 ... dk] as [d1.d2...dk], an [e], and the exponent
    [n - 1] with its sign. *)
Definition exponent_form (ds : string) (n : Z) : string :=
  match ds with
  | String c rest =>
      String c (match rest with
                | EmptyString => EmptyString
                | _ => String "." rest
                end)
      +:+ String "e" (String (if 0 <=? n - 1 then "+"%char else "-"%char)
                             (NilZero.string_of_uint (N.to_uint (Z.abs_N (n - 1)))))
  | EmptyString => EmptyString
  end.

(** [Number::toString] for the positive number [0.d1 d2 ... dk * 10 ^ n],
    given by its digits, of which the last is not 0. *)
Definition positive_to_string (ds : string) (n : Z) : string :=
  let k := Z.of_nat (String.length ds) in
  if (k <=? n) && (n <=? 21) then ds +:+ zeros (Z.to_nat (n - k))
  else if (0 <? n) && (n <=? 21) then
    substring 0 (Z.to_nat n) ds
    +:+ String "." (substring (Z.to_nat n) (Z.to_nat (k - n)) ds)
  else if (-6 <? n) && (n <=? 0) then
    String "0" (String "." (zeros (Z.to_nat (- n)) +:+ ds))
  else exponent_form ds n.

Definition with_sign (negative : bool) (s : string) : string :=
  if negative then String "-" s else s.

(** The decimal digits of the absolute value of [z]. *)
Definition digits_of (z : Z) : string := NilZero.string_of_uint (N.to_uint (Z.abs_N z)).

(** An integer below 10^21 is written with all its digits, a larger one
    with an exponent. *)
Definition NumberToString (n : number) : string :=
  match n with
  | NaN => "NaN"
  | Num z =>
      if Z.abs z <? 10 ^ 21 then NilZero.string_of_int (Z.to_int z)
      else
        let '(s, j) := strip_zeros (Z.to_nat (Z.log2 (Z.abs z))) (Z.abs z) 0 in
        with_sign (z <? 0)
          (exponent_form (digits_of s) (Z.of_nat (String.length (digits_of s)) + j))
  | Dec m e =>
      with_sign (m <? 0)
        (positive_to_string (digits_of m)
                            (Z.of_nat (String.length (digits_of m)) - Z.pos e))
  | Infinity negative => with_sign negative "Infinity"
  end.

(** [s.split(sep)] for a one-character separator. *)
Fixpoint split (sep : ascii) (s : string) : list string :=
  match s with
  | EmptyString => [EmptyString]
  | String c r =>
      if Ascii.eqb c sep then EmptyString :: split sep r
      else match split sep r with
           | x :: xs => String c x :: xs
           | [] => [String c EmptyString]
           end
  end.

(** [s.includes(pat)]. *)
Fixpoint includes (pat s : string) : bool :=
  String.prefix pat s ||
  match s with
  | String _ r => includes pat r
  | EmptyString => false
  end.

(** The replace call that deletes every line feed, carriage return and
    double quote of [s]. *)
Fixpoint strip_newlines_quotes (s : string) : string :=
  match s with
  | String c r =>
      let n := nat_of_ascii c in
      if (n =? 10)%nat || (n =? 13)%nat || (n =? 34)%nat
      then strip_newlines_quotes r
      else String c (strip_newlines_quotes r)
  | EmptyString => EmptyString
  end.

(** [s.substr(start, len)]. *)
Definition substr (start len : nat) (s : string) : string :=
  String.substring start (Nat.min len (String.length s - start)) s.

(** *** Operators *)

Definition ToNumber (v : value) : number :=
  match v with
  | Undefined => NaN
  | Str s => StringToNumber s
  | Number n => n
  end.

Definition ToString (v : value) : string :=
  match v with
  | Undefined => "undefined"
  | Str s => s
  | Number n => NumberToString n
  end.

(** Truthiness: [undefined], the empty string, 0 and [NaN] are falsy. *)
Definition ToBoolean (v : value) : bool :=
  match v with
  | Undefined => false
  | Str s => negb (String.eqb s EmptyString)
  | Number NaN => false
  | Number (Num z) => negb (z =? 0)
  | Number (Dec _ _) => true
  | Number (Infinity _) => true
  end.

Definition number_eqb (a b : number) : bool :=
  match a, b with
  | Num x, Num y => x =? y
  | Dec m e, Dec m' e' => (m =? m') && Pos.eqb e e'
  | Infinity s, Infinity s' => Bool.eqb s s'
  | _, _ => false                       (* NaN equals nothing *)
  end.

Definition number_add (a b : number) : number :=
  match a, b with
  | Num x, Num y => Num (x + y)
  | Num x, Dec m e => decimal (x * 10 ^ Z.pos e + m) (- Z.pos e)
  | Dec m e, Num y => decimal (m + y * 10 ^ Z.pos e) (- Z.pos e)
  | Dec m e, Dec m' e' =>
      let k := Z.max (Z.pos e) (Z.pos e') in
      decimal (m * 10 ^ (k - Z.pos e) + m' * 10 ^ (k - Z.pos e')) (- k)
  | Infinity s, Infinity s' => if Bool.eqb s s' then Infinity s else NaN
  | Infinity s, (Num _ | Dec _ _) => Infinity s
  | (Num _ | Dec _ _), Infinity s => Infinity s
  | _, _ => NaN
  end.

Definition number_sub (a b : number) : number :=
  match a, b with
  | Num x, Num y => Num (x - y)
  | _, _ => number_add a (negate b)
  end.

(** [a + b]: concatenation as soon as one operand is a string. *)
Definition add (a b : value) : value :=
  match a, b with
  | Str _, _ | _, Str _ => Str (ToString a +:+ ToString b)
  | _, _ => Number (number_add (ToNumber a) (ToNumber b))
  end.

(** [a === b]. *)
Definition strict_eq (a b : value) : bool :=
  match a, b with
  | Undefined, Undefined => true
  | Str s, Str t => String.eqb s t
  | Number x, Number y => number_eqb x y
  | _, _ => false
  end.

(** [a == b]: a string facing a number is converted first. *)
Definition loose_eq (a b : value) : bool :=
  match a, b with
  | Str s, Number y => number_eqb (StringToNumber s) y
  | Number x, Str t => number_eqb x (StringToNumber t)
  | _, _ => strict_eq a b
  end.

(** *** Dates

    A [Date] is its time value in milliseconds, or [None] for an Invalid
    Date.  The process time zone is taken to be UTC, so that local time and
    UTC coincide. *)

Definition Date := option Z.

Definition msPerDay : Z := 86400000.

(** Day number of the civil date y-m-d (m from 1 to 12), counted from
    1970-01-01. *)
Definition days_from_civil (y m d : Z) : Z :=
  let y' := if m <=? 2 then y - 1 else y in
  let era := y' / 400 in
  let yoe := y' - era * 400 in
  let mp := if 2 <? m then m - 3 else m + 9 in
  let doy := (153 * mp + 2) / 5 + d - 1 in
  let doe := yoe * 365 + yoe / 4 - yoe / 100 + doy in
  era * 146097 + doe - 719468.

(** Year, month index (0 to 11) and day of the month of a day number. *)
Definition civil_from_days (day : Z) : Z * Z * Z :=
  let z := day + 719468 in
  let era := z / 146097 in
  let doe := z - era * 146097 in
  let yoe := (doe - doe / 1460 + doe / 36524 - doe / 146096) / 365 in
  let doy := doe - (365 * yoe + yoe / 4 - yoe / 100) in
  let mp := (5 * doy + 2) / 153 in
  let d := doy - (153 * mp + 2) / 5 + 1 in
  let m := if mp <? 10 then mp + 3 else mp - 9 in
  let y := yoe + era * 400 + (if m <=? 2 then 1 else 0) in
  (y, m - 1, d).

Definition MakeDay (year month date : Z) : Z :=
  days_from_civil (year + month / 12) (month mod 12 + 1) 1 + date - 1.

Definition MakeTime (hour min sec ms : Z) : Z :=
  hour * 3600000 + min * 60000 + sec * 1000 + ms.

Definition TimeClip (t : Z) : Date :=
  if Z.abs t <=? 8640000000000000 then Some t else None.

(** [new Date(year, month, date, hours, minutes, seconds, ms)], every
    argument already converted by [ToNumber]: a fraction is cut off, and an
    argument that is not finite makes the date invalid. *)
Definition new_Date (year month date hours minutes seconds ms : number) : Date :=
  match truncate year, truncate month, truncate date,
        truncate hours, truncate minutes, truncate seconds, truncate ms with
  | Some y, Some mo, Some d, Some h, Some mi, Some s, Some m =>
      let yr := if (0 <=? y) && (y <=? 99) then 1900 + y else y in
      TimeClip (MakeDay yr mo d * msPerDay + MakeTime h mi s m)
  | _, _, _, _, _, _, _ => None
  end.

Definition getFullYear (d : Date) : number :=
  match d with
  | Some t => let '(y, _, _) := civil_from_days (t / msPerDay) in Num y
  | None => NaN
  end.

Definition getMonth (d : Date) : number :=
  match d with
  | Some t => let '(_, m, _) := civil_from_days (t / msPerDay) in Num m
  | None => NaN
  end.

Definition getDate (d : Date) : number :=
  match d with
  | Some t => let '(_, _, dt) := civil_from_days (t / msPerDay) in Num dt
  | None => NaN
  end.

(** [d.toISOString()]: the rendered instant is kept as its time value. *)
Definition toISOString (d : Date) : result Z :=
  match d with
  | Some t => Ok t
  | None => Throw RangeError
  end.

(** date-fns 2: [addHours], [addMinutes] and [addSeconds] cut the fraction
    of the amount off and add that many milliseconds to the time value. *)
Definition toInteger (n : number) : number :=
  match n with
  | Dec m e => Num (Z.quot m (10 ^ Z.pos e))
  | _ => n
  end.

Definition addMilliseconds (d : Date) (amount : number) : Date :=
  match d, toInteger amount with
  | Some t, Num a => TimeClip (t + a)
  | _, _ => None
  end.

(** [n * k] for a positive integer [k]. *)
Definition scale (k : Z) (n : number) : number :=
  match n with
  | NaN => NaN
  | Num z => Num (z * k)
  | Dec m e => decimal (m * k) (- Z.pos e)
  | Infinity negative => Infinity negative
  end.

Definition addHours (d : Date) (n : number) : Date :=
  addMilliseconds d (scale 3600000 (toInteger n)).
Definition addMinutes (d : Date) (n : number) : Date :=
  addMilliseconds d (scale 60000 (toInteger n)).
Definition addSeconds (d : Date) (n : number) : Date :=
  addMilliseconds d (scale 1000 (toInteger n)).

End Js.

(* ===================================================================== *)
(** ** lib/GtfsIndex.js *)
(* ===================================================================== *)

Module GtfsIndex.
Import Js.

(** *** Rows and maps *)

(** A parsed CSV row is a JavaScript object: its keys in insertion order,
    each with a string or [undefined] ([None]). *)
Definition Row := list (string * option string).

Definition of_field (f : option string) : value :=
  match f with
  | Some s => Str s
  | None => Undefined
  end.

Fixpoint obj_field (k : string) (o : Row) : option string :=
  match o with
  | [] => None
  | (k', v) :: o' => if String.eqb k k' then v else obj_field k o'
  end.

(** [o[k]]. *)
Definition obj_get (k : string) (o : Row) : value := of_field (obj_field k o).

(** [o[k] = v]. *)
Fixpoint obj_set (k : string) (v : option string) (o : Row) : Row :=
  match o with
  | [] => [(k, v)]
  | (k', v') :: o' =>
      if String.eqb k k' then (k, v) :: o' else (k', v') :: obj_set k v o'
  end.

(** A [Map] whose keys are not guarded by the source and so may be
    [undefined]: [tripsByRoute] and [calendarDates]. *)
Definition JsMap (V : Type) := list (value * V).

Definition same_key (a b : value) : bool :=
  match a, b with
  | Number NaN, Number NaN => true
  | _, _ => strict_eq a b
  end.

Fixpoint map_get {V} (k : value) (m : JsMap V) : option V :=
  match m with
  | [] => None
  | (k', v) :: m' => if same_key k k' then Some v else map_get k m'
  end.

Fixpoint map_set {V} (k : value) (v : V) (m : JsMap V) : JsMap V :=
  match m with
  | [] => [(k, v)]
  | (k', v') :: m' =>
      if same_key k k' then (k, v) :: m' else (k', v') :: map_set k v m'
  end.

(** The indexes keyed by a truthy string ([stops], [routes], [trips],
    [stop_times], [firstStops], [calendar]) are finite maps on strings.  The
    in-memory [Map] and the LevelStore database answer [get] and [set]/[put]
    alike and share this model. *)
Record Indexes := {
  routes : gmap string Row;
  trips : gmap string Row;
  stops : gmap string Row;
  stop_times : gmap string (list Row);
  tripsByRoute : option (JsMap (list value));
  firstStops : option (gmap string Row);
  calendar : option (gmap string Row);
  calendarDates : option (JsMap Row)
}.

(** *** The disk *)

(** The working directory [auxPath] ([None] when it does not exist; a file
    is its list of lines) and whether the LevelStore directory
    [.rt_indexes] exists. *)
Record disk := {
  auxPath : option (gmap string (list string));
  rt_indexes : bool
}.

(** An asynchronous call settles by resolving or by rejecting; or it dies
    on an exception nobody catches (an [error] event without a listener, a
    [throw] inside an event handler), which ends the process; or it never
    settles, because the promise it waits for is settled by a callback
    whose own rejection nobody handles: the caller sees neither a result
    nor a rejection. *)
Inductive failure :=
  | Rejection (e : error)
  | UncaughtException (e : error)
  | UnhandledRejection (e : error).

Inductive outcome (A : Type) := Resolved (a : A) | Failed (f : failure).
Arguments Resolved {A} a.
Arguments Failed {A} f.

(** Calls that read or write the disk and may fail. *)
Definition M (A : Type) := disk -> outcome A * disk.

Definition ret {A} (a : A) : M A := fun d => (Resolved a, d).

Definition fail {A} (f : failure) : M A := fun d => (Failed f, d).

Definition mbind {A B} (m : M A) (k : A -> M B) : M B :=
  fun d =>
    match m d with
    | (Resolved a, d') => k a d'
    | (Failed f, d') => (Failed f, d')
    end.

Notation "x <- m ;; k" := (mbind m (fun x => k))
  (at level 100, m at next level, right associativity).
Notation "m ;;; k" := (mbind m (fun _ => k))
  (at level 100, right associativity).

(** [fs.existsSync(auxPath + '/' + name)] and reading the file. *)
Definition read_file (name : string) (d : disk) : option (list string) :=
  match auxPath d with
  | Some files => files !! name
  | None => None
  end.

Definition lift {A} (o : outcome A) : M A := fun d => (o, d).

(** [del([auxPath], { force: true })]. *)
Definition cleanUp : M unit :=
  fun d => (Resolved tt, {| auxPath := None; rt_indexes := rt_indexes d |}).

(** *** Reading CSV *)

Definition ENOENT : error := Error "ENOENT".

(** Builds the object of one data line: [obj[headers[j]] = d[j]] for every
    header, [undefined] where the line is shorter. *)
Fixpoint zip_headers (headers fields : list string) (obj : Row) : Row :=
  match headers with
  | [] => obj
  | h :: hs =>
      match fields with
      | f :: fs => zip_headers hs fs (obj_set h (Some f) obj)
      | [] => zip_headers hs [] (obj_set h None obj)
      end
  end.

(** fast-csv with [headers: true], on a file of plain fields: no quoted
    field, no carriage return and no byte order mark, which fast-csv would
    strip.  The first line names the columns, every other line is one row,
    a missing trailing column reads as the empty string and a row with more
    columns than the header is an error. *)
Definition csv_row (headers : list string) (line : string) : result Row :=
  let fields := split "," line in
  if (length headers <? length fields)%nat
  then Throw (Error "column header mismatch")
  else Ok (zip_headers headers
             (fields ++ repeat EmptyString (length headers - length fields)) []).

Fixpoint csv_rows (headers : list string) (lines : list string) : result (list Row) :=
  match lines with
  | [] => Ok []
  | l :: ls =>
      bind (csv_row headers l) (fun r =>
      bind (csv_rows headers ls) (fun rs => Ok (r :: rs)))
  end.

Definition csv_parse (lines : list string) : result (list Row) :=
  match lines with
  | [] => Ok []
  | h :: ls => csv_rows (split "," h) ls
  end.

(** [fs.createReadStream(path).pipe(csv.parse(...)).on('error', err => { throw err })]
    consumed by [for await]: a missing file raises an [error] event on the
    read stream, which has no listener; a parse error is thrown again by
    the listener. *)
Definition read_csv (name : string) : M (list Row) :=
  fun d =>
    match read_file name d with
    | None => (Failed (UncaughtException ENOENT), d)
    | Some lines =>
        match csv_parse lines with
        | Ok rows => (Resolved rows, d)
        | Throw e => (Failed (UncaughtException e), d)
        end
    end.

(** *** createIndex *)

Definition endsWith (suffix s : string) : bool :=
  String.prefix (reverse_string suffix) (reverse_string s).

(** One turn of the [for await] loop of [createIndex]. *)
Definition createIndex_row (key : string) (is_trips : bool)
    (acc : gmap string Row * option (JsMap (list value))) (data : Row)
    : gmap string Row * option (JsMap (list value)) :=
  let '(map, tpr) := acc in
  match obj_get key data with
  | Str k =>
      if ToBoolean (Str k) then
        (<[k := data]> map,
         match tpr with
         | Some t =>
             if is_trips then
               match map_get (obj_get "route_id" data) t with
               | None => Some (map_set (obj_get "route_id" data) [obj_get "trip_id" data] t)
               | Some ts => Some (map_set (obj_get "route_id" data) (ts ++ [obj_get "trip_id" data]) t)
               end
             else tpr
         | None => tpr
         end)
      else acc
  | _ => acc
  end.

Definition createIndex (name : string) (map : gmap string Row) (key : string)
    (tpr : option (JsMap (list value)))
    : M (gmap string Row * option (JsMap (list value))) :=
  fun d =>
    match read_file name d with
    | Some _ =>
        (rows <- read_csv name ;;
         ret (fold_left (createIndex_row key (endsWith "trips.txt" name)) rows (map, tpr))) d
    | None => (Resolved (map, tpr), d)
    end.

(** [head -1 fileName] run in [auxPath]; the command fails, and [exec]
    rejects, when the file is missing. *)
Definition getGtfsHeaders (fileName : string) : M (list string) :=
  fun d =>
    match read_file fileName d with
    | Some lines =>
        (Resolved (map trim (split "," (strip_newlines_quotes (hd EmptyString lines)))), d)
    | None => (Failed (Rejection (Error "Command failed: head -1")), d)
    end.

(** *** Sorting *)

Fixpoint insert_sorted {A} (le : A -> A -> bool) (x : A) (l : list A) : list A :=
  match l with
  | [] => [x]
  | y :: l' => if le x y then x :: l else y :: insert_sorted le x l'
  end.

(** A stable sort: equal elements keep their order. *)
Definition insertion_sort {A} (le : A -> A -> bool) (l : list A) : list A :=
  foldr (insert_sorted le) [] l.

Definition is_alnum_or_blank (c : ascii) : bool :=
  let n := nat_of_ascii c in
  is_digit c || ((65 <=? n)%nat && (n <=? 90)%nat)
  || ((97 <=? n)%nat && (n <=? 122)%nat) || (n =? 32)%nat || (n =? 9)%nat.

(** The key of [sort -d]: only blanks and alphanumeric characters count. *)
Fixpoint dictionary_key (s : string) : string :=
  match s with
  | String c r =>
      if is_alnum_or_blank c then String c (dictionary_key r) else dictionary_key r
  | EmptyString => EmptyString
  end.

(** The key of [sort -n]: leading blanks, an optional minus sign and
    digits; 0 when there is no number. *)
Definition numeric_key (s : string) : Z :=
  match trimStart s with
  | String "-" r => - default 0 (digits_to_Z (take_digits r))
  | t => default 0 (digits_to_Z (take_digits t))
  end.

(** Field [i], counted from 1, of a comma-separated line. *)
Definition sort_field (i : nat) (line : string) : string :=
  nth (i - 1) (split "," line) EmptyString.

(** The order of [sort -t , -k ti d,ti -k ss n,ss] in the C locale: the
    trip id field in dictionary order, then the sequence field as a number,
    then the whole line as a last resort. *)
Definition sort_le (ti ss : nat) (a b : string) : bool :=
  match String.compare (dictionary_key (sort_field ti a)) (dictionary_key (sort_field ti b)) with
  | Lt => true
  | Gt => false
  | Eq =>
      match numeric_key (sort_field ss a) ?= numeric_key (sort_field ss b) with
      | Lt => true
      | Gt => false
      | Eq => String.leb a b
      end
  end.

(** The shell pipeline of [sortStopTimes]: the header line is kept, the
    other lines are sorted, and the result replaces [stop_times.txt].  A
    field number of zero makes [sort] refuse its arguments and print
    nothing; the pipeline still ends with the status of [mv]. *)
Definition sortStopTimes (ti_index ss_index : nat) : M unit :=
  fun d =>
    match auxPath d with
    | None => (Failed (Rejection (Error "spawn ENOENT")), d)
    | Some files =>
        let sorted :=
          match files !! "stop_times.txt" with
          | Some (h :: rest) =>
              if (ti_index =? 0)%nat || (ss_index =? 0)%nat then [h]
              else h :: insertion_sort (sort_le ti_index ss_index) rest
          | _ => []
          end in
        (Resolved tt,
         {| auxPath := Some (<["stop_times.txt" := sorted]> files);
            rt_indexes := rt_indexes d |})
    end.

(** [headers.indexOf(name) + 1]. *)
Fixpoint indexOf_succ (name : string) (headers : list string) : nat :=
  match headers with
  | [] => 0
  | h :: hs =>
      if String.eqb h name then 1
      else match indexOf_succ name hs with
           | O => O
           | S n => S (S n)
           end
  end.

(** *** processStopTimes *)

Record scan := {
  currentTripId : option string;
  currentTrip : list Row;
  scan_map : gmap string (list Row);
  scan_fst : option (gmap string Row)
}.

(** One turn of the [for await] loop of [processStopTimes]. *)
Definition processStopTimes_row (s : scan) (data : Row) : scan :=
  match obj_get "trip_id" data with
  | Str id =>
      if ToBoolean (Str id) then
        let fst' :=
          match scan_fst s with
          | Some f =>
              if strict_eq (obj_get "stop_sequence" data) (Str "1")
              then Some (<[id := data]> f) else Some f
          | None => None
          end in
        match currentTripId s with
        | None =>
            {| currentTripId := Some id; currentTrip := currentTrip s ++ [data];
               scan_map := scan_map s; scan_fst := fst' |}
        | Some cur =>
            if String.eqb id cur then
              {| currentTripId := Some id; currentTrip := currentTrip s ++ [data];
                 scan_map := scan_map s; scan_fst := fst' |}
            else
              {| currentTripId := Some id; currentTrip := [data];
                 scan_map := <[cur := currentTrip s]> (scan_map s); scan_fst := fst' |}
        end
      else s
  | _ => s
  end.

(** The last scanned trip is added after the loop.  On a file without any
    row the source stores an empty list under the key [null], which no
    lookup by trip id reads; that entry is left out. *)
Definition processStopTimes_flush (s : scan) : gmap string (list Row) :=
  match currentTripId s with
  | Some cur => <[cur := currentTrip s]> (scan_map s)
  | None => scan_map s
  end.

Definition processStopTimes (name : string) (map : gmap string (list Row))
    (fst : option (gmap string Row))
    : M (gmap string (list Row) * option (gmap string Row)) :=
  rows <- read_csv name ;;
  let s := fold_left processStopTimes_row rows
             {| currentTripId := None; currentTrip := []; scan_map := map; scan_fst := fst |} in
  ret (processStopTimes_flush s, scan_fst s).

(** *** processCalendarDates *)

Definition processCalendarDates_row (map : JsMap Row) (data : Row) : JsMap Row :=
  let s := default [] (map_get (obj_get "service_id" data) map) in
  map_set (obj_get "service_id" data)
          (obj_set (ToString (obj_get "date" data)) (obj_field "exception_type" data) s) map.

Definition processCalendarDates (name : string) (map : JsMap Row) : M (JsMap Row) :=
  rows <- read_csv name ;;
  ret (fold_left processCalendarDates_row rows map).

(** *** Scoped extraction *)

(** [grep tripId fileName] run in [auxPath].  [grep] reads the trip id as
    a basic regular expression; the model covers the ids that such an
    expression takes for the text they are ([literal_pattern] below), and
    for them the lines found are the lines that contain the id.  A missing
    file makes [grep] write on its standard error, and the promise
    rejects. *)
Definition grepGtfsFile (tripId fileName : string) (headers : list string) : M (list Row) :=
  fun d =>
    match read_file fileName d with
    | Some lines =>
        (Resolved
           (map (fun line => zip_headers headers (split "," (strip_newlines_quotes line)) [])
                (filter (fun line => includes tripId line = true) lines)), d)
    | None => (Failed (Rejection (Error "grep: No such file or directory")), d)
    end.

(** The comparison function handed to [Array.prototype.sort]; a result that
    is not positive, [NaN] included, leaves the pair in place. *)
Definition by_stop_sequence (a b : Row) : bool :=
  match number_sub (parseInt (ToString (obj_get "stop_sequence" a)))
                   (parseInt (ToString (obj_get "stop_sequence" b))) with
  | Num z => z <=? 0
  | Dec m _ => m <=? 0
  | Infinity negative => negative
  | NaN => true
  end.

Fixpoint grepStopTimes (trips : list string) (stopTimesHeaders : list string)
    (stop_times_index : gmap string (list Row)) : M (gmap string (list Row)) :=
  match trips with
  | [] => ret stop_times_index
  | trip :: rest =>
      stopTimes <- grepGtfsFile trip "stop_times.txt" stopTimesHeaders ;;
      grepStopTimes rest stopTimesHeaders
        (<[trip := insertion_sort by_stop_sequence stopTimes]> stop_times_index)
  end.

(** [trips_index.set(trip, t[0])]; when [grep] finds nothing the stored
    value is [undefined], which [get] cannot tell from a missing entry. *)
Fixpoint grepTrips (trips : list string) (tripsHeaders : list string)
    (trips_index : gmap string Row) : M (gmap string Row) :=
  match trips with
  | [] => ret trips_index
  | trip :: rest =>
      t <- grepGtfsFile trip "trips.txt" tripsHeaders ;;
      grepTrips rest tripsHeaders
        (match t with
         | t0 :: _ => <[trip := t0]> trips_index
         | [] => delete trip trips_index
         end)
  end.

(** *** createIndexes *)

(** The part shared by the full in-memory build and the LevelStore build:
    [trips.txt] is indexed, [stop_times.txt] is sorted in place and then
    scanned. *)
Definition full_build (stopTimesHeaders : list string)
    (tripsByRoute : option (JsMap (list value))) (firstStops : option (gmap string Row))
    : M (gmap string Row * option (JsMap (list value))
         * gmap string (list Row) * option (gmap string Row)) :=
  tp <- createIndex "trips.txt" ∅ "trip_id" tripsByRoute ;;
  sortStopTimes (indexOf_succ "trip_id" stopTimesHeaders)
                (indexOf_succ "stop_sequence" stopTimesHeaders) ;;;
  stp <- processStopTimes "stop_times.txt" ∅ firstStops ;;
  ret (fst tp, snd tp, fst stp, snd stp).

(** [del(['.rt_indexes'])] followed by [fs.mkdirSync('.rt_indexes')]. *)
Definition create_rt_indexes : M unit :=
  fun d => (Resolved tt, {| auxPath := auxPath d; rt_indexes := true |}).

(** The concurrent builds are run one after the other, in the order in
    which the source starts them; the first failure is the result. *)
Definition createIndexes (store : string) (uTrips : option (list string)) (deduce : bool)
    : M Indexes :=
  let tripsByRoute := if deduce then Some [] else None in
  let firstStops := if deduce then Some ∅ else None in
  stopTimesHeaders <- getGtfsHeaders "stop_times.txt" ;;
  built <-
    (if String.eqb store "MemStore" then
       match uTrips with
       | Some ts =>
           tripsHeaders <- getGtfsHeaders "trips.txt" ;;
           tp <- grepTrips ts tripsHeaders ∅ ;;
           stp <- grepStopTimes ts stopTimesHeaders ∅ ;;
           ret (tp, tripsByRoute, stp, firstStops)
       | None => full_build stopTimesHeaders tripsByRoute firstStops
       end
     else if String.eqb store "LevelStore" then
       create_rt_indexes ;;;
       full_build stopTimesHeaders tripsByRoute firstStops
     else fail (Rejection (Error "Unrecognized store format"))) ;;
  let '(trips_index, tripsByRoute', stop_times_index, firstStops') := built in
  sp <- createIndex "stops.txt" ∅ "stop_id" None ;;
  rp <- createIndex "routes.txt" ∅ "route_id" None ;;
  cp <- (if deduce
         then c <- createIndex "calendar.txt" ∅ "service_id" None ;; ret (Some (fst c))
         else ret None) ;;
  cdp <- (if deduce
          then c <- processCalendarDates "calendar_dates.txt" [] ;; ret (Some c)
          else ret None) ;;
  cleanUp ;;;
  ret {| routes := fst rp; trips := trips_index; stops := fst sp;
         stop_times := stop_times_index; tripsByRoute := tripsByRoute';
         firstStops := firstStops'; calendar := cp; calendarDates := cdp |}.

(** *** getIndexes *)

(** What fetching and unpacking the static feed comes to: the path is
    neither a usable URL nor an existing file; the request fails; the
    archive, a local file, is corrupt (the working directory exists by then
    and may hold some files); the archive, the response to the request, is
    corrupt; or the files are extracted, from either. *)
Inductive fetched :=
  | BadPath
  | RequestError (e : error)
  | UnzipError (partial : gmap string (list string)) (e : error)
  | ResponseUnzipError (partial : gmap string (list string)) (e : error)
  | Extracted (files : gmap string (list string)).

Definition bad_path : failure :=
  Rejection (Error "Please provide a valid url or a path to a GTFS feed").

(** [unzip]: the directory is created, and on an [error] event of the
    extraction the handler cleans up before it rejects. *)
Definition unzip (f : fetched) : M unit :=
  match f with
  | BadPath => fail bad_path
  | RequestError e => fail (Rejection e)
  | UnzipError partial e | ResponseUnzipError partial e =>
      fun d =>
        (cleanUp ;;; fail (Rejection e))
          {| auxPath := Some partial; rt_indexes := rt_indexes d |}
  | Extracted files =>
      fun d => (Resolved tt, {| auxPath := Some files; rt_indexes := rt_indexes d |})
  end.

(** [doRequest]: an [error] event of the request rejects.  The response
    is unpacked in an [async] callback, which calls [resolve] after
    [await this.unzip(res)]: when [unzip] rejects, the callback rejects, no
    one handles that, and the promise of [doRequest] is never settled. *)
Definition doRequest (f : fetched) : M unit :=
  fun d =>
    match unzip f d with
    | (Failed (Rejection e), d') =>
        match f with
        | ResponseUnzipError _ _ => (Failed (UnhandledRejection e), d')
        | _ => (Failed (Rejection e), d')
        end
    | r => r
    end.

(** The [try] block awaits [cleanUp] and then [doRequest] for a URL or
    [unzip] for a local file, so a rejection there reaches the [catch],
    which cleans up and rejects; when [doRequest] stays pending so does
    [getIndexes].  A bad path rejects and returns at once.
    [createIndexes] is handed to [resolve] without being awaited: its
    failure settles the returned promise directly and the [catch] block
    does not run. *)
Definition getIndexes (f : fetched) (store : string) (uTrips : option (list string))
    (deduce : bool) : M Indexes :=
  fun d0 =>
    let '(_, d1) := cleanUp d0 in
    match f with
    | BadPath => (Failed bad_path, d1)
    | _ =>
        match (match f with
               | RequestError _ | ResponseUnzipError _ _ => doRequest f
               | _ => unzip f
               end) d1 with
        | (Failed (Rejection err), d2) =>
            let '(_, d3) := cleanUp d2 in (Failed (Rejection err), d3)
        | (Failed err, d2) => (Failed err, d2)
        | (Resolved _, d2) => createIndexes store uTrips deduce d2
        end
    end.

(** A call that never removes the LevelStore directory. *)
Definition keeps_store {A} (m : M A) : Prop :=
  forall d, rt_indexes d = true -> rt_indexes (snd (m d)) = true.

(** *** Notions used to state properties of the build *)

(** The rows whose field [key] is truthy: the rows [createIndex] and
    [processStopTimes] take in. *)
Definition rows_with_key (key : string) (rows : list Row) : list Row :=
  List.filter (fun r => ToBoolean (obj_get key r)) rows.

(** The last row whose field [key] is the string [k]. *)
Definition last_row_with (key k : string) (rows : list Row) : option Row :=
  last (List.filter (fun r => strict_eq (obj_get key r) (Str k)) rows).

(** The trip ids [createIndex] files under the route [route]. *)
Definition trips_of_route (route : value) (rows : list Row) : list value :=
  map (obj_get "trip_id")
      (List.filter (fun r => same_key route (obj_get "route_id" r))
                   (rows_with_key "trip_id" rows)).

(** A call that leaves the disk as it finds it. *)
Definition reads_only {A} (m : M A) : Prop := forall d, snd (m d) = d.

(** A call that leaves the LevelStore directory as it finds it. *)
Definition same_store {A} (m : M A) : Prop :=
  forall d, rt_indexes (snd (m d)) = rt_indexes d.

(** A call that leaves the working directory in place, with every file
    it holds but [stop_times.txt], which the sort rewrites. *)
Definition keeps_files {A} (m : M A) : Prop :=
  forall d files,
    auxPath d = Some files ->
    exists files',
      auxPath (snd (m d)) = Some files'
      /\ forall name, name <> "stop_times.txt" -> files' !! name = files !! name.




(** The characters [grep] may read as something else than themselves: the
    operators of a basic regular expression, and what is not a printable
    ASCII character. *)
Definition is_grep_special (c : ascii) : bool :=
  let n := nat_of_ascii c in
  (n <? 32)%nat || (126 <? n)%nat
  || Ascii.eqb c "." || Ascii.eqb c "*" || Ascii.eqb c "[" || Ascii.eqb c "]"
  || Ascii.eqb c "^" || Ascii.eqb c "$" || (n =? 92)%nat.

Fixpoint no_grep_special (s : string) : bool :=
  match s with
  | String c r => negb (is_grep_special c) && no_grep_special r
  | EmptyString => true
  end.

(** A trip id that [grep] takes for the text it is: it does not begin
    with a minus sign, which would make it an option, and none of its
    characters is special. *)
Definition literal_pattern (tripId : string) : bool :=
  negb (String.prefix "-" tripId) && no_grep_special tripId.

(** A call whose resolved values all satisfy [P]. *)
Definition returns {A} (P : A -> Prop) (m : M A) : Prop :=
  forall d a d', m d = (Resolved a, d') -> P a.

(** The last row of trip [t] whose stop sequence is the string 1. *)
Definition first_stop_row (t : string) (rows : list Row) : option Row :=
  last (List.filter (fun r => strict_eq (obj_get "trip_id" r) (Str t)
                              && strict_eq (obj_get "stop_sequence" r) (Str "1")) rows).

(** The stop sequence of a row as [by_stop_sequence] reads it, 0 when it is
    not a number. *)
Definition sequence_key (r : Row) : Z :=
  match parseInt (ToString (obj_get "stop_sequence" r)) with
  | Num z => z
  | _ => 0
  end.

(** The stop sequence of a row begins with a number. *)
Definition has_sequence (r : Row) : Prop :=
  exists z, parseInt (ToString (obj_get "stop_sequence" r)) = Num z.

(** The object [grepGtfsFile] makes of a line. *)
Definition grep_row (headers : list string) (line : string) : Row :=
  zip_headers headers (split "," (strip_newlines_quotes line)) [].

(** A call that deletes the working directory exactly when it resolves,
    and otherwise leaves it with its files, [stop_times.txt] apart. *)
Definition cleans_iff_resolved {A} (m : M A) : Prop :=
  forall d,
    match fst (m d) with
    | Resolved _ => auxPath (snd (m d)) = None
    | Failed _ =>
        forall files,
          auxPath d = Some files ->
          exists files',
            auxPath (snd (m d)) = Some files'
            /\ forall name, name <> "stop_times.txt" -> files' !! name = files !! name
    end.

(** The exception type filed for a service and a date. *)
Definition exception_of (m : JsMap Row) (service : value) (date : string) : option string :=
  match map_get service m with
  | Some o => obj_field date o
  | None => None
  end.

(** The last row of [calendar_dates.txt] for a service and a date. *)
Definition exception_row (service : value) (date : string) (rows : list Row) : option Row :=
  last (List.filter (fun r => same_key service (obj_get "service_id" r)
                              && String.eqb date (ToString (obj_get "date" r))) rows).

End GtfsIndex.

(* ===================================================================== *)
(** ** lib/Gtfsrt2LC.js *)
(* ===================================================================== *)

(** The decoded feed, as the protobuf bindings hand it over.  An optional
    field that is not set reads as [null], here [None]: so for the two
    messages of a stop time update and for the start date and the start
    time of a trip, on which [parse] calls [substr] and [split] before
    anything else.  The trip id, the stop id and the delay, an [int32], are
    taken to be set. *)
Module transit_realtime.

Record StopTimeEvent := { delay : Z }.

Record StopTimeUpdate := {
  stop_id : string;
  departure : option StopTimeEvent;
  arrival : option StopTimeEvent
}.

Record TripDescriptor := {
  trip_id : string;
  start_date : option string;
  start_time : option string;
  schedule_relationship : Z
}.

Record TripUpdate := {
  trip : TripDescriptor;
  stop_time_update : list StopTimeUpdate
}.

Record FeedEntity := {
  is_deleted : bool;
  trip_update : option TripUpdate
}.

End transit_realtime.

Module Gtfsrt2LC.
Import Js.
Import transit_realtime.
Export GtfsIndex(Row, obj_get).

(** *** The converter and what it emits *)

Record raw_connection := {
  raw_departureStop : value;
  raw_departureTime : Date;
  raw_arrivalStop : value;
  raw_arrivalTime : Date
}.

(** The five identifiers of a connection. *)
Record resolved_uris := {
  connectionURI : string;
  departureStopURI : string;
  arrivalStopURI : string;
  routeURI : string;
  tripURI : string
}.

(** The fields of the class, with the indexes as in-memory maps.  The URI
    templates, the template library and the [routes] index they read are
    one function of the values [parse] passes to [fill] and [resolveURI]:
    the trip id, the trip start time and the raw connection.  It throws
    when a template cannot be resolved. *)
Record t := {
  trips : gmap string Row;
  stop_times : gmap string (list Row);
  uris : string -> Date -> raw_connection -> result resolved_uris
}.

(** The object pushed on the readable stream.  The two times are the time
    values that [toISOString] renders. *)
Record linked_connection := {
  lc_id : string;
  lc_type : string;
  lc_departureStop : string;
  lc_arrivalStop : string;
  lc_departureTime : Z;
  lc_arrivalTime : Z;
  lc_departureDelay : Z;
  lc_arrivalDelay : Z;
  lc_direction : value;
  lc_trip : string;
  lc_route : string;
  lc_pickupType : option string;
  lc_dropOffType : option string
}.

(** The lines written with [console.error]. *)
Inductive log :=
  | TripNotFound (trip_id : string)
  | HopError (err : error)
  | NullValue (trip_id : string)
  | Rejected (err : error).

Inductive event := Push (c : linked_connection) | ConsoleError (l : log).

(** *** Small methods *)

Definition getConnectionType (entity : FeedEntity) : string :=
  if is_deleted entity
     || match trip_update entity with
        | Some tu => schedule_relationship (trip tu) =? 3
        | None => false
        end
  then "CanceledConnection" else "Connection".

Record duration := { hours : number; minutes : number; seconds : number }.

(** A part that is missing is [undefined], which the date arithmetic reads
    as [NaN]; seconds that are missing, [NaN] or 0 become 0. *)
Definition parseGTFSDuration (durationString : string) : duration :=
  let parts := map parseInt (split ":" durationString) in
  {| hours := nth 0 parts NaN;
     minutes := nth 1 parts NaN;
     seconds := if ToBoolean (Number (nth 2 parts NaN)) then nth 2 parts NaN else Num 0 |}.

Definition addDuration (date : Date) (d : duration) : Date :=
  addSeconds (addMinutes (addHours date (hours d)) (minutes d)) (seconds d).

Definition resolveScheduleRelationship (v : value) : option string :=
  if loose_eq v (Number (Num 0)) then Some "gtfs:Regular"
  else if loose_eq v (Number (Num 1)) then Some "gtfs:NotAvailable"
  else None.

(** *** The body of the loop over the stop times *)

(** The loop variables that outlive one turn.  The variable [update] is
    always [stop_time_updates[update_index]]. *)
Record walk_state := {
  update_index : nat;
  departureDelay : Z;
  arrivalDelay : Z
}.

Definition initial_state : walk_state :=
  {| update_index := 0; departureDelay := 0; arrivalDelay := 0 |}.

(** Lines 86 to 108: the update named after the current stop is applied
    and the index moves on. *)
Definition apply_update (st : Row) (update : StopTimeUpdate) (s : walk_state) : walk_state :=
  if strict_eq (obj_get "stop_id" st) (Str (stop_id update)) then
    let '(d, a) :=
      match departure update, arrival update with
      | Some dep, Some arr => (delay dep, delay arr)
      | Some dep, None => (delay dep, 0)
      | None, Some arr => (0, delay arr)
      | None, None => (departureDelay s, arrivalDelay s)
      end in
    {| update_index := S (update_index s); departureDelay := d; arrivalDelay := a |}
  else s.

(** Lines 119 to 123: the arrival delay of the update now under the index
    is taken over when it names the next stop.  Reading [delay] of an
    arrival that is not set throws. *)
Definition lookahead (stop_time_updates : list StopTimeUpdate) (next : Row)
    (s : walk_state) : result walk_state :=
  match stop_time_updates !! update_index s with
  | Some update =>
      if loose_eq (obj_get "stop_id" next) (Str (stop_id update)) then
        match arrival update with
        | Some arr =>
            Ok {| update_index := update_index s;
                  departureDelay := departureDelay s;
                  arrivalDelay := delay arr |}
        | None => Throw TypeError
        end
      else Ok s
  | None => Ok s
  end.

(** [value.split(':')] on a field that may be [undefined]. *)
Definition split_time (v : value) : result (list string) :=
  match v with
  | Str s => Ok (split ":" s)
  | _ => Throw TypeError
  end.

Definition part (i : nat) (parts : list string) : value :=
  match parts !! i with
  | Some p => Str p
  | None => Undefined
  end.

(** [new Date(year, month, day, hours, minutes, seconds + delay, 0)] with
    the hours, minutes and seconds as [split] returned them: strings. *)
Definition combine (date : Date) (parts : list string) (delay : Z) : Date :=
  new_Date (getFullYear date) (getMonth date) (getDate date)
           (ToNumber (part 0 parts)) (ToNumber (part 1 parts))
           (ToNumber (add (part 2 parts) (Number (Num delay))))
           (Num 0).

(** Lines 126 to 185: the connection of the hop from [st] to [next]. *)
Definition build_connection (this : t) (trip_id type : string) (tripStartTime : Date)
    (direction : value) (st next : Row) (s : walk_state) : result linked_connection :=
  let date := tripStartTime in
  let departureStop := obj_get "stop_id" st in
  let arrivalStop := obj_get "stop_id" next in
  bind (split_time (obj_get "departure_time" st)) (fun dparts =>
  let departureTime := combine date dparts (departureDelay s) in
  bind (split_time (obj_get "departure_time" next)) (fun aparts =>
  let arrivalTime := combine date aparts (arrivalDelay s) in
  let raw := {| raw_departureStop := departureStop; raw_departureTime := departureTime;
                raw_arrivalStop := arrivalStop; raw_arrivalTime := arrivalTime |} in
  bind (uris this trip_id tripStartTime raw) (fun u =>
  let pickupType := resolveScheduleRelationship (obj_get "pickup_type" st) in
  let dropOffType := resolveScheduleRelationship (obj_get "drop_off_type" next) in
  bind (toISOString departureTime) (fun dep =>
  bind (toISOString arrivalTime) (fun arr =>
  Ok {| lc_id := connectionURI u;
        lc_type := type;
        lc_departureStop := departureStopURI u;
        lc_arrivalStop := arrivalStopURI u;
        lc_departureTime := dep;
        lc_arrivalTime := arr;
        lc_departureDelay := departureDelay s;
        lc_arrivalDelay := arrivalDelay s;
        lc_direction := direction;
        lc_trip := tripURI u;
        lc_route := routeURI u;
        lc_pickupType := pickupType;
        lc_dropOffType := dropOffType |}))))).

(** The [catch] block: two lines on the console, then [continue]. *)
Definition catch (trip_id : string) (err : error) : list event :=
  [ConsoleError (HopError err); ConsoleError (NullValue trip_id)].

(** One turn of the loop with [update] defined: what it emits and the
    loop variables it leaves.  Assignments made before a throw stay. *)
Definition hop (this : t) (trip_id type : string) (tripStartTime : Date) (direction : value)
    (stop_time_updates : list StopTimeUpdate) (st next : Row)
    (update : StopTimeUpdate) (s : walk_state) : list event * walk_state :=
  let s1 := apply_update st update s in
  match lookahead stop_time_updates next s1 with
  | Throw err => (catch trip_id err, s1)
  | Ok s2 =>
      match build_connection this trip_id type tripStartTime direction st next s2 with
      | Throw err => (catch trip_id err, s2)
      | Ok c => ([Push c], s2)
      end
  end.

(** The loop [for (j = 0; j < stop_times.length - 1; j++)], entered with
    the stop times from position [j] on: it stops at the last stop, and it
    breaks as soon as [update] is [undefined]. *)
Fixpoint walk (this : t) (trip_id type : string) (tripStartTime : Date) (direction : value)
    (stop_time_updates : list StopTimeUpdate) (stop_times : list Row)
    (s : walk_state) : list event * walk_state :=
  match stop_times with
  | st :: ((next :: _) as rest) =>
      match stop_time_updates !! update_index s with
      | None => ([], s)
      | Some update =>
          let '(evs, s') :=
            hop this trip_id type tripStartTime direction stop_time_updates st next update s in
          let '(evs', s'') :=
            walk this trip_id type tripStartTime direction stop_time_updates rest s' in
          (evs ++ evs', s'')
      end
  | _ => ([], s)
  end.

(** *** parse *)

(** [new Date(start_date.substr(0, 4), parseInt(start_date.substr(4, 2)) - 1,
    start_date.substr(6, 2))]. *)
Definition serviceDay (start_date : string) : Date :=
  new_Date (StringToNumber (substr 0 4 start_date))
           (number_sub (parseInt (substr 4 2 start_date)) (Num 1))
           (StringToNumber (substr 6 2 start_date))
           (Num 0) (Num 0) (Num 0) (Num 0).

(** Lines 39 to 41: [addDuration(serviceDay, parseGTFSDuration(start_time))].
    A start date that is not set throws at [substr], a start time that is
    not set at [split]. *)
Definition tripStartTime (td : TripDescriptor) : result Date :=
  match start_date td with
  | None => Throw TypeError
  | Some date =>
      match start_time td with
      | None => Throw TypeError
      | Some time => Ok (addDuration (serviceDay date) (parseGTFSDuration time))
      end
  end.

(** The loop of one trip update over the stop times of its trip. *)
Definition walk_trip (this : t) (entity : FeedEntity) (tu : TripUpdate) (start : Date)
    (trip_row : Row) (stop_times : list Row) (s : walk_state) : list event * walk_state :=
  walk this (trip_id (trip tu)) (getConnectionType entity) start
       (obj_get "trip_headsign" trip_row) (stop_time_update tu) stop_times s.

(** The callback mapped over [feed.entity]: its console lines and pushes,
    and the error it rejects with, if any.  It contains no [await], so the
    callbacks run to their end one after the other.  The trip start is
    computed before the trip is looked up; the loop reads the length of the
    stop times of the trip, which throws when the index has none. *)
Definition parse_entity (this : t) (entity : FeedEntity) : list event * option error :=
  match trip_update entity with
  | None => ([], None)
  | Some tu =>
      match tripStartTime (trip tu) with
      | Throw err => ([], Some err)
      | Ok start =>
          match trips this !! trip_id (trip tu) with
          | None => ([ConsoleError (TripNotFound (trip_id (trip tu)))], None)
          | Some trip_row =>
              match stop_times this !! trip_id (trip tu) with
              | None => ([], Some TypeError)
              | Some sts =>
                  (fst (walk_trip this entity tu start trip_row sts initial_state), None)
              end
          end
      end
  end.

Fixpoint first_rejection (results : list (list event * option error)) : option error :=
  match results with
  | [] => None
  | (_, Some err) :: _ => Some err
  | (_, None) :: rest => first_rejection rest
  end.

(** What [parse] pushes and logs for a decoded feed, in order; the stream
    is closed after the last event and handed to the serializer of the
    requested format.  [Promise.all] rejects with the first rejection,
    which the final [catch] writes on the console. *)
Definition parse (this : t) (feed : list FeedEntity) : list event :=
  let results := map (parse_entity this) feed in
  concat (map fst results)
  ++ match first_rejection results with
     | Some err => [ConsoleError (Rejected err)]
     | None => []
     end.

(** The connections among the events, in order. *)
Definition pushes (evs : list event) : list linked_connection :=
  omap (fun e => match e with Push c => Some c | ConsoleError _ => None end) evs.

End Gtfsrt2LC.

(* ===================================================================== *)
(** ** A small feed to run the definitions on *)
(* ===================================================================== *)

Module Examples.
Import Js GtfsIndex transit_realtime Gtfsrt2LC.

(** Templates [http://example.org/...] filled with the stop ids and the
    trip id. *)
Definition example_uris (trip_id : string) (tripStartTime : Date) (raw : raw_connection)
    : result resolved_uris :=
  Ok {| connectionURI := "http://example.org/connections/" +:+ trip_id +:+ "/"
                           +:+ ToString (raw_departureStop raw);
        departureStopURI := "http://example.org/stops/" +:+ ToString (raw_departureStop raw);
        arrivalStopURI := "http://example.org/stops/" +:+ ToString (raw_arrivalStop raw);
        routeURI := "http://example.org/routes/R1";
        tripURI := "http://example.org/trips/" +:+ trip_id |}.

Definition stop_time (trip stop arrives departs sequence : string) : Row :=
  [("trip_id", Some trip); ("arrival_time", Some arrives); ("departure_time", Some departs);
   ("stop_id", Some stop); ("stop_sequence", Some sequence)].

(** Trip T1 calls at A at 08:00:00, at B at 08:10:00 and at C at 08:20:00. *)
Definition T1_stop_times : list Row :=
  [stop_time "T1" "A" "08:00:00" "08:00:00" "1";
   stop_time "T1" "B" "08:10:00" "08:10:00" "2";
   stop_time "T1" "C" "08:20:00" "08:20:00" "3"].

(** Trip T2 leaves A at 08:00:30, with an empty pickup type; it reaches B
    at 08:09:00 and leaves it at 08:10:00, with drop-off type 1. *)
Definition T2_stop_times : list Row :=
  [stop_time "T2" "A" "08:00:30" "08:00:30" "1" ++ [("pickup_type", Some "")];
   stop_time "T2" "B" "08:09:00" "08:10:00" "2" ++ [("drop_off_type", Some "1")]].

Definition trip_row (id : string) : Row :=
  [("route_id", Some "R1"); ("trip_id", Some id); ("trip_headsign", Some "North")].

Definition converter : t :=
  {| trips := {["T1" := trip_row "T1"; "T2" := trip_row "T2"]};
     stop_times := {["T1" := T1_stop_times; "T2" := T2_stop_times]};
     uris := example_uris |}.

(** A trip update of service day 2020-01-01, starting at 08:00:00. *)
Definition trip_update_of (id : string) (updates : list StopTimeUpdate) : TripUpdate :=
  {| trip := {| trip_id := id; start_date := Some "20200101"; start_time := Some "08:00:00";
                schedule_relationship := 0 |};
     stop_time_update := updates |}.

Definition update_of (id : string) (updates : list StopTimeUpdate) : FeedEntity :=
  {| is_deleted := false; trip_update := Some (trip_update_of id updates) |}.

(** An observation with a departure delay only, and one with both. *)
Definition departs (stop : string) (d : Z) : StopTimeUpdate :=
  {| stop_id := stop; departure := Some {| delay := d |}; arrival := None |}.

Definition calls (stop : string) (a d : Z) : StopTimeUpdate :=
  {| stop_id := stop; departure := Some {| delay := d |}; arrival := Some {| delay := a |} |}.

(** Midnight of 2020-01-01, in milliseconds. *)
Definition midnight : Z := 1577836800000.

(** The hop of T1 from B to C, 120 seconds late at departure. *)
Definition T1_B_to_C : linked_connection :=
  {| lc_id := "http://example.org/connections/T1/B";
     lc_type := "Connection";
     lc_departureStop := "http://example.org/stops/B";
     lc_arrivalStop := "http://example.org/stops/C";
     lc_departureTime := midnight + (8 * 3600 + 10 * 60 + 120) * 1000;
     lc_arrivalTime := midnight + (8 * 3600 + 20 * 60 + 0) * 1000;
     lc_departureDelay := 120;
     lc_arrivalDelay := 0;
     lc_direction := Str "North";
     lc_trip := "http://example.org/trips/T1";
     lc_route := "http://example.org/routes/R1";
     lc_pickupType := None;
     lc_dropOffType := None |}.

(** What the converter pushes for the hop of T2 from A to B when A reports
    a departure delay of [d] and an arrival delay of 0: the seconds of the
    departure are the digits 30 followed by the digits of [d], and the
    arrival is the departure time of B. *)
Definition T2_A_to_B (d seconds : Z) : linked_connection :=
  {| lc_id := "http://example.org/connections/T2/A";
     lc_type := "Connection";
     lc_departureStop := "http://example.org/stops/A";
     lc_arrivalStop := "http://example.org/stops/B";
     lc_departureTime := midnight + (8 * 3600 + 0 * 60 + seconds) * 1000;
     lc_arrivalTime := midnight + (8 * 3600 + 10 * 60 + 0) * 1000;
     lc_departureDelay := d;
     lc_arrivalDelay := 0;
     lc_direction := Str "North";
     lc_trip := "http://example.org/trips/T2";
     lc_route := "http://example.org/routes/R1";
     lc_pickupType := Some "gtfs:Regular";
     lc_dropOffType := Some "gtfs:NotAvailable" |}.

(** An extracted static feed with two trips, T1 and T10, and no
    [stops.txt], [calendar.txt] or [calendar_dates.txt]. *)
Definition feed_files : gmap string (list string) :=
  {[ "stop_times.txt" :=
       ["trip_id,arrival_time,departure_time,stop_id,stop_sequence";
        "T1,08:00:00,08:00:00,A,1";
        "T1,08:10:00,08:10:00,B,2";
        "T10,09:00:00,09:00:00,C,1";
        "T10,09:10:00,09:10:00,D,2"];
     "trips.txt" := ["route_id,trip_id,trip_headsign"; "R1,T1,North"; "R1,T10,South"];
     "routes.txt" := ["route_id,route_short_name"; "R1,1"] ]}.


(** The rows of [stop_times.txt] as parsed. *)
Definition T1_A : Row := stop_time "T1" "A" "08:00:00" "08:00:00" "1".
Definition T1_B : Row := stop_time "T1" "B" "08:10:00" "08:10:00" "2".
Definition T10_C : Row := stop_time "T10" "C" "09:00:00" "09:00:00" "1".
Definition T10_D : Row := stop_time "T10" "D" "09:10:00" "09:10:00" "2".

Definition empty_disk : disk := {| auxPath := None; rt_indexes := false |}.

Definition extracted_disk : disk := {| auxPath := Some feed_files; rt_indexes := false |}.

(** The update of T1 at B, on a deleted entity. *)
Definition deleted_update : FeedEntity :=
  {| is_deleted := true; trip_update := Some (trip_update_of "T1" [departs "B" 120]) |}.

(** The hop of T1 from B to C as a cancelled connection. *)
Definition T1_B_to_C_cancelled : linked_connection :=
  {| lc_id := lc_id T1_B_to_C;
     lc_type := "CanceledConnection";
     lc_departureStop := lc_departureStop T1_B_to_C;
     lc_arrivalStop := lc_arrivalStop T1_B_to_C;
     lc_departureTime := lc_departureTime T1_B_to_C;
     lc_arrivalTime := lc_arrivalTime T1_B_to_C;
     lc_departureDelay := 120;
     lc_arrivalDelay := 0;
     lc_direction := Str "North";
     lc_trip := lc_trip T1_B_to_C;
     lc_route := lc_route T1_B_to_C;
     lc_pickupType := None;
     lc_dropOffType := None |}.

(** An update of T1 whose start time has no minutes. *)
Definition update_without_minutes : TripUpdate :=
  {| trip := {| trip_id := "T1"; start_date := Some "20200101"; start_time := Some "0800";
                schedule_relationship := 0 |};
     stop_time_update := [calls "A" 0 0] |}.



(** The rows of [trips.txt] as parsed. *)
Definition parsed_trips : list Row :=
  [trip_row "T1";
   [("route_id", Some "R1"); ("trip_id", Some "T10"); ("trip_headsign", Some "South")]].

(** The example feed with a [calendar_dates.txt] of one exception. *)
Definition calendar_disk : disk :=
  {| auxPath :=
       Some (<["calendar_dates.txt" := ["service_id,date,exception_type"; "S1,20200101,2"]]>
               feed_files);
     rt_indexes := false |}.

End Examples.

(* ===================================================================== *)
(** ** Properties of the delay merge walk *)
(* ===================================================================== *)

Import Js GtfsIndex transit_realtime Gtfsrt2LC.

(** On a CSV field, which is a string or [undefined], [==] and [===]
    against a string agree, and hold exactly when the field is that
    string. *)
Lemma field_loose_eq (f : option string) (x : string) :
  loose_eq (of_field f) (Str x) = strict_eq (of_field f) (Str x).
Proof. destruct f; reflexivity. Qed.

Lemma field_strict_eq (f : option string) (x : string) :
  strict_eq (of_field f) (Str x) = true <-> of_field f = Str x.
Proof.
  destruct f as [y|]; simpl.
  - rewrite String.eqb_eq. split; [intros ->; reflexivity | intros [= ->]; reflexivity].
  - split; discriminate.
Qed.

Lemma field_strict_neq (f : option string) (x : string) :
  of_field f <> Str x -> strict_eq (of_field f) (Str x) = false.
Proof.
  intros Hne. destruct (strict_eq (of_field f) (Str x)) eqn:E; [|reflexivity].
  apply field_strict_eq in E. contradiction.
Qed.

Lemma apply_update_index (st : Row) (u : StopTimeUpdate) (s : walk_state) :
  update_index (apply_update st u s) =
    if strict_eq (obj_get "stop_id" st) (Str (stop_id u))
    then S (update_index s) else update_index s.
Proof.
  unfold apply_update.
  destruct (strict_eq _ _); [|reflexivity].
  destruct (departure u), (arrival u); reflexivity.
Qed.

Lemma apply_update_miss (st : Row) (u : StopTimeUpdate) (s : walk_state) :
  obj_get "stop_id" st <> Str (stop_id u) -> apply_update st u s = s.
Proof.
  intros Hne. unfold apply_update, obj_get in *.
  rewrite field_strict_neq by exact Hne. reflexivity.
Qed.

Lemma lookahead_index (updates : list StopTimeUpdate) (next : Row) (s s' : walk_state) :
  lookahead updates next s = Ok s' ->
  update_index s' = update_index s /\ departureDelay s' = departureDelay s.
Proof.
  unfold lookahead. intros H.
  destruct (updates !! update_index s) as [u|]; [|injection H as <-; auto].
  destruct (loose_eq _ _); [|injection H as <-; auto].
  destruct (arrival u); [injection H as <-; auto | discriminate].
Qed.

Lemma lookahead_miss (updates : list StopTimeUpdate) (next : Row) (s : walk_state)
    (u : StopTimeUpdate) :
  updates !! update_index s = Some u ->
  obj_get "stop_id" next <> Str (stop_id u) ->
  lookahead updates next s = Ok s.
Proof.
  intros Hu Hne. unfold lookahead, obj_get in *. rewrite Hu.
  rewrite field_loose_eq, field_strict_neq by exact Hne. reflexivity.
Qed.

Section Walk.

Variables (this : t) (id type : string) (tripStartTime : Date) (direction : value).
Variable stop_time_updates : list StopTimeUpdate.

Abbreviation build_ := (build_connection this id type tripStartTime direction).
Abbreviation hop_ := (hop this id type tripStartTime direction stop_time_updates).
Abbreviation walk_ := (walk this id type tripStartTime direction stop_time_updates).

(** A connection carries the delays and the pickup and drop-off types the
    loop variables and the two stop times give it. *)
Lemma build_connection_fields (st next : Row) (s : walk_state) (c : linked_connection) :
  build_ st next s = Ok c ->
  lc_departureDelay c = departureDelay s /\ lc_arrivalDelay c = arrivalDelay s
  /\ lc_pickupType c = resolveScheduleRelationship (obj_get "pickup_type" st)
  /\ lc_dropOffType c = resolveScheduleRelationship (obj_get "drop_off_type" next).
Proof.
  unfold build_connection. intros H.
  destruct (split_time (obj_get "departure_time" st)) as [dparts|]; [simpl in H|discriminate].
  destruct (split_time (obj_get "departure_time" next)) as [aparts|]; [simpl in H|discriminate].
  destruct (uris this id tripStartTime _) as [u|]; [simpl in H|discriminate].
  destruct (toISOString (combine tripStartTime dparts _)) as [dep|]; [simpl in H|discriminate].
  destruct (toISOString (combine tripStartTime aparts _)) as [arr|]; [simpl in H|discriminate].
  injection H as <-. simpl. auto.
Qed.

(** A turn of the loop either pushes the connection built from the loop
    variables the lookahead left, or logs the two lines of the [catch]
    block. *)
Lemma hop_cases (st next : Row) (update : StopTimeUpdate) (s : walk_state) :
  (exists c s2,
      lookahead stop_time_updates next (apply_update st update s) = Ok s2
      /\ build_ st next s2 = Ok c
      /\ hop_ st next update s = ([Push c], s2))
  \/ (exists err, hop_ st next update s = (catch id err, snd (hop_ st next update s))).
Proof.
  unfold hop.
  destruct (lookahead _ _ _) as [s2|err]; [|right; eexists; reflexivity].
  destruct (build_ st next s2) as [c|err] eqn:Hb; [left|right; eexists; reflexivity].
  exists c, s2. auto.
Qed.

Lemma in_catch_no_push (err : error) (c : linked_connection) :
  ~ In (Push c) (catch id err).
Proof. simpl. intros [H|[H|[]]]; discriminate. Qed.

(** The update index after a turn: one more when the stop of the turn is
    the stop the update names, unchanged otherwise. *)
Lemma hop_index (st next : Row) (update : StopTimeUpdate) (s : walk_state) :
  update_index (snd (hop_ st next update s)) =
    if strict_eq (obj_get "stop_id" st) (Str (stop_id update))
    then S (update_index s) else update_index s.
Proof.
  rewrite <- apply_update_index. unfold hop.
  destruct (lookahead _ _ _) as [s2|err] eqn:Hl; [|reflexivity].
  apply lookahead_index in Hl as [Hi _].
  destruct (build_ st next s2); simpl; exact Hi.
Qed.

(** When neither stop of the turn is the stop the update names, the turn
    leaves the loop variables alone. *)
Lemma hop_miss (st next : Row) (update : StopTimeUpdate) (s : walk_state) :
  stop_time_updates !! update_index s = Some update ->
  obj_get "stop_id" st <> Str (stop_id update) ->
  obj_get "stop_id" next <> Str (stop_id update) ->
  hop_ st next update s =
    (match build_ st next s with Ok c => [Push c] | Throw err => catch id err end, s).
Proof.
  intros Hu Hst Hnext. unfold hop.
  rewrite apply_update_miss by exact Hst.
  rewrite (lookahead_miss _ _ _ _ Hu Hnext).
  destruct (build_ st next s); reflexivity.
Qed.

Lemma walk_unfold (sts : list Row) (s : walk_state) :
  walk_ sts s =
    match sts with
    | st :: ((next :: _) as rest) =>
        match stop_time_updates !! update_index s with
        | None => ([], s)
        | Some update =>
            let '(evs, s') := hop_ st next update s in
            let '(evs', s'') := walk_ rest s' in
            (evs ++ evs', s'')
        end
    | _ => ([], s)
    end.
Proof. destruct sts; reflexivity. Qed.

Lemma walk_cons (st next : Row) (rest : list Row) (s : walk_state) (update : StopTimeUpdate) :
  stop_time_updates !! update_index s = Some update ->
  walk_ (st :: next :: rest) s =
    (fst (hop_ st next update s) ++ fst (walk_ (next :: rest) (snd (hop_ st next update s))),
     snd (walk_ (next :: rest) (snd (hop_ st next update s)))).
Proof.
  intros Hu. rewrite walk_unfold, Hu.
  destruct (hop_ st next update s) as [evs s']. cbn [fst snd].
  destruct (walk_ (next :: rest) s') as [evs' s'']. reflexivity.
Qed.

Lemma walk_exhausted (sts : list Row) (s : walk_state) :
  (length stop_time_updates <= update_index s)%nat ->
  walk_ sts s = ([], s).
Proof.
  intros Hlen. apply lookup_ge_None_2 in Hlen.
  rewrite walk_unfold.
  destruct sts as [|st [|next rest]]; try reflexivity.
  rewrite Hlen. reflexivity.
Qed.

Lemma walk_pushes_bound (sts : list Row) (s : walk_state) :
  (length (pushes (fst (walk_ sts s))) <= length sts - 1)%nat.
Proof.
  revert s. induction sts as [|st sts IH]; intros s; [simpl; lia|].
  destruct sts as [|next rest]; [simpl; lia|].
  destruct (stop_time_updates !! update_index s) as [update|] eqn:Hu.
  - rewrite (walk_cons _ _ _ _ _ Hu). simpl fst.
    unfold pushes. rewrite omap_app, length_app. fold (pushes).
    specialize (IH (snd (hop_ st next update s))).
    assert (length (omap (fun e => match e with Push c => Some c | ConsoleError _ => None end)
                         (fst (hop_ st next update s))) <= 1)%nat as Hhop.
    { destruct (hop_cases st next update s) as [(c & s2 & _ & _ & ->)|[err ->]]; simpl; lia. }
    unfold pushes in IH. simpl length in *. lia.
  - rewrite walk_unfold, Hu. simpl. lia.
Qed.

(** With the update under the index naming none of the stops left, every
    remaining turn runs on the same loop variables. *)
Lemma walk_blocked (sts : list Row) (s : walk_state) (update : StopTimeUpdate) :
  stop_time_updates !! update_index s = Some update ->
  (forall r, In r sts -> obj_get "stop_id" r <> Str (stop_id update)) ->
  walk_ sts s =
    (concat (map (fun p => fst (hop_ (fst p) (snd p) update s)) (zip sts (tail sts))), s)
  /\ (forall c, In (Push c) (fst (walk_ sts s)) ->
        lc_departureDelay c = departureDelay s /\ lc_arrivalDelay c = arrivalDelay s).
Proof.
  intros Hu. induction sts as [|st sts IH]; intros Hne.
  - split; [reflexivity | intros c []].
  - destruct sts as [|next rest].
    + split; [reflexivity | intros c []].
    + assert (Hst : obj_get "stop_id" st <> Str (stop_id update)) by (apply Hne; simpl; auto).
      assert (Hnext : obj_get "stop_id" next <> Str (stop_id update)) by (apply Hne; simpl; auto).
      destruct IH as [IHw IHc]; [intros r Hr; apply Hne; right; exact Hr|].
      rewrite (walk_cons _ _ _ _ _ Hu).
      pose proof (hop_miss st next update s Hu Hst Hnext) as Hhop.
      rewrite Hhop in *. cbn [fst snd] in *. split.
      * rewrite IHw. cbn [fst snd tail zip zip_with map concat]. rewrite Hhop. reflexivity.
      * intros c [Hc|Hc]%in_app_or; [|apply IHc; exact Hc].
        destruct (build_ st next s) as [c'|err] eqn:Hb.
        -- destruct Hc as [[= ->]|[]]. apply build_connection_fields in Hb. tauto.
        -- exfalso. exact (in_catch_no_push _ _ Hc).
Qed.

(** C10. The update index moves only in a turn whose stop id is exactly
    the stop id of the update under the index, and then by one.  So when
    that update names a stop id found nowhere from the current position on,
    every remaining turn runs with this same update and the same loop
    variables: the index is still on it after the loop, no later update is
    read, and every connection pushed carries the delays that were in
    effect before it. *)
Theorem C10_cursor_waits_for_exact_match
    (sts : list Row) (s : walk_state) (update : StopTimeUpdate) :
  stop_time_updates !! update_index s = Some update ->
  (forall r, In r sts -> obj_get "stop_id" r <> Str (stop_id update)) ->
  (forall st next u s0,
      update_index (snd (hop_ st next u s0)) <> update_index s0 ->
      obj_get "stop_id" st = Str (stop_id u)
      /\ update_index (snd (hop_ st next u s0)) = S (update_index s0))
  /\ walk_ sts s =
       (concat (map (fun p => fst (hop_ (fst p) (snd p) update s)) (zip sts (tail sts))), s)
  /\ (forall c, In (Push c) (fst (walk_ sts s)) ->
        lc_departureDelay c = departureDelay s /\ lc_arrivalDelay c = arrivalDelay s).
Proof.
  intros Hu Hne. split; [|exact (walk_blocked sts s update Hu Hne)].
  intros st next u s0. rewrite hop_index.
  destruct (strict_eq (obj_get "stop_id" st) (Str (stop_id u))) eqn:E.
  - intros _. split; [|reflexivity]. apply field_strict_eq. exact E.
  - intros Hneq. contradiction.
Qed.

(** C5, as amended. When the stop of the turn is the stop the update under
    the index names, the update is applied before the connection is built:
    both delays present, both are taken; a departure delay alone, the
    arrival delay becomes 0; an arrival delay alone, the departure delay
    becomes 0; and the index moves on by one.  The connection pushed in this
    turn has the departure delay so set.  Its arrival delay is the one so
    set too, unless the next update names the arrival stop of the hop: then
    it is the arrival delay of that next update. *)
Theorem C5_matching_update_is_applied
    (st next : Row) (update : StopTimeUpdate) (s : walk_state) :
  stop_time_updates !! update_index s = Some update ->
  obj_get "stop_id" st = Str (stop_id update) ->
  let s1 := apply_update st update s in
  update_index s1 = S (update_index s)
  /\ (forall dep arr, departure update = Some dep -> arrival update = Some arr ->
        departureDelay s1 = delay dep /\ arrivalDelay s1 = delay arr)
  /\ (forall dep, departure update = Some dep -> arrival update = None ->
        departureDelay s1 = delay dep /\ arrivalDelay s1 = 0)
  /\ (forall arr, departure update = None -> arrival update = Some arr ->
        departureDelay s1 = 0 /\ arrivalDelay s1 = delay arr)
  /\ update_index (snd (hop_ st next update s)) = S (update_index s)
  /\ (forall c, In (Push c) (fst (hop_ st next update s)) ->
        lc_departureDelay c = departureDelay s1
        /\ match stop_time_updates !! S (update_index s) with
           | Some u' =>
               if loose_eq (obj_get "stop_id" next) (Str (stop_id u'))
               then exists arr, arrival u' = Some arr /\ lc_arrivalDelay c = delay arr
               else lc_arrivalDelay c = arrivalDelay s1
           | None => lc_arrivalDelay c = arrivalDelay s1
           end).
Proof.
  intros Hu Hst s1.
  assert (Hhit : strict_eq (obj_get "stop_id" st) (Str (stop_id update)) = true)
    by (apply field_strict_eq; exact Hst).
  assert (Hi : update_index s1 = S (update_index s))
    by (unfold s1; rewrite apply_update_index, Hhit; reflexivity).
  assert (Happly : forall d a,
             match departure update, arrival update with
             | Some dep, Some arr => (delay dep, delay arr)
             | Some dep, None => (delay dep, 0)
             | None, Some arr => (0, delay arr)
             | None, None => (departureDelay s, arrivalDelay s)
             end = (d, a) ->
             departureDelay s1 = d /\ arrivalDelay s1 = a).
  { intros d a Hda. unfold s1, apply_update. rewrite Hhit, Hda. auto. }
  split; [exact Hi|].
  split; [intros dep arr Hd Ha; apply Happly; rewrite Hd, Ha; reflexivity|].
  split; [intros dep Hd Ha; apply Happly; rewrite Hd, Ha; reflexivity|].
  split; [intros arr Hd Ha; apply Happly; rewrite Hd, Ha; reflexivity|].
  split; [|intros c H; split].
  - rewrite hop_index, Hhit. reflexivity.
  - destruct (hop_cases st next update s) as [(c' & s2 & Hl & Hb & Hh)|[err Hh]];
      rewrite Hh in H; [|exfalso; exact (in_catch_no_push _ _ H)].
    destruct H as [[= ->]|[]].
    apply build_connection_fields in Hb as (-> & _).
    apply lookahead_index in Hl as [_ Hd]. exact Hd.
  - destruct (hop_cases st next update s) as [(c' & s2 & Hl & Hb & Hh)|[err Hh]];
      rewrite Hh in H; [|exfalso; exact (in_catch_no_push _ _ H)].
    destruct H as [[= ->]|[]].
    apply build_connection_fields in Hb as (_ & -> & _).
    fold s1 in Hl. unfold lookahead in Hl. rewrite Hi in Hl.
    destruct (stop_time_updates !! S (update_index s)) as [u'|]; [|injection Hl as <-; reflexivity].
    destruct (loose_eq (obj_get "stop_id" next) (Str (stop_id u')));
      [|injection Hl as <-; reflexivity].
    destruct (arrival u') as [arr|]; [|discriminate].
    injection Hl as <-. exists arr. auto.
Qed.

End Walk.

(* ===================================================================== *)
(** ** Properties of parse *)
(* ===================================================================== *)

Lemma first_rejection_skip (this : t) (feed1 feed2 : list FeedEntity) (entity : FeedEntity) :
  snd (parse_entity this entity) = None ->
  first_rejection (map (parse_entity this) (feed1 ++ entity :: feed2))
  = first_rejection (map (parse_entity this) (feed1 ++ feed2)).
Proof.
  intros Hnone. induction feed1 as [|e feed1 IH]; simpl.
  - destruct (parse_entity this entity) as [evs [err|]]; [discriminate | reflexivity].
  - destruct (parse_entity this e) as [evs [err|]]; [reflexivity | exact IH].
Qed.

Lemma parse_entity_found (this : t) (entity : FeedEntity) (tu : TripUpdate) (start : Date)
    (trip_row : Row) (sts : list Row) :
  trip_update entity = Some tu ->
  tripStartTime (trip tu) = Ok start ->
  trips this !! trip_id (trip tu) = Some trip_row ->
  stop_times this !! trip_id (trip tu) = Some sts ->
  parse_entity this entity
  = (fst (walk_trip this entity tu start trip_row sts initial_state), None).
Proof.
  intros Htu Hstart Htrip Hsts. unfold parse_entity.
  rewrite Htu, Hstart, Htrip, Hsts. reflexivity.
Qed.

(** A trip start is computed exactly when the start date and the start
    time are set. *)
Lemma tripStartTime_set (td : TripDescriptor) (date time : string) :
  start_date td = Some date ->
  start_time td = Some time ->
  tripStartTime td = Ok (addDuration (serviceDay date) (parseGTFSDuration time)).
Proof. intros Hd Ht. unfold tripStartTime. rewrite Hd, Ht. reflexivity. Qed.

(** Whatever the entity, the connections it pushes are at most one per
    pair of consecutive stops of its trip. *)
Lemma parse_entity_pushes_bound (this : t) (entity : FeedEntity) (tu : TripUpdate)
    (sts : list Row) :
  trip_update entity = Some tu ->
  stop_times this !! trip_id (trip tu) = Some sts ->
  (length (pushes (fst (parse_entity this entity))) <= length sts - 1)%nat.
Proof.
  intros Htu Hsts. unfold parse_entity. rewrite Htu.
  destruct (tripStartTime (trip tu)) as [start|err]; [|simpl; lia].
  destruct (trips this !! trip_id (trip tu)) as [trip_row|]; [|simpl; lia].
  rewrite Hsts. cbn [fst]. apply walk_pushes_bound.
Qed.

(** C1, as amended. For a trip update whose trip is in the static index,
    the loop over the stop times pushes at most one connection per pair of
    consecutive stops, and it runs only while an update is left under the
    index.  A turn that starts with an update under the index is run, be
    that update the last one.  A turn that starts with the updates run out
    ends the loop, with nothing pushed and nothing logged from there on,
    and a trip update without any stop time update pushes nothing at
    all.  The loop is entered with the trip start computed from the start
    date and the start time. *)
Theorem C1_walk_ends_when_updates_run_out
    (this : t) (entity : FeedEntity) (tu : TripUpdate) (trip_row : Row) (sts : list Row) :
  trip_update entity = Some tu ->
  trips this !! trip_id (trip tu) = Some trip_row ->
  stop_times this !! trip_id (trip tu) = Some sts ->
  (forall start,
      tripStartTime (trip tu) = Ok start ->
      parse_entity this entity
      = (fst (walk_trip this entity tu start trip_row sts initial_state), None))
  /\ (length (pushes (fst (parse_entity this entity))) <= length sts - 1)%nat
  /\ (forall start st next rest s update,
        stop_time_update tu !! update_index s = Some update ->
        exists evs s',
          hop this (trip_id (trip tu)) (getConnectionType entity) start
              (obj_get "trip_headsign" trip_row) (stop_time_update tu) st next update s
          = (evs, s')
          /\ walk_trip this entity tu start trip_row (st :: next :: rest) s
             = (evs ++ fst (walk_trip this entity tu start trip_row (next :: rest) s'),
                snd (walk_trip this entity tu start trip_row (next :: rest) s')))
  /\ (forall start rest s,
        (length (stop_time_update tu) <= update_index s)%nat ->
        walk_trip this entity tu start trip_row rest s = ([], s))
  /\ (stop_time_update tu = [] ->
      pushes (fst (parse_entity this entity)) = []
      /\ forall start,
           tripStartTime (trip tu) = Ok start -> parse_entity this entity = ([], None)).
Proof.
  intros Htu Htrip Hsts.
  assert (Hpe : forall start,
             tripStartTime (trip tu) = Ok start ->
             parse_entity this entity
             = (fst (walk_trip this entity tu start trip_row sts initial_state), None)).
  { intros start Hstart.
    exact (parse_entity_found this entity tu start trip_row sts Htu Hstart Htrip Hsts). }
  assert (Hnil : stop_time_update tu = [] ->
                 forall start,
                   tripStartTime (trip tu) = Ok start -> parse_entity this entity = ([], None)).
  { intros Hnil start Hstart. rewrite (Hpe start Hstart). unfold walk_trip.
    rewrite walk_exhausted; [reflexivity | rewrite Hnil; simpl; lia]. }
  split; [exact Hpe|]. split; [|split; [|split]].
  - exact (parse_entity_pushes_bound this entity tu sts Htu Hsts).
  - intros start st next rest s update Hu. unfold walk_trip.
    rewrite (walk_cons _ _ _ _ _ _ _ _ _ _ _ Hu).
    destruct (hop _ _ _ _ _ _ st next update s) as [evs s']. exists evs, s'. auto.
  - intros start rest s Hlen. apply walk_exhausted. exact Hlen.
  - intros Hnil'. split; [|exact (Hnil Hnil')].
    destruct (tripStartTime (trip tu)) as [start|err] eqn:Hstart.
    + rewrite (Hnil Hnil' start eq_refl). reflexivity.
    + unfold parse_entity. rewrite Htu, Hstart. reflexivity.
Qed.






(* ===================================================================== *)
(** ** The converter on the example feed *)
(* ===================================================================== *)

Import Examples.

(** C1, the claim as stated fails. Trip T1 is in the static index and has
    three stops, hence two hops.  A trip update without stop time updates
    pushes no connection; one whose only update is applied at A pushes the
    hop from A to B and not the hop from B to C. *)
Lemma C1_counterexample :
  trips converter !! "T1" = Some (trip_row "T1")
  /\ (length T1_stop_times - 1 = 2)%nat
  /\ parse converter [update_of "T1" []] = []
  /\ length (pushes (parse converter [update_of "T1" []])) <> (length T1_stop_times - 1)%nat
  /\ length (pushes (parse converter [update_of "T1" [calls "A" 30 30]])) = 1%nat.
Proof. vm_compute. repeat split; try reflexivity. discriminate. Qed.

(** The theorem on trip T1 with one update, at A. *)
Lemma C1_witness :
  trip_update (update_of "T1" [calls "A" 30 30]) = Some (trip_update_of "T1" [calls "A" 30 30])
  /\ trips converter !! "T1" = Some (trip_row "T1")
  /\ stop_times converter !! "T1" = Some T1_stop_times
  /\ (length (pushes (fst (parse_entity converter (update_of "T1" [calls "A" 30 30]))))
      <= length T1_stop_times - 1)%nat.
Proof.
  assert (H1 : trip_update (update_of "T1" [calls "A" 30 30])
               = Some (trip_update_of "T1" [calls "A" 30 30])) by reflexivity.
  assert (H2 : trips converter !! "T1" = Some (trip_row "T1")) by reflexivity.
  assert (H3 : stop_times converter !! "T1" = Some T1_stop_times) by reflexivity.
  split; [exact H1|]. split; [exact H2|]. split; [exact H3|].
  exact (proj1 (proj2 (C1_walk_ends_when_updates_run_out
                         converter _ _ _ _ H1 H2 H3))).
Defined.

(** C3, the code at a failing input. Trip T2 is scheduled to leave A at
    08:00:30 and to reach B at 08:09:00; A reports a departure delay of 120
    seconds and an arrival delay of 0.  The seconds handed to the date are
    the string 30 followed by 120, that is 30120 seconds and not 150; the
    arrival is taken from the departure time of B, 08:10:00. *)
Theorem C3_seconds_and_delay_are_concatenated :
  serviceDay "20200101" = Some midnight
  /\ obj_get "departure_time" (nth 0 T2_stop_times []) = Str "08:00:30"
  /\ obj_get "arrival_time" (nth 1 T2_stop_times []) = Str "08:09:00"
  /\ parse converter [update_of "T2" [calls "A" 0 120]] = [Push (T2_A_to_B 120 30120)]
  /\ lc_departureTime (T2_A_to_B 120 30120) <> midnight + (8 * 3600 + 0 * 60 + 30 + 120) * 1000
  /\ lc_arrivalTime (T2_A_to_B 120 30120) <> midnight + (8 * 3600 + 9 * 60 + 0 + 0) * 1000.
Proof. vm_compute. repeat split; try reflexivity; discriminate. Qed.

(** C4, the code at a failing input. Trip T1 calls at A, B and C, and the
    only update names B with a departure delay of 120 seconds and no
    arrival.  In the turn of the hop from A to B the lookahead finds B
    under the index and reads the delay of its missing arrival: the turn
    throws, the [catch] block logs it, and the hop is not pushed.  The hop
    from B to C is. *)
Theorem C4_lookahead_without_arrival_drops_the_hop :
  lookahead [departs "B" 120] (nth 1 T1_stop_times []) initial_state = Throw TypeError
  /\ parse converter [update_of "T1" [departs "B" 120]]
     = [ConsoleError (HopError TypeError); ConsoleError (NullValue "T1"); Push T1_B_to_C].
Proof. vm_compute. split; reflexivity. Qed.

(** C5, the claim as stated fails. The first update of T1 names A with a
    departure delay of 60 seconds only; the second names B with an arrival
    delay of 90.  The hop from A to B, the first matching hop, is pushed
    with departure delay 60 and arrival delay 90, not 0. *)
Lemma C5_counterexample :
  exists c rest,
    arrival (departs "A" 60) = None
    /\ parse converter [update_of "T1" [departs "A" 60; calls "B" 90 100]] = Push c :: rest
    /\ lc_departureStop c = "http://example.org/stops/A"
    /\ lc_departureDelay c = 60
    /\ lc_arrivalDelay c = 90
    /\ lc_arrivalDelay c <> 0.
Proof.
  eexists _, _. split; [reflexivity|]. split; [vm_compute; reflexivity|].
  vm_compute. repeat split; try reflexivity. discriminate.
Qed.

(** The theorem on the first turn of trip T1, with the update at A. *)
Lemma C5_witness :
  [departs "A" 60; calls "B" 90 100] !! update_index initial_state = Some (departs "A" 60)
  /\ obj_get "stop_id" (nth 0 T1_stop_times []) = Str (stop_id (departs "A" 60))
  /\ update_index (apply_update (nth 0 T1_stop_times []) (departs "A" 60) initial_state)
     = S (update_index initial_state).
Proof.
  assert (H1 : [departs "A" 60; calls "B" 90 100] !! update_index initial_state
               = Some (departs "A" 60)) by reflexivity.
  assert (H2 : obj_get "stop_id" (nth 0 T1_stop_times []) = Str (stop_id (departs "A" 60)))
    by reflexivity.
  split; [exact H1|]. split; [exact H2|].
  exact (proj1 (C5_matching_update_is_applied
                  converter "T1" "Connection" (Some midnight) (Str "North")
                  [departs "A" 60; calls "B" 90 100]
                  (nth 0 T1_stop_times []) (nth 1 T1_stop_times [])
                  (departs "A" 60) initial_state H1 H2)).
Defined.

(** C6, the claim as stated fails. A pickup type that is the empty string
    compares equal to 0 and resolves to the regular type, not to an absent
    value: so does the connection of T2 from A, whose pickup type is
    empty. *)
Lemma C6_counterexample :
  obj_get "pickup_type" (nth 0 T2_stop_times []) = Str ""
  /\ resolveScheduleRelationship (Str "") = Some "gtfs:Regular"
  /\ resolveScheduleRelationship (Str "") <> None
  /\ (exists c, parse converter [update_of "T2" [calls "A" 0 0]] = [Push c]
                /\ lc_pickupType c = Some "gtfs:Regular").
Proof.
  split; [reflexivity|]. split; [reflexivity|]. split; [discriminate|].
  eexists. split; vm_compute; reflexivity.
Qed.

(** C6, as amended. The pickup type of a connection is resolved from the
    pickup code of its departure stop time and the drop-off type from the
    drop-off code of its arrival stop time.  A code whose number is 0,
    which the empty string is, gives the regular type; a code whose number
    is 1 gives the not-available type; every other code, and a field that
    is not set, gives an absent value. *)
Theorem C6_pickup_and_drop_off_types
    (this : t) (id type : string) (start : Date) (direction : value)
    (st next : Row) (s : walk_state) (c : linked_connection) :
  build_connection this id type start direction st next s = Ok c ->
  lc_pickupType c = resolveScheduleRelationship (obj_get "pickup_type" st)
  /\ lc_dropOffType c = resolveScheduleRelationship (obj_get "drop_off_type" next)
  /\ (forall f, resolveScheduleRelationship (of_field f) =
        match f with
        | None => None
        | Some code =>
            match StringToNumber code with
            | Num 0 => Some "gtfs:Regular"
            | Num 1 => Some "gtfs:NotAvailable"
            | _ => None
            end
        end)
  /\ resolveScheduleRelationship (Str "0") = Some "gtfs:Regular"
  /\ resolveScheduleRelationship (Str "1") = Some "gtfs:NotAvailable"
  /\ resolveScheduleRelationship (Str "") = Some "gtfs:Regular"
  /\ resolveScheduleRelationship (Str "2") = None
  /\ resolveScheduleRelationship Undefined = None.
Proof.
  intros Hb. apply build_connection_fields in Hb as (_ & _ & Hp & Hd).
  split; [exact Hp|]. split; [exact Hd|]. split; [|repeat split; reflexivity].
  intros [code|]; [|reflexivity].
  unfold resolveScheduleRelationship, of_field, loose_eq, number_eqb.
  destruct (StringToNumber code) as [|z|m e|negative]; try reflexivity.
  destruct z as [|p|p]; try reflexivity.
  destruct p; reflexivity.
Qed.

(** The theorem on the hop of T2 from A to B. *)
Lemma C6_witness :
  build_connection converter "T2" "Connection" (Some (midnight + 8 * 3600000)) (Str "North")
    (nth 0 T2_stop_times []) (nth 1 T2_stop_times [])
    {| update_index := 1; departureDelay := 120; arrivalDelay := 0 |}
  = Ok (T2_A_to_B 120 30120)
  /\ lc_pickupType (T2_A_to_B 120 30120)
     = resolveScheduleRelationship (obj_get "pickup_type" (nth 0 T2_stop_times [])).
Proof.
  assert (H1 : build_connection converter "T2" "Connection" (Some (midnight + 8 * 3600000))
                 (Str "North") (nth 0 T2_stop_times []) (nth 1 T2_stop_times [])
                 {| update_index := 1; departureDelay := 120; arrivalDelay := 0 |}
               = Ok (T2_A_to_B 120 30120)) by (vm_compute; reflexivity).
  split; [exact H1|].
  exact (proj1 (C6_pickup_and_drop_off_types _ _ _ _ _ _ _ _ _ H1)).
Defined.



(** The theorem on trip T1 with a first update that names Z, a stop T1
    does not call at. *)
Lemma C10_witness :
  [departs "Z" 60; calls "B" 90 100] !! update_index initial_state = Some (departs "Z" 60)
  /\ (forall r, In r T1_stop_times -> obj_get "stop_id" r <> Str (stop_id (departs "Z" 60)))
  /\ (forall c,
        In (Push c) (fst (walk converter "T1" "Connection" (Some midnight) (Str "North")
                            [departs "Z" 60; calls "B" 90 100] T1_stop_times initial_state)) ->
        lc_departureDelay c = departureDelay initial_state
        /\ lc_arrivalDelay c = arrivalDelay initial_state).
Proof.
  assert (H1 : [departs "Z" 60; calls "B" 90 100] !! update_index initial_state
               = Some (departs "Z" 60)) by reflexivity.
  assert (H2 : forall r, In r T1_stop_times ->
                         obj_get "stop_id" r <> Str (stop_id (departs "Z" 60))).
  { intros r [<-|[<-|[<-|[]]]]; vm_compute; discriminate. }
  split; [exact H1|]. split; [exact H2|].
  exact (proj2 (proj2 (C10_cursor_waits_for_exact_match
                         converter "T1" "Connection" (Some midnight) (Str "North")
                         [departs "Z" 60; calls "B" 90 100]
                         T1_stop_times initial_state (departs "Z" 60) H1 H2))).
Defined.

(* ===================================================================== *)
(** ** Properties of the index build *)
(* ===================================================================== *)


Lemma mbind_resolved {A B} (m : M A) (k : A -> M B) (d d' : disk) (a : A) :
  m d = (Resolved a, d') -> mbind m k d = k a d'.
Proof. intros H. unfold mbind. rewrite H. reflexivity. Qed.


Lemma getGtfsHeaders_present (fileName : string) (d : disk) :
  read_file fileName d <> None ->
  exists headers, getGtfsHeaders fileName d = (Resolved headers, d).
Proof.
  intros H. unfold getGtfsHeaders.
  destruct (read_file fileName d) as [lines|]; [eexists; reflexivity | contradiction].
Qed.

Lemma mbind_resolved_inv {A B} (m : M A) (k : A -> M B) (d d' : disk) (b : B) :
  mbind m k d = (Resolved b, d') ->
  exists a d1, m d = (Resolved a, d1) /\ k a d1 = (Resolved b, d').
Proof.
  unfold mbind. destruct (m d) as [[a|f] d1]; [|discriminate].
  intros H. exists a, d1. auto.
Qed.

Lemma grepGtfsFile_reads_only (tripId fileName : string) (headers : list string) :
  reads_only (grepGtfsFile tripId fileName headers).
Proof. intros d. unfold grepGtfsFile. destruct (read_file fileName d); reflexivity. Qed.

(** *** What the calls do to the disk *)

Lemma reads_only_ret {A} (a : A) : reads_only (ret a).
Proof. intros d. reflexivity. Qed.

Lemma reads_only_fail {A} (f : failure) : reads_only (@fail A f).
Proof. intros d. reflexivity. Qed.

Lemma reads_only_mbind {A B} (m : M A) (k : A -> M B) :
  reads_only m -> (forall a, reads_only (k a)) -> reads_only (mbind m k).
Proof.
  intros Hm Hk d. unfold mbind. specialize (Hm d).
  destruct (m d) as [[a|f] d1]; simpl in Hm; subst d1; [apply Hk | reflexivity].
Qed.

Lemma getGtfsHeaders_reads_only (fileName : string) : reads_only (getGtfsHeaders fileName).
Proof. intros d. unfold getGtfsHeaders. destruct (read_file fileName d); reflexivity. Qed.

Lemma read_csv_reads_only (name : string) : reads_only (read_csv name).
Proof.
  intros d. unfold read_csv. destruct (read_file name d) as [lines|]; [|reflexivity].
  destruct (csv_parse lines); reflexivity.
Qed.

Lemma createIndex_reads_only (name : string) (map : gmap string Row) (key : string)
    (tpr : option (JsMap (list value))) :
  reads_only (createIndex name map key tpr).
Proof.
  intros d. unfold createIndex. destruct (read_file name d); [|reflexivity].
  apply (reads_only_mbind (read_csv name)); [apply read_csv_reads_only|].
  intros rows. apply reads_only_ret.
Qed.

Lemma processStopTimes_reads_only (name : string) (map : gmap string (list Row))
    (fst : option (gmap string Row)) :
  reads_only (processStopTimes name map fst).
Proof.
  unfold processStopTimes. apply reads_only_mbind; [apply read_csv_reads_only|].
  intros rows. apply reads_only_ret.
Qed.

Lemma processCalendarDates_reads_only (name : string) (map : JsMap Row) :
  reads_only (processCalendarDates name map).
Proof.
  unfold processCalendarDates. apply reads_only_mbind; [apply read_csv_reads_only|].
  intros rows. apply reads_only_ret.
Qed.

Lemma grepStopTimes_reads_only (trips headers : list string)
    (index : gmap string (list Row)) :
  reads_only (grepStopTimes trips headers index).
Proof.
  revert index. induction trips as [|trip rest IH]; intros index; cbn [grepStopTimes].
  - apply reads_only_ret.
  - apply reads_only_mbind; [apply grepGtfsFile_reads_only | intros rows; apply IH].
Qed.

Lemma grepTrips_reads_only (trips headers : list string) (index : gmap string Row) :
  reads_only (grepTrips trips headers index).
Proof.
  revert index. induction trips as [|trip rest IH]; intros index; cbn [grepTrips].
  - apply reads_only_ret.
  - apply reads_only_mbind; [apply grepGtfsFile_reads_only | intros rows; apply IH].
Qed.

Lemma scoped_build_reads_only (ts headers : list string)
    (tripsByRoute : option (JsMap (list value))) (firstStops : option (gmap string Row)) :
  reads_only
    (tripsHeaders <- getGtfsHeaders "trips.txt" ;;
     tp <- grepTrips ts tripsHeaders ∅ ;;
     stp <- grepStopTimes ts headers ∅ ;;
     ret (tp, tripsByRoute, stp, firstStops)).
Proof.
  apply reads_only_mbind; [apply getGtfsHeaders_reads_only | intros tripsHeaders].
  apply reads_only_mbind; [apply grepTrips_reads_only | intros tp].
  apply reads_only_mbind; [apply grepStopTimes_reads_only | intros stp].
  apply reads_only_ret.
Qed.

(** *** The LevelStore directory is never removed *)

Lemma keeps_ret {A} (a : A) : keeps_store (ret a).
Proof. intros d H. exact H. Qed.


Lemma keeps_mbind {A B} (m : M A) (k : A -> M B) :
  keeps_store m -> (forall a, keeps_store (k a)) -> keeps_store (mbind m k).
Proof.
  intros Hm Hk d H. unfold mbind. specialize (Hm d H).
  destruct (m d) as [[a|f] d']; simpl in *; [apply Hk; exact Hm | exact Hm].
Qed.

Lemma keeps_cleanUp : keeps_store cleanUp.
Proof. intros d H. exact H. Qed.


Lemma keeps_read_csv (name : string) : keeps_store (read_csv name).
Proof.
  intros d H. unfold read_csv.
  destruct (read_file name d) as [lines|]; [|exact H].
  destruct (csv_parse lines); exact H.
Qed.

Lemma keeps_createIndex (name : string) (map : gmap string Row) (key : string)
    (tpr : option (JsMap (list value))) :
  keeps_store (createIndex name map key tpr).
Proof.
  intros d H. unfold createIndex.
  destruct (read_file name d); [|exact H].
  apply (keeps_mbind (read_csv name)); [apply keeps_read_csv | intros rows; apply keeps_ret | exact H].
Qed.

Lemma keeps_sortStopTimes (ti ss : nat) : keeps_store (sortStopTimes ti ss).
Proof. intros d H. unfold sortStopTimes. destruct (auxPath d); exact H. Qed.

Lemma keeps_processStopTimes (name : string) (map : gmap string (list Row))
    (fst : option (gmap string Row)) :
  keeps_store (processStopTimes name map fst).
Proof.
  unfold processStopTimes.
  apply keeps_mbind; [apply keeps_read_csv | intros rows; apply keeps_ret].
Qed.

Lemma keeps_processCalendarDates (name : string) (map : JsMap Row) :
  keeps_store (processCalendarDates name map).
Proof.
  unfold processCalendarDates.
  apply keeps_mbind; [apply keeps_read_csv | intros rows; apply keeps_ret].
Qed.




Lemma keeps_full_build (headers : list string) (tripsByRoute : option (JsMap (list value)))
    (firstStops : option (gmap string Row)) :
  keeps_store (full_build headers tripsByRoute firstStops).
Proof.
  unfold full_build.
  apply keeps_mbind; [apply keeps_createIndex | intros tp].
  apply keeps_mbind; [apply keeps_sortStopTimes | intros _].
  apply keeps_mbind; [apply keeps_processStopTimes | intros stp; apply keeps_ret].
Qed.




(** C2, the code at a failing input. The feed has the trips T1 and T10.
    The full build stores the two rows of T1 under T1.  The scoped
    extraction of T1 searches [stop_times.txt] for the text T1, which the
    rows of T10 contain as well, and stores all four rows under T1, ordered
    by sequence number. *)
Theorem C2_scoped_extraction_takes_rows_of_other_trips :
  exists full scoped d1 d2,
    getIndexes (Extracted feed_files) "MemStore" None false empty_disk = (Resolved full, d1)
    /\ getIndexes (Extracted feed_files) "MemStore" (Some ["T1"]) false empty_disk
       = (Resolved scoped, d2)
    /\ GtfsIndex.stop_times full !! "T1" = Some [T1_A; T1_B]
    /\ GtfsIndex.stop_times scoped !! "T1" = Some [T1_A; T10_C; T1_B; T10_D]
    /\ GtfsIndex.stop_times full !! "T1" <> GtfsIndex.stop_times scoped !! "T1".
Proof.
  eexists _, _, _, _.
  split; [vm_compute; reflexivity|].
  split; [vm_compute; reflexivity|].
  split; [vm_compute; reflexivity|].
  split; [vm_compute; reflexivity|].
  vm_compute. discriminate.
Qed.

(** *** Sorting keeps the lines *)

Lemma insert_sorted_perm {A} (le : A -> A -> bool) (x : A) (l : list A) :
  Permutation (insert_sorted le x l) (x :: l).
Proof.
  induction l as [|y l IH]; [reflexivity|].
  simpl. destruct (le x y); [reflexivity|].
  rewrite IH. apply perm_swap.
Qed.

Lemma insertion_sort_perm {A} (le : A -> A -> bool) (l : list A) :
  Permutation (insertion_sort le l) l.
Proof.
  induction l as [|x l IH]; [reflexivity|].
  unfold insertion_sort in *. cbn [foldr]. rewrite insert_sorted_perm, IH. reflexivity.
Qed.

(** *** Files that are missing or do not parse *)






















(* ===================================================================== *)
(** ** Further properties of the converter *)
(* ===================================================================== *)

(** Every connection built in the loop has the type and the direction the
    loop was entered with. *)
Lemma build_connection_type (this : t) (id type : string) (start : Date) (direction : value)
    (st next : Row) (s : walk_state) (c : linked_connection) :
  build_connection this id type start direction st next s = Ok c ->
  lc_type c = type /\ lc_direction c = direction.
Proof.
  unfold build_connection. intros H.
  destruct (split_time (obj_get "departure_time" st)) as [dparts|]; [simpl in H|discriminate].
  destruct (split_time (obj_get "departure_time" next)) as [aparts|]; [simpl in H|discriminate].
  destruct (uris this id start _) as [u|]; [simpl in H|discriminate].
  destruct (toISOString (combine start dparts _)) as [dep|]; [simpl in H|discriminate].
  destruct (toISOString (combine start aparts _)) as [arr|]; [simpl in H|discriminate].
  injection H as <-. simpl. auto.
Qed.

(** What holds of every connection a turn can build holds of every
    connection the loop pushes. *)
Lemma walk_pushes_ind (this : t) (id type : string) (start : Date) (direction : value)
    (updates : list StopTimeUpdate) (P : linked_connection -> Prop) :
  (forall st next s c,
      build_connection this id type start direction st next s = Ok c -> P c) ->
  forall sts s c,
    In (Push c) (fst (walk this id type start direction updates sts s)) -> P c.
Proof.
  intros Hbuild sts. induction sts as [|st sts IH]; intros s c Hin.
  - destruct Hin.
  - destruct sts as [|next rest]; [destruct Hin|].
    destruct (updates !! update_index s) as [update|] eqn:Hu.
    + rewrite (walk_cons _ _ _ _ _ _ _ _ _ _ _ Hu) in Hin. cbn [fst] in Hin.
      apply in_app_or in Hin as [Hin|Hin]; [|exact (IH _ _ Hin)].
      destruct (hop_cases this id type start direction updates st next update s)
        as [(c' & s2 & _ & Hb & Hh)|[err Hh]]; rewrite Hh in Hin.
      * destruct Hin as [[= ->]|[]]. exact (Hbuild _ _ _ _ Hb).
      * exfalso. exact (in_catch_no_push _ _ _ Hin).
    + rewrite walk_unfold, Hu in Hin. destruct Hin.
Qed.

(** X1. Every connection pushed for a trip update is a cancelled
    connection exactly when the entity is deleted or the schedule
    relationship of its trip is 3, whatever the delays, and its direction
    is the headsign of the trip in the static index. *)
Theorem X1_connection_type_follows_entity
    (this : t) (entity : FeedEntity) (tu : TripUpdate) (c : linked_connection) :
  trip_update entity = Some tu ->
  In (Push c) (fst (parse_entity this entity)) ->
  lc_type c = (if is_deleted entity || (schedule_relationship (trip tu) =? 3)
               then "CanceledConnection" else "Connection")
  /\ exists trip_row,
       trips this !! trip_id (trip tu) = Some trip_row
       /\ lc_direction c = obj_get "trip_headsign" trip_row.
Proof.
  intros Htu Hin. unfold parse_entity in Hin. rewrite Htu in Hin.
  destruct (tripStartTime (trip tu)) as [start|err]; [|destruct Hin].
  destruct (trips this !! trip_id (trip tu)) as [trip_row|] eqn:Htrip.
  - destruct (stop_times this !! trip_id (trip tu)) as [sts|]; [|destruct Hin].
    cbn [fst] in Hin. unfold walk_trip in Hin.
    apply (walk_pushes_ind _ _ _ _ _ _
             (fun c => lc_type c = getConnectionType entity
                       /\ lc_direction c = obj_get "trip_headsign" trip_row)) in Hin.
    + destruct Hin as [Ht Hd]. split; [|exists trip_row; auto].
      rewrite Ht. unfold getConnectionType. rewrite Htu. reflexivity.
    + intros st next s c'. apply build_connection_type.
  - destruct Hin as [Hin|[]]. discriminate.
Qed.

(** The theorem on a deleted entity. *)
Lemma X1_witness :
  trip_update deleted_update = Some (trip_update_of "T1" [departs "B" 120])
  /\ In (Push T1_B_to_C_cancelled) (fst (parse_entity converter deleted_update))
  /\ lc_type T1_B_to_C_cancelled = "CanceledConnection".
Proof.
  assert (H1 : trip_update deleted_update = Some (trip_update_of "T1" [departs "B" 120]))
    by reflexivity.
  assert (H2 : In (Push T1_B_to_C_cancelled) (fst (parse_entity converter deleted_update))).
  { vm_compute. right. right. left. reflexivity. }
  split; [exact H1|]. split; [exact H2|].
  exact (proj1 (X1_connection_type_follows_entity converter deleted_update _ _ H1 H2)).
Defined.

(** X2. A feed entity that is not a trip update leaves no trace: the run
    pushes and logs what it would without that entity. *)
Theorem X2_other_entities_are_ignored
    (this : t) (feed1 feed2 : list FeedEntity) (entity : FeedEntity) :
  trip_update entity = None ->
  parse this (feed1 ++ entity :: feed2) = parse this (feed1 ++ feed2).
Proof.
  intros Hnone.
  assert (Hpe : parse_entity this entity = ([], None))
    by (unfold parse_entity; rewrite Hnone; reflexivity).
  unfold parse.
  rewrite first_rejection_skip by (rewrite Hpe; reflexivity).
  rewrite !map_app, !concat_app. cbn [map concat]. rewrite Hpe. reflexivity.
Qed.

(** The theorem on an entity that carries no trip update, between two that
    do. *)
Lemma X2_witness :
  trip_update {| is_deleted := false; trip_update := None |} = None
  /\ parse converter ([update_of "T1" [departs "B" 120]]
                        ++ {| is_deleted := false; trip_update := None |}
                           :: [update_of "T2" [calls "A" 0 0]])
     = parse converter ([update_of "T1" [departs "B" 120]] ++ [update_of "T2" [calls "A" 0 0]]).
Proof.
  split; [reflexivity|].
  exact (X2_other_entities_are_ignored converter
           [update_of "T1" [departs "B" 120]] [update_of "T2" [calls "A" 0 0]]
           {| is_deleted := false; trip_update := None |} eq_refl).
Defined.

(** *** Strings *)

Lemma append_nil (b : string) : "" +:+ b = b.
Proof. reflexivity. Qed.

Lemma append_cons (c : ascii) (a b : string) : String c a +:+ b = String c (a +:+ b).
Proof. reflexivity. Qed.

Lemma split_not_nil (sep : ascii) (s : string) : split sep s <> [].
Proof.
  destruct s as [|c s]; simpl; [discriminate|].
  destruct (Ascii.eqb c sep); [discriminate|].
  destruct (split sep s); discriminate.
Qed.

(** A string without the separator is its own single part, and splitting
    goes through an appended separator. *)
Lemma split_app_sep (sep : ascii) (a b : string) :
  split sep a = [a] -> split sep (a +:+ String sep b) = a :: split sep b.
Proof.
  induction a as [|c a IH]; intros Ha.
  - rewrite append_nil. simpl. rewrite Ascii.eqb_refl. reflexivity.
  - rewrite append_cons. simpl in *.
    destruct (Ascii.eqb c sep).
    + destruct (split sep a); discriminate.
    + destruct (split sep a) as [|x xs] eqn:Hs.
      * exfalso. exact (split_not_nil sep a Hs).
      * injection Ha as Hx Hxs. subst. rewrite IH; reflexivity.
Qed.

Lemma split_app_sep_last (sep : ascii) (a b : string) :
  split sep a = [a] -> split sep b = [b] -> split sep (a +:+ String sep b) = [a; b].
Proof. intros Ha Hb. rewrite split_app_sep by exact Ha. rewrite Hb. reflexivity. Qed.

(** [parseInt] returns an integer or [NaN]. *)
Lemma digits_to_number_integer (sign : Z) (s : string) :
  digits_to_number sign s = NaN \/ exists z, digits_to_number sign s = Num z.
Proof. unfold digits_to_number. destruct (digits_to_Z s); eauto. Qed.

Lemma radix_to_number_integer (radix sign : Z) (s : string) :
  radix_to_number radix sign s = NaN \/ exists z, radix_to_number radix sign s = Num z.
Proof.
  unfold radix_to_number. destruct s; [auto|].
  destruct (radix_value radix 0 _); eauto.
Qed.

Lemma parseInt_integer (s : string) :
  parseInt s = NaN \/ exists z, parseInt s = Num z.
Proof.
  unfold parseInt.
  destruct (match trimStart s with
            | String c r =>
                if Ascii.eqb c "+" then (1, r)
                else if Ascii.eqb c "-" then (-1, r) else (1, trimStart s)
            | EmptyString => (1, trimStart s)
            end) as [sign t].
  destruct t as [|c [|c' r]]; try apply digits_to_number_integer.
  destruct (Ascii.eqb c "0" && (Ascii.eqb c' "x" || Ascii.eqb c' "X"));
    [apply radix_to_number_integer | apply digits_to_number_integer].
Qed.

Lemma nth_parseInt_integer (i : nat) (parts : list string) :
  nth i (map parseInt parts) NaN = NaN \/ exists z, nth i (map parseInt parts) NaN = Num z.
Proof.
  revert i. induction parts as [|p parts IH]; intros i.
  - destruct i; auto.
  - destruct i as [|i]; [apply parseInt_integer | apply IH].
Qed.

(** X3. A duration string of two parts, hours and minutes, parses to those
    hours and minutes with 0 seconds, the same as with a third part 00; and
    whatever the string, the seconds of the parsed duration are a number,
    never [NaN]. *)
Theorem X3_duration_without_seconds (h m : string) :
  split ":" h = [h] ->
  split ":" m = [m] ->
  parseGTFSDuration (h +:+ String ":" m)
    = {| hours := parseInt h; minutes := parseInt m; seconds := Num 0 |}
  /\ parseGTFSDuration (h +:+ String ":" (m +:+ String ":" "00"))
     = parseGTFSDuration (h +:+ String ":" m)
  /\ (forall s, exists z, seconds (parseGTFSDuration s) = Num z).
Proof.
  intros Hh Hm.
  assert (H2 : parseGTFSDuration (h +:+ String ":" m)
               = {| hours := parseInt h; minutes := parseInt m; seconds := Num 0 |}).
  { unfold parseGTFSDuration. rewrite (split_app_sep_last _ _ _ Hh Hm). reflexivity. }
  split; [exact H2|]. split.
  - rewrite H2. unfold parseGTFSDuration.
    rewrite (split_app_sep _ _ _ Hh), (split_app_sep_last _ m "00" Hm eq_refl). reflexivity.
  - intros s. unfold parseGTFSDuration. cbn [seconds].
    destruct (nth_parseInt_integer 2 (split ":" s)) as [->|[z ->]]; [exists 0; reflexivity|].
    cbn [ToBoolean]. destruct (z =? 0); [exists 0|exists z]; reflexivity.
Qed.

(** The theorem on 12:00. *)
Lemma X3_witness :
  split ":" "12" = ["12"]
  /\ split ":" "00" = ["00"]
  /\ parseGTFSDuration "12:00" = {| hours := Num 12; minutes := Num 0; seconds := Num 0 |}
  /\ parseGTFSDuration "12:00:00" = parseGTFSDuration "12:00".
Proof.
  split; [reflexivity|]. split; [reflexivity|].
  exact (conj (proj1 (X3_duration_without_seconds "12" "00" eq_refl eq_refl))
              (proj1 (proj2 (X3_duration_without_seconds "12" "00" eq_refl eq_refl)))).
Defined.

(** *** An invalid trip start *)

Lemma pushes_nil (evs : list event) :
  (forall c, ~ In (Push c) evs) -> pushes evs = [].
Proof.
  induction evs as [|e evs IH]; intros H; [reflexivity|].
  destruct e as [c|l].
  - exfalso. apply (H c). left. reflexivity.
  - unfold pushes in *. cbn [omap]. apply IH. intros c Hc. apply (H c). right. exact Hc.
Qed.

Lemma build_connection_invalid_start (this : t) (id type : string) (direction : value)
    (st next : Row) (s : walk_state) (c : linked_connection) :
  build_connection this id type None direction st next s <> Ok c.
Proof.
  unfold build_connection. intros H.
  destruct (split_time (obj_get "departure_time" st)) as [dparts|]; [simpl in H|discriminate].
  destruct (split_time (obj_get "departure_time" next)) as [aparts|]; [simpl in H|discriminate].
  destruct (uris this id None _) as [u|]; [simpl in H|discriminate].
  discriminate.
Qed.

(** X4. A start time without a colon has no minutes: the trip start is an
    Invalid Date, every turn of the loop throws, and no connection is
    pushed for the trip update. *)
Theorem X4_start_time_without_minutes_pushes_nothing
    (this : t) (entity : FeedEntity) (tu : TripUpdate) (date time : string) :
  trip_update entity = Some tu ->
  start_date (trip tu) = Some date ->
  start_time (trip tu) = Some time ->
  split ":" time = [time] ->
  tripStartTime (trip tu) = Ok None
  /\ pushes (fst (parse_entity this entity)) = [].
Proof.
  intros Htu Hdate Htime Hsplit.
  assert (Hstart : tripStartTime (trip tu) = Ok None).
  { rewrite (tripStartTime_set _ _ _ Hdate Htime). f_equal.
    unfold addDuration, parseGTFSDuration. cbn [hours minutes seconds].
    rewrite Hsplit. cbn [map nth].
    unfold addSeconds, addMinutes. cbn [scale toInteger].
    destruct (addHours _ _); reflexivity. }
  split; [exact Hstart|].
  apply pushes_nil. intros c Hin.
  unfold parse_entity in Hin. rewrite Htu, Hstart in Hin.
  destruct (trips this !! trip_id (trip tu)) as [trip_row|].
  - destruct (stop_times this !! trip_id (trip tu)) as [sts|]; [|destruct Hin].
    cbn [fst] in Hin. unfold walk_trip in Hin.
    apply (walk_pushes_ind _ _ _ _ _ _ (fun _ => False)) in Hin; [exact Hin|].
    intros st next s c' Hb. exact (build_connection_invalid_start _ _ _ _ _ _ _ _ Hb).
  - destruct Hin as [Hin|[]]. discriminate.
Qed.

(** The theorem on a trip update of T1 that starts at 0800. *)
Lemma X4_witness :
  trip_update {| is_deleted := false; trip_update := Some update_without_minutes |}
  = Some update_without_minutes
  /\ start_date (trip update_without_minutes) = Some "20200101"
  /\ start_time (trip update_without_minutes) = Some "0800"
  /\ split ":" "0800" = ["0800"]
  /\ pushes (fst (parse_entity converter
                    {| is_deleted := false; trip_update := Some update_without_minutes |})) = [].
Proof.
  split; [reflexivity|]. split; [reflexivity|]. split; [reflexivity|]. split; [reflexivity|].
  exact (proj2 (X4_start_time_without_minutes_pushes_nothing converter
                  {| is_deleted := false; trip_update := Some update_without_minutes |}
                  update_without_minutes "20200101" "0800" eq_refl eq_refl eq_refl eq_refl)).
Defined.

(** X5. Over the loop the update index never goes back, never passes the
    end of the updates unless it started there, and moves by at most one
    per pair of consecutive stops. *)
Theorem X5_update_index_bounds
    (this : t) (id type : string) (start : Date) (direction : value)
    (updates : list StopTimeUpdate) (sts : list Row) (s : walk_state) :
  (update_index s
     <= update_index (snd (walk this id type start direction updates sts s)))%nat
  /\ (update_index (snd (walk this id type start direction updates sts s))
        <= Nat.max (update_index s) (length updates))%nat
  /\ (update_index (snd (walk this id type start direction updates sts s))
        <= update_index s + (length sts - 1))%nat.
Proof.
  revert s. induction sts as [|st sts IH]; intros s; [simpl; lia|].
  destruct sts as [|next rest]; [simpl; lia|].
  destruct (updates !! update_index s) as [update|] eqn:Hu.
  - rewrite (walk_cons _ _ _ _ _ _ _ _ _ _ _ Hu). cbn [snd].
    specialize (IH (snd (hop this id type start direction updates st next update s))).
    pose proof (hop_index this id type start direction updates st next update s) as Hi.
    apply lookup_lt_Some in Hu.
    destruct (strict_eq (obj_get "stop_id" st) (Str (stop_id update)));
      rewrite Hi in IH; simpl length in *; lia.
  - rewrite walk_unfold, Hu. simpl. lia.
Qed.

(** *** The seconds of a stop time and the delay *)

Lemma list_ascii_of_string_app (a b : string) :
  list_ascii_of_string (a +:+ b) = list_ascii_of_string a ++ list_ascii_of_string b.
Proof.
  induction a as [|c a IH]; [reflexivity|].
  rewrite append_cons. simpl. rewrite IH. reflexivity.
Qed.

Lemma string_of_list_ascii_app (l1 l2 : list ascii) :
  string_of_list_ascii (l1 ++ l2) = string_of_list_ascii l1 +:+ string_of_list_ascii l2.
Proof.
  induction l1 as [|c l1 IH]; [reflexivity|].
  simpl. rewrite IH. reflexivity.
Qed.

Lemma reverse_string_app (a b : string) :
  reverse_string (a +:+ b) = reverse_string b +:+ reverse_string a.
Proof.
  unfold reverse_string.
  rewrite list_ascii_of_string_app, rev_app_distr. apply string_of_list_ascii_app.
Qed.

Lemma reverse_string_involutive (s : string) : reverse_string (reverse_string s) = s.
Proof.
  unfold reverse_string.
  rewrite list_ascii_of_string_of_list_ascii, rev_involutive.
  apply string_of_list_ascii_of_string.
Qed.

Lemma reverse_string_cons (c : ascii) (s : string) :
  reverse_string (String c s) = reverse_string s +:+ String c "".
Proof. change (String c s) with (String c "" +:+ s). apply reverse_string_app. Qed.

Lemma digit_not_white_space (c : ascii) : is_digit c = true -> is_white_space c = false.
Proof.
  unfold is_digit, is_white_space. cbv zeta.
  destruct (Nat.leb_spec 48 (nat_of_ascii c)); [|discriminate]. intros _.
  destruct (Nat.leb_spec 9 (nat_of_ascii c)), (Nat.leb_spec (nat_of_ascii c) 13),
    (Nat.eqb_spec (nat_of_ascii c) 32); simpl; try reflexivity; lia.
Qed.

Lemma trimStart_app_stop (a b : string) (c : ascii) :
  is_white_space c = false ->
  trimStart (a +:+ String c b) = trimStart a +:+ String c b.
Proof.
  intros Hc. induction a as [|x a IH].
  - rewrite append_nil. simpl. rewrite Hc. reflexivity.
  - rewrite append_cons. simpl. destruct (is_white_space x); [exact IH | reflexivity].
Qed.

Lemma append_assoc (a b c : string) : (a +:+ b) +:+ c = a +:+ (b +:+ c).
Proof.
  induction a as [|x a IH]; [reflexivity|].
  rewrite !append_cons, IH. reflexivity.
Qed.

Lemma trimStart_cons_stop (c : ascii) (s : string) :
  is_white_space c = false -> trimStart (String c s) = String c s.
Proof. intros H. simpl. rewrite H. reflexivity. Qed.

(** Trimming a string that begins with a digit and holds a minus sign
    keeps everything up to that sign. *)
Lemma trim_keeps_minus (c0 : ascii) (sec r : string) :
  is_digit c0 = true ->
  exists r', trim (String c0 (sec +:+ String "-" r)) = String c0 (sec +:+ String "-" r').
Proof.
  intros Hd. apply digit_not_white_space in Hd.
  exists (reverse_string (trimStart (reverse_string r))).
  unfold trim. rewrite (trimStart_cons_stop _ _ Hd).
  rewrite <- append_cons.
  rewrite reverse_string_app, (reverse_string_cons "-" r), append_assoc.
  rewrite append_cons, append_nil.
  rewrite trimStart_app_stop by reflexivity.
  rewrite reverse_string_app, (reverse_string_cons "-"), reverse_string_involutive.
  rewrite append_assoc. reflexivity.
Qed.

Lemma append_empty_r (a : string) : a +:+ "" = a.
Proof. induction a as [|c a IH]; [reflexivity|]. rewrite append_cons, IH. reflexivity. Qed.

Lemma take_digits_app (a : string) (c : ascii) (r : string) :
  all_digits a = true -> is_digit c = false -> take_digits (a +:+ String c r) = a.
Proof.
  intros Ha Hc. induction a as [|x a IH].
  - rewrite append_nil. simpl. rewrite Hc. reflexivity.
  - simpl in Ha. apply andb_prop in Ha as [Hx Ha].
    rewrite append_cons. simpl. rewrite Hx, (IH Ha). reflexivity.
Qed.

Lemma drop_digits_app (a : string) (c : ascii) (r : string) :
  all_digits a = true -> is_digit c = false -> drop_digits (a +:+ String c r) = String c r.
Proof.
  intros Ha Hc. induction a as [|x a IH].
  - rewrite append_nil. simpl. rewrite Hc. reflexivity.
  - simpl in Ha. apply andb_prop in Ha as [Hx Ha].
    rewrite append_cons. simpl. rewrite Hx. exact (IH Ha).
Qed.

Lemma take_digits_all (a : string) : all_digits a = true -> take_digits a = a.
Proof.
  induction a as [|x a IH]; [reflexivity|]. simpl. intros Ha.
  apply andb_prop in Ha as [Hx Ha]. rewrite Hx, (IH Ha). reflexivity.
Qed.

Lemma drop_digits_all (a : string) : all_digits a = true -> drop_digits a = "".
Proof.
  induction a as [|x a IH]; [reflexivity|]. simpl. intros Ha.
  apply andb_prop in Ha as [Hx Ha]. rewrite Hx. exact (IH Ha).
Qed.

Lemma all_digits_no_white_space (a : string) :
  all_digits a = true ->
  Forall (fun c => is_white_space c = false) (list_ascii_of_string a).
Proof.
  induction a as [|x a IH]; [constructor|]. simpl. intros Ha.
  apply andb_prop in Ha as [Hx Ha]. constructor; [apply digit_not_white_space, Hx | exact (IH Ha)].
Qed.

(** A digit is none of the characters that open a literal in another
    way. *)
Lemma digit_is_plain (c : ascii) :
  is_digit c = true ->
  Ascii.eqb c "+" = false /\ Ascii.eqb c "-" = false /\ Ascii.eqb c "." = false
  /\ Ascii.eqb c "I" = false /\ radix_of_prefix c = None.
Proof.
  destruct c as [[] [] [] [] [] [] [] []]; intros H; try discriminate H;
    repeat split; reflexivity.
Qed.

Lemma unsigned_decimal_digits_minus (c : ascii) (a r : string) :
  is_digit c = true -> all_digits a = true ->
  unsigned_decimal (String c (a +:+ String "-" r)) = None.
Proof.
  intros Hc Ha. unfold unsigned_decimal.
  destruct (digit_is_plain c Hc) as (_ & _ & _ & HI & _).
  assert (Heq : String.eqb (String c (a +:+ String "-" r)) "Infinity" = false).
  { simpl. rewrite HI. reflexivity. }
  rewrite Heq.
  change (String c (a +:+ String "-" r)) with (String c a +:+ String "-" r).
  assert (Hall : all_digits (String c a) = true) by (simpl; rewrite Hc, Ha; reflexivity).
  rewrite (take_digits_app _ "-" r Hall eq_refl), (drop_digits_app _ "-" r Hall eq_refl).
  cbn [Ascii.eqb Bool.eqb andb]. rewrite append_empty_r.
  cbn [exponent_part Ascii.eqb Bool.eqb andb orb].
  destruct (NilEmpty.uint_of_string (String c a)); reflexivity.
Qed.

Lemma numeric_literal_digits_minus (c : ascii) (a r : string) :
  is_digit c = true -> all_digits a = true ->
  numeric_literal (String c (a +:+ String "-" r)) = None.
Proof.
  intros Hc Ha. unfold numeric_literal.
  destruct (digit_is_plain c Hc) as (Hplus & Hminus & _ & _ & _).
  rewrite Hplus, Hminus.
  destruct a as [|c' a].
  - rewrite append_nil. cbn [radix_of_prefix Ascii.eqb Bool.eqb andb orb].
    destruct (Ascii.eqb c "0"); apply (unsigned_decimal_digits_minus c "" r Hc eq_refl).
  - rewrite append_cons. simpl in Ha. apply andb_prop in Ha as [Hc' Ha].
    destruct (digit_is_plain c' Hc') as (_ & _ & _ & _ & Hr). rewrite Hr.
    destruct (Ascii.eqb c "0");
      apply (unsigned_decimal_digits_minus c (String c' a) r Hc);
      simpl; rewrite Hc', Ha; reflexivity.
Qed.

Lemma StringToNumber_digits_minus (sec r : string) :
  sec <> "" -> all_digits sec = true ->
  StringToNumber (sec +:+ String "-" r) = NaN.
Proof.
  intros Hne Hall. destruct sec as [|c0 sec]; [contradiction|].
  simpl in Hall. apply andb_prop in Hall as [Hc Ha].
  rewrite append_cons.
  destruct (trim_keeps_minus c0 sec r Hc) as [r' Ht].
  unfold StringToNumber. rewrite Ht.
  rewrite (numeric_literal_digits_minus c0 sec r' Hc Ha). reflexivity.
Qed.

Lemma NumberToString_negative (d : Z) :
  d < 0 -> exists r, NumberToString (Num d) = String "-" r.
Proof.
  intros Hd. destruct d as [|p|p]; try lia.
  unfold NumberToString. destruct (Z.abs (Z.neg p) <? 10 ^ 21); [eexists; reflexivity|].
  destruct (strip_zeros _ _ _) as [s j]. eexists. reflexivity.
Qed.

(** With a seconds part made of digits and a negative delay, the date is
    invalid. *)
Lemma combine_negative_delay (date : Date) (parts : list string) (sec : string) (d : Z) :
  parts !! 2%nat = Some sec ->
  sec <> "" ->
  all_digits sec = true ->
  d < 0 ->
  combine date parts d = None.
Proof.
  intros Hp Hne Hall Hneg. unfold combine, part. rewrite Hp.
  destruct (NumberToString_negative d Hneg) as [r Hr].
  cbn [add ToString ToNumber]. rewrite Hr.
  rewrite (StringToNumber_digits_minus sec r Hne Hall).
  unfold new_Date. cbn [truncate].
  destruct (truncate (getFullYear date)), (truncate (getMonth date)),
    (truncate (getDate date)),
    (truncate (ToNumber match parts !! 0%nat with Some p => Str p | None => Undefined end)),
    (truncate (ToNumber match parts !! 1%nat with Some p => Str p | None => Undefined end));
    reflexivity.
Qed.

(** X6. A delay below zero loses the hop: when the running departure delay
    is negative and the departure time of the departure stop has a seconds
    part made of digits, or the running arrival delay is negative and the
    departure time of the arrival stop has such a seconds part, the seconds
    and the delay are joined into a text that is no number, the date is
    invalid, and building the connection throws. *)
Theorem X6_negative_delay_loses_the_hop
    (this : t) (id type : string) (start : Date) (direction : value)
    (st next : Row) (s : walk_state) :
  (exists time sec,
      obj_get "departure_time" st = Str time
      /\ split ":" time !! 2%nat = Some sec
      /\ sec <> ""
      /\ all_digits sec = true
      /\ departureDelay s < 0)
  \/ (exists time sec,
      obj_get "departure_time" next = Str time
      /\ split ":" time !! 2%nat = Some sec
      /\ sec <> ""
      /\ all_digits sec = true
      /\ arrivalDelay s < 0) ->
  exists err, build_connection this id type start direction st next s = Throw err.
Proof.
  intros H. unfold build_connection.
  destruct (split_time (obj_get "departure_time" st)) as [dparts|err] eqn:Hds;
    [|eexists; reflexivity].
  cbn [bind].
  destruct (split_time (obj_get "departure_time" next)) as [aparts|err] eqn:Has;
    [|eexists; reflexivity].
  cbn [bind].
  destruct (uris this id start _) as [u|err]; [|eexists; reflexivity].
  cbn [bind].
  destruct H as [(time & sec & Ht & Hp & Hne & Hd & Hneg)|(time & sec & Ht & Hp & Hne & Hd & Hneg)].
  - rewrite Ht in Hds. injection Hds as <-.
    rewrite (combine_negative_delay start _ sec _ Hp Hne Hd Hneg).
    eexists. reflexivity.
  - rewrite Ht in Has. injection Has as <-.
    rewrite (combine_negative_delay start _ sec _ Hp Hne Hd Hneg).
    destruct (toISOString (combine start dparts (departureDelay s))); eexists; reflexivity.
Qed.

(** The theorem on the hop of T1 from A to B with a departure one minute
    early. *)
Lemma X6_witness :
  ((exists time sec,
       obj_get "departure_time" (nth 0 T1_stop_times []) = Str time
       /\ split ":" time !! 2%nat = Some sec
       /\ sec <> ""
       /\ all_digits sec = true
       /\ departureDelay {| update_index := 1; departureDelay := -60; arrivalDelay := 0 |} < 0)
   \/ (exists time sec,
       obj_get "departure_time" (nth 1 T1_stop_times []) = Str time
       /\ split ":" time !! 2%nat = Some sec
       /\ sec <> ""
       /\ all_digits sec = true
       /\ arrivalDelay {| update_index := 1; departureDelay := -60; arrivalDelay := 0 |} < 0))
  /\ exists err,
       build_connection converter "T1" "Connection" (Some midnight) (Str "North")
         (nth 0 T1_stop_times []) (nth 1 T1_stop_times [])
         {| update_index := 1; departureDelay := -60; arrivalDelay := 0 |} = Throw err.
Proof.
  assert (H1 : (exists time sec,
       obj_get "departure_time" (nth 0 T1_stop_times []) = Str time
       /\ split ":" time !! 2%nat = Some sec
       /\ sec <> ""
       /\ all_digits sec = true
       /\ departureDelay {| update_index := 1; departureDelay := -60; arrivalDelay := 0 |} < 0)
   \/ (exists time sec,
       obj_get "departure_time" (nth 1 T1_stop_times []) = Str time
       /\ split ":" time !! 2%nat = Some sec
       /\ sec <> ""
       /\ all_digits sec = true
       /\ arrivalDelay {| update_index := 1; departureDelay := -60; arrivalDelay := 0 |} < 0)).
  { left. exists "08:00:00", "00".
    split; [reflexivity|]. split; [reflexivity|]. split; [discriminate|].
    split; [reflexivity|]. simpl. lia. }
  split; [exact H1|].
  exact (X6_negative_delay_loses_the_hop converter "T1" "Connection" (Some midnight)
           (Str "North") _ _ _ H1).
Defined.

Lemma string_of_uint_no_white_space (u : uint) :
  Forall (fun c => is_white_space c = false)
         (list_ascii_of_string (NilEmpty.string_of_uint u)).
Proof. induction u; simpl; constructor; auto. Qed.

Lemma trimStart_no_white_space (s : string) :
  Forall (fun c => is_white_space c = false) (list_ascii_of_string s) -> trimStart s = s.
Proof.
  destruct s as [|c s]; [reflexivity|]. simpl. intros H.
  inversion H as [|? ? Hc _]; subst. rewrite Hc. reflexivity.
Qed.

Lemma trim_no_white_space (s : string) :
  Forall (fun c => is_white_space c = false) (list_ascii_of_string s) -> trim s = s.
Proof.
  intros H. unfold trim. rewrite (trimStart_no_white_space s H).
  rewrite trimStart_no_white_space; [apply reverse_string_involutive|].
  unfold reverse_string. rewrite list_ascii_of_string_of_list_ascii.
  apply Forall_rev. exact H.
Qed.

Lemma string_of_uint_all_digits (u : uint) :
  all_digits (NilEmpty.string_of_uint u) = true.
Proof. induction u; simpl; auto. Qed.

Lemma all_digits_cons (c : ascii) (r : string) :
  all_digits (String c r) = is_digit c && all_digits r.
Proof. reflexivity. Qed.

Lemma string_of_uint_zero_all_digits (u : uint) :
  all_digits (NilZero.string_of_uint u) = true.
Proof. destruct u; try reflexivity; apply (string_of_uint_all_digits (_ u)). Qed.

Lemma digits_of_pos (p : positive) :
  digits_of (Z.pos p) = NilEmpty.string_of_uint (Pos.to_uint p).
Proof.
  unfold digits_of. cbn [Z.abs_N N.to_uint]. unfold NilZero.string_of_uint.
  destruct (Pos.to_uint p) eqn:Hu; try reflexivity.
  exfalso. exact (DecimalPos.Unsigned.to_uint_nonnil p Hu).
Qed.

Lemma string_of_pos_cons (p : positive) :
  exists c rest, NilEmpty.string_of_uint (Pos.to_uint p) = String c rest
                 /\ is_digit c = true /\ all_digits rest = true.
Proof.
  pose proof (string_of_uint_all_digits (Pos.to_uint p)) as Hall.
  destruct (NilEmpty.string_of_uint (Pos.to_uint p)) as [|c rest] eqn:Hs.
  - exfalso. destruct (Pos.to_uint p) eqn:Hu; try discriminate Hs.
    exact (DecimalPos.Unsigned.to_uint_nonnil p Hu).
  - simpl in Hall. apply andb_prop in Hall as [Hc Hrest]. exists c, rest. auto.
Qed.

Lemma of_uint_00_pos (p : positive) :
  Z.of_uint (D0 (D0 (Pos.to_uint p))) = Z.pos p.
Proof. unfold Z.of_uint. cbn [Pos.of_uint]. rewrite DecimalPos.Unsigned.of_to. reflexivity. Qed.

Lemma digits_to_Z_of_nonneg (k : Z) :
  0 <= k -> digits_to_Z (NilZero.string_of_uint (N.to_uint (Z.abs_N k))) = Some k.
Proof.
  intros Hk. destruct k as [|r|r]; [reflexivity| |lia].
  change (NilZero.string_of_uint (N.to_uint (Z.abs_N (Z.pos r)))) with (digits_of (Z.pos r)).
  rewrite digits_of_pos.
  destruct (string_of_pos_cons r) as (c & rest & Hs & _).
  unfold digits_to_Z. rewrite Hs, <- Hs, NilEmpty.usu. cbn [option_map].
  unfold Z.of_uint. rewrite DecimalPos.Unsigned.of_to. reflexivity.
Qed.

Lemma exponent_part_start (c : ascii) (r : string) (e : Z) :
  exponent_part (String c r) = Some e -> is_digit c = false /\ Ascii.eqb c "." = false.
Proof.
  unfold exponent_part.
  destruct (Ascii.eqb_spec c "e") as [->|_]; [intros _; split; reflexivity|].
  destruct (Ascii.eqb_spec c "E") as [->|_]; [intros _; split; reflexivity|].
  discriminate.
Qed.

Lemma take_drop_digits_stop (a rest : string) (e : Z) :
  all_digits a = true -> exponent_part rest = Some e ->
  take_digits (a +:+ rest) = a /\ drop_digits (a +:+ rest) = rest.
Proof.
  intros Ha He. destruct rest as [|c r].
  - rewrite append_empty_r. split; [apply take_digits_all | apply drop_digits_all]; exact Ha.
  - destruct (exponent_part_start c r e He) as [Hc _].
    split; [apply take_digits_app | apply drop_digits_app]; assumption.
Qed.

(** A literal with a fraction: digits, a point, digits, perhaps an
    exponent. *)
Lemma unsigned_decimal_fraction (c : ascii) (int frac rest : string) (u : uint) (e : Z) :
  is_digit c = true -> all_digits int = true -> all_digits frac = true ->
  NilEmpty.uint_of_string (String c (int +:+ frac)) = Some u ->
  exponent_part rest = Some e ->
  unsigned_decimal (String c (int +:+ String "." (frac +:+ rest)))
  = Some (decimal (Z.of_uint u) (e - Z.of_nat (String.length frac))).
Proof.
  intros Hc Hint Hfrac Hu He. unfold unsigned_decimal.
  destruct (digit_is_plain c Hc) as (_ & _ & _ & HI & _).
  assert (Heq : String.eqb (String c (int +:+ String "." (frac +:+ rest))) "Infinity" = false).
  { simpl. rewrite HI. reflexivity. }
  rewrite Heq.
  change (String c (int +:+ String "." (frac +:+ rest)))
    with (String c int +:+ String "." (frac +:+ rest)).
  assert (Hall : all_digits (String c int) = true) by (simpl; rewrite Hc, Hint; reflexivity).
  rewrite (take_digits_app _ "." _ Hall eq_refl), (drop_digits_app _ "." _ Hall eq_refl).
  cbn [Ascii.eqb Bool.eqb andb].
  destruct (take_drop_digits_stop frac rest e Hfrac He) as [-> ->].
  rewrite append_cons, Hu, He. reflexivity.
Qed.

(** A literal without a fraction: digits, perhaps an exponent. *)
Lemma unsigned_decimal_integer (c : ascii) (int rest : string) (u : uint) (e : Z) :
  is_digit c = true -> all_digits int = true ->
  NilEmpty.uint_of_string (String c int) = Some u ->
  exponent_part rest = Some e ->
  unsigned_decimal (String c (int +:+ rest)) = Some (decimal (Z.of_uint u) e).
Proof.
  intros Hc Hint Hu He. unfold unsigned_decimal.
  destruct (digit_is_plain c Hc) as (_ & _ & _ & HI & _).
  assert (Heq : String.eqb (String c (int +:+ rest)) "Infinity" = false).
  { simpl. rewrite HI. reflexivity. }
  rewrite Heq.
  change (String c (int +:+ rest)) with (String c int +:+ rest).
  assert (Hall : all_digits (String c int) = true) by (simpl; rewrite Hc, Hint; reflexivity).
  destruct (take_drop_digits_stop (String c int) rest e Hall He) as [-> ->].
  destruct rest as [|x r].
  - rewrite append_empty_r, Hu, He. cbn [String.length Z.of_nat].
    rewrite Z.sub_0_r. reflexivity.
  - destruct (exponent_part_start x r e He) as [_ Hp]. rewrite Hp.
    rewrite append_empty_r, Hu, He. cbn [String.length Z.of_nat].
    rewrite Z.sub_0_r. reflexivity.
Qed.

Lemma no_white_space_cons (c : ascii) (s : string) :
  is_white_space c = false ->
  Forall (fun c => is_white_space c = false) (list_ascii_of_string s) ->
  Forall (fun c => is_white_space c = false) (list_ascii_of_string (String c s)).
Proof. intros Hc Hs. constructor; assumption. Qed.

Lemma no_white_space_app (a b : string) :
  Forall (fun c => is_white_space c = false) (list_ascii_of_string a) ->
  Forall (fun c => is_white_space c = false) (list_ascii_of_string b) ->
  Forall (fun c => is_white_space c = false) (list_ascii_of_string (a +:+ b)).
Proof. intros Ha Hb. rewrite list_ascii_of_string_app. apply Forall_app. auto. Qed.

Lemma unsigned_decimal_digits (c : ascii) (int : string) (u : uint) :
  is_digit c = true -> all_digits int = true ->
  NilEmpty.uint_of_string (String c int) = Some u ->
  unsigned_decimal (String c int) = Some (decimal (Z.of_uint u) 0).
Proof.
  intros Hc Hint Hu.
  pose proof (unsigned_decimal_integer c int "" u 0 Hc Hint Hu eq_refl) as H.
  rewrite append_empty_r in H. exact H.
Qed.

Lemma strip_zeros_spec (fuel : nat) (z j0 s j : Z) :
  0 < z -> strip_zeros fuel z j0 = (s, j) ->
  0 < s /\ j0 <= j /\ s * 10 ^ (j - j0) = z.
Proof.
  revert z j0. induction fuel as [|fuel IH]; intros z j0 Hz H; simpl in H.
  - injection H as <- <-. rewrite Z.sub_diag. lia.
  - destruct (Z.eqb_spec (z mod 10) 0) as [Hm|Hm].
    + pose proof (Z.div_mod z 10 ltac:(lia)) as Hdm.
      destruct (IH (z / 10) (j0 + 1) ltac:(lia) H) as (Hs & Hj & Hv).
      split; [exact Hs|]. split; [lia|].
      replace (j - j0) with (Z.succ (j - (j0 + 1))) by lia.
      rewrite Z.pow_succ_r by lia. lia.
    + injection H as <- <-. rewrite Z.sub_diag. lia.
Qed.

Lemma seconds_00_plus_delay (d : Z) :
  0 <= d -> ToNumber (add (Str "00") (Number (Num d))) = Num d.
Proof.
  intros Hd. destruct d as [|p|p]; [reflexivity| |lia].
  cbn [add ToString ToNumber]. unfold StringToNumber, NumberToString.
  destruct (Z.abs (Z.pos p) <? 10 ^ 21).
  - cbn [Z.to_int NilZero.string_of_int]. fold (digits_of (Z.pos p)).
    change (NilZero.string_of_uint (Pos.to_uint p)) with (digits_of (Z.pos p)).
    rewrite digits_of_pos.
    rewrite trim_no_white_space
      by (repeat constructor; apply all_digits_no_white_space, string_of_uint_all_digits).
    destruct (string_of_pos_cons p) as (c & rest & Hs & Hc & Hrest).
    change ("00" +:+ NilEmpty.string_of_uint (Pos.to_uint p))
      with (String "0" (String "0" (NilEmpty.string_of_uint (Pos.to_uint p)))).
    cbn [numeric_literal Ascii.eqb Bool.eqb andb orb radix_of_prefix].
    rewrite (unsigned_decimal_digits "0" _ (D0 (D0 (Pos.to_uint p))) eq_refl).
    + rewrite of_uint_00_pos. unfold decimal. cbn [Z.leb Z.compare Z.pow Z.pow_pos].
      rewrite Z.mul_1_r. reflexivity.
    + cbn [all_digits is_digit]. apply string_of_uint_all_digits.
    + cbn [NilEmpty.uint_of_string]. rewrite NilEmpty.usu. reflexivity.
  - destruct (strip_zeros _ _ _) as [s j] eqn:Hstrip.
    apply strip_zeros_spec in Hstrip as (Hs & Hj & Hv); [|lia].
    rewrite Z.sub_0_r in Hv. cbn [Z.abs] in Hv.
    destruct s as [|q|q]; try lia.
    rewrite digits_of_pos.
    destruct (string_of_pos_cons q) as (c & rest & Hq & Hc & Hrest).
    rewrite Hq. cbn [Z.ltb Z.compare with_sign].
    unfold exponent_form.
    assert (Hn : 0 <= Z.of_nat (String.length (String c rest)) + j - 1)
      by (cbn [String.length]; lia).
    rewrite (proj2 (Z.leb_le _ _) Hn).
    pose proof (digits_to_Z_of_nonneg _ Hn) as HE.
    set (E := NilZero.string_of_uint
                (N.to_uint (Z.abs_N (Z.of_nat (String.length (String c rest)) + j - 1)))) in *.
    assert (Hexp : exponent_part (String "e" (String "+" E))
                   = Some (Z.of_nat (String.length (String c rest)) + j - 1)) by exact HE.
    assert (Hu : NilEmpty.uint_of_string (String "0" (String "0" (String c rest)))
                 = Some (D0 (D0 (Pos.to_uint q)))).
    { rewrite <- Hq. cbn [NilEmpty.uint_of_string]. rewrite NilEmpty.usu. reflexivity. }
    destruct rest as [|c' rest'].
    + change ("00" +:+ (String c "" +:+ String "e" (String "+" E)))
        with (String "0" (String "0" (String c (String "e" (String "+" E))))).
      rewrite trim_no_white_space.
      2:{ repeat (apply no_white_space_cons;
                  [reflexivity || (apply digit_not_white_space; exact Hc)|]).
          apply all_digits_no_white_space, string_of_uint_zero_all_digits. }
      cbn [numeric_literal Ascii.eqb Bool.eqb andb orb radix_of_prefix].
      assert (Hint : all_digits (String "0" (String c "")) = true)
        by (rewrite !all_digits_cons, Hc; reflexivity).
      pose proof (unsigned_decimal_integer "0" (String "0" (String c ""))
                    (String "e" (String "+" E)) _ _ eq_refl Hint Hu Hexp) as Hlit.
      rewrite !append_cons, append_nil in Hlit. rewrite Hlit.
      rewrite of_uint_00_pos. unfold decimal. cbn [String.length] in *.
      replace (Z.of_nat 1 + j - 1) with j by lia.
      rewrite (proj2 (Z.leb_le _ _) Hj). rewrite Hv. reflexivity.
    + change ("00" +:+ (String c (String "." (String c' rest')) +:+ String "e" (String "+" E)))
        with (String "0" (String "0" (String c (String "."
                (String c' (rest' +:+ String "e" (String "+" E))))))).
      rewrite all_digits_cons in Hrest. apply andb_prop in Hrest as [Hc' Hrest'].
      rewrite trim_no_white_space.
      2:{ repeat (apply no_white_space_cons;
                  [reflexivity || (apply digit_not_white_space; assumption)|]).
          apply no_white_space_app; [apply all_digits_no_white_space; exact Hrest'|].
          repeat (apply no_white_space_cons; [reflexivity|]).
          apply all_digits_no_white_space, string_of_uint_zero_all_digits. }
      cbn [numeric_literal Ascii.eqb Bool.eqb andb orb radix_of_prefix].
      assert (Hint : all_digits (String "0" (String c "")) = true)
        by (rewrite !all_digits_cons, Hc; reflexivity).
      assert (Hfrac : all_digits (String c' rest') = true)
        by (rewrite all_digits_cons, Hc', Hrest'; reflexivity).
      pose proof (unsigned_decimal_fraction "0" (String "0" (String c "")) (String c' rest')
                    (String "e" (String "+" E)) (D0 (D0 (Pos.to_uint q)))
                    (Z.of_nat (String.length (String c (String c' rest'))) + j - 1) eq_refl
                    Hint Hfrac Hu Hexp) as Hlit.
      rewrite !append_cons, append_nil in Hlit. rewrite Hlit.
      rewrite of_uint_00_pos. unfold decimal. cbn [String.length] in *.
      replace (Z.of_nat (S (S (String.length rest'))) + j - 1
               - Z.of_nat (S (String.length rest'))) with j by lia.
      rewrite (proj2 (Z.leb_le _ _) Hj). rewrite Hv. reflexivity.
Qed.

(** X7. With a seconds part 00 and a delay that is not negative, joining
    the two gives the delay itself: the date is built from the hours and
    minutes of the stop time and the delay as its seconds, that is, the
    scheduled time plus the delay. *)
Theorem X7_zero_seconds_take_the_delay (date : Date) (h m : string) (d : Z) :
  0 <= d ->
  combine date [h; m; "00"] d
  = new_Date (getFullYear date) (getMonth date) (getDate date)
             (StringToNumber h) (StringToNumber m) (Num d) (Num 0).
Proof.
  intros Hd. unfold combine. cbn [part lookup list_lookup].
  rewrite (seconds_00_plus_delay d Hd). reflexivity.
Qed.

(** The theorem on 08:10:00 with a delay of 120 seconds. *)
Lemma X7_witness :
  0 <= 120
  /\ combine (Some midnight) ["08"; "10"; "00"] 120
     = Some (midnight + (8 * 3600 + 10 * 60 + 120) * 1000).
Proof.
  assert (H1 : 0 <= 120) by lia.
  split; [exact H1|].
  exact (X7_zero_seconds_take_the_delay (Some midnight) "08" "10" 120 H1).
Defined.

(* ===================================================================== *)
(** ** Further properties of the index build *)
(* ===================================================================== *)

Lemma read_csv_parsed (name : string) (d : disk) (lines : list string) (rows : list Row) :
  read_file name d = Some lines ->
  csv_parse lines = Ok rows ->
  read_csv name d = (Resolved rows, d).
Proof. intros Hf Hp. unfold read_csv. rewrite Hf, Hp. reflexivity. Qed.

Lemma createIndex_parsed (name : string) (map : gmap string Row) (key : string)
    (tpr : option (JsMap (list value))) (d : disk) (lines : list string) (rows : list Row) :
  read_file name d = Some lines ->
  csv_parse lines = Ok rows ->
  createIndex name map key tpr d
  = (Resolved (fold_left (createIndex_row key (endsWith "trips.txt" name)) rows (map, tpr)), d).
Proof.
  intros Hf Hp. unfold createIndex. rewrite Hf.
  rewrite (mbind_resolved _ _ _ _ _ (read_csv_parsed _ _ _ _ Hf Hp)). reflexivity.
Qed.

Lemma truthy_string (k : string) : ToBoolean (Str k) = true <-> k <> "".
Proof.
  simpl. destruct (String.eqb_spec k ""); simpl; split; congruence.
Qed.

(** The index after one row: the row is filed under its key when that key
    is a non-empty string. *)
Lemma createIndex_row_fst (key : string) (is_trips : bool)
    (acc : gmap string Row * option (JsMap (list value))) (data : Row) :
  fst (createIndex_row key is_trips acc data) =
    match obj_get key data with
    | Str k => if ToBoolean (Str k) then <[k := data]> (fst acc) else fst acc
    | _ => fst acc
    end.
Proof.
  unfold createIndex_row. destruct acc as [map tpr].
  destruct (obj_get key data) as [|k|n]; try reflexivity.
  destruct (ToBoolean (Str k)); reflexivity.
Qed.

Lemma createIndex_fold_lookup (key : string) (is_trips : bool) (k : string)
    (rows : list Row) (acc : gmap string Row * option (JsMap (list value))) :
  k <> "" ->
  fst (fold_left (createIndex_row key is_trips) rows acc) !! k =
    match last_row_with key k rows with
    | Some r => Some r
    | None => fst acc !! k
    end.
Proof.
  intros Hk. revert acc. induction rows as [|data rows IH]; intros acc; [reflexivity|].
  cbn [fold_left]. rewrite IH. unfold last_row_with. cbn [List.filter].
  rewrite createIndex_row_fst.
  destruct (obj_get key data) as [|k'|n] eqn:Hget; cbn [strict_eq].
  - reflexivity.
  - destruct (String.eqb_spec k' k) as [->|Hne].
    + rewrite (proj2 (truthy_string k) Hk).
      destruct (List.filter _ rows) as [|r rs] eqn:Hf.
      * cbn [last]. apply lookup_insert_eq.
      * change (last (data :: r :: rs)) with (last (r :: rs)).
        destruct (last (r :: rs)) eqn:Hl; [reflexivity|].
        apply last_None in Hl. discriminate.
    + destruct (last (List.filter _ rows)); [reflexivity|].
      destruct (ToBoolean (Str k')); [|reflexivity].
      apply lookup_insert_ne. exact Hne.
  - reflexivity.
Qed.

Lemma createIndex_fold_empty_key (key : string) (is_trips : bool)
    (rows : list Row) (acc : gmap string Row * option (JsMap (list value))) :
  fst (fold_left (createIndex_row key is_trips) rows acc) !! "" = fst acc !! "".
Proof.
  revert acc. induction rows as [|data rows IH]; intros acc; [reflexivity|].
  cbn [fold_left]. rewrite IH, createIndex_row_fst.
  destruct (obj_get key data) as [|k'|n]; try reflexivity.
  destruct (ToBoolean (Str k')) eqn:Ht; [|reflexivity].
  apply lookup_insert_ne. apply truthy_string in Ht. exact Ht.
Qed.

(** X8. In an index built by [createIndex] from a file that parses, the
    row found under a non-empty key is the last row of the file with that
    key; a key no row has keeps what the map held before; a row with an
    empty key is not filed; and the disk is not touched. *)
Theorem X8_createIndex_last_row_wins
    (name : string) (map : gmap string Row) (key : string)
    (tpr : option (JsMap (list value))) (d : disk) (lines : list string) (rows : list Row) :
  read_file name d = Some lines ->
  csv_parse lines = Ok rows ->
  exists map' tpr',
    createIndex name map key tpr d = (Resolved (map', tpr'), d)
    /\ (forall k, k <> "" ->
          map' !! k = match last_row_with key k rows with
                      | Some r => Some r
                      | None => map !! k
                      end)
    /\ map' !! "" = map !! "".
Proof.
  intros Hf Hp.
  exists (fst (fold_left (createIndex_row key (endsWith "trips.txt" name)) rows (map, tpr))).
  exists (snd (fold_left (createIndex_row key (endsWith "trips.txt" name)) rows (map, tpr))).
  split; [|split].
  - rewrite (createIndex_parsed _ _ _ _ _ _ _ Hf Hp).
    destruct (fold_left _ rows (map, tpr)); reflexivity.
  - intros k Hk. apply (createIndex_fold_lookup key _ k rows (map, tpr) Hk).
  - apply (createIndex_fold_empty_key key _ rows (map, tpr)).
Qed.

(** The theorem on [trips.txt] of the example feed. *)
Lemma X8_witness :
  read_file "trips.txt" extracted_disk
  = Some ["route_id,trip_id,trip_headsign"; "R1,T1,North"; "R1,T10,South"]
  /\ csv_parse ["route_id,trip_id,trip_headsign"; "R1,T1,North"; "R1,T10,South"]
     = Ok parsed_trips
  /\ exists map' tpr',
       createIndex "trips.txt" ∅ "trip_id" None extracted_disk
       = (Resolved (map', tpr'), extracted_disk)
       /\ map' !! "" = (∅ : gmap string Row) !! "".
Proof.
  assert (H1 : read_file "trips.txt" extracted_disk
               = Some ["route_id,trip_id,trip_headsign"; "R1,T1,North"; "R1,T10,South"])
    by reflexivity.
  assert (H2 : csv_parse ["route_id,trip_id,trip_headsign"; "R1,T1,North"; "R1,T10,South"]
               = Ok parsed_trips) by reflexivity.
  split; [exact H1|]. split; [exact H2|].
  destruct (X8_createIndex_last_row_wins "trips.txt" ∅ "trip_id" None extracted_disk _ _ H1 H2)
    as (map' & tpr' & Hc & _ & He).
  exists map', tpr'. split; [exact Hc | exact He].
Defined.

(** *** Trips grouped by route *)

Lemma same_key_eq (a b : value) : same_key a b = true <-> a = b.
Proof.
  destruct a as [|s|[|x|m e|neg]], b as [|s'|[|y|m' e'|neg']]; simpl; split;
    try congruence; try discriminate.
  - intros H. apply String.eqb_eq in H. congruence.
  - intros [= ->]. apply String.eqb_refl.
  - intros H. apply Z.eqb_eq in H. congruence.
  - intros [= ->]. apply Z.eqb_refl.
  - intros H. apply andb_prop in H as [Hm He].
    apply Z.eqb_eq in Hm. apply Pos.eqb_eq in He. congruence.
  - intros [= -> ->]. rewrite Z.eqb_refl, Pos.eqb_refl. reflexivity.
  - intros H. apply Bool.eqb_prop in H. congruence.
  - intros [= ->]. apply Bool.eqb_reflx.
Qed.

Lemma same_key_neq (a b : value) : same_key a b = false <-> a <> b.
Proof.
  destruct (same_key a b) eqn:E.
  - apply same_key_eq in E. split; [discriminate | contradiction].
  - split; [|reflexivity]. intros _ Hab. apply same_key_eq in Hab. congruence.
Qed.

(** Reading a key after writing one. *)
Lemma map_get_set {V} (k k0 : value) (v : V) (m : JsMap V) :
  map_get k (map_set k0 v m) = if same_key k k0 then Some v else map_get k m.
Proof.
  induction m as [|[k' v'] m IH]; [reflexivity|].
  cbn [map_set]. destruct (same_key k0 k') eqn:E0.
  - apply same_key_eq in E0. subst k'. cbn [map_get].
    destruct (same_key k k0); reflexivity.
  - cbn [map_get]. rewrite IH.
    destruct (same_key k k') eqn:E1; [|reflexivity].
    apply same_key_eq in E1. subst k'.
    apply same_key_neq in E0.
    destruct (same_key k k0) eqn:E2; [|reflexivity].
    apply same_key_eq in E2. congruence.
Qed.

(** A field of a row is a string or [undefined]. *)
Lemma obj_get_cases (k : string) (r : Row) :
  obj_get k r = Undefined \/ exists s, obj_get k r = Str s.
Proof. unfold obj_get. destruct (obj_field k r) as [s|]; [right; exists s|left]; reflexivity. Qed.

Lemma createIndex_row_trips (acc_map : gmap string Row) (t : JsMap (list value)) (data : Row) :
  snd (createIndex_row "trip_id" true (acc_map, Some t) data) =
    if ToBoolean (obj_get "trip_id" data)
    then Some (map_set (obj_get "route_id" data)
                       (default [] (map_get (obj_get "route_id" data) t)
                          ++ [obj_get "trip_id" data]) t)
    else Some t.
Proof.
  unfold createIndex_row.
  destruct (obj_get_cases "trip_id" data) as [Hk|[k Hk]]; rewrite Hk.
  - reflexivity.
  - destruct (ToBoolean (Str k)); [|reflexivity].
    cbn [snd]. destruct (map_get (obj_get "route_id" data) t); reflexivity.
Qed.

Lemma trips_of_route_cons (route : value) (data : Row) (rows : list Row) :
  trips_of_route route (data :: rows) =
    if ToBoolean (obj_get "trip_id" data) && same_key route (obj_get "route_id" data)
    then obj_get "trip_id" data :: trips_of_route route rows
    else trips_of_route route rows.
Proof.
  unfold trips_of_route, rows_with_key. cbn [List.filter].
  destruct (ToBoolean (obj_get "trip_id" data)); [|reflexivity].
  cbn [List.filter andb]. destruct (same_key route (obj_get "route_id" data)); reflexivity.
Qed.

Lemma createIndex_fold_trips (rows : list Row) (acc_map : gmap string Row)
    (t : JsMap (list value)) :
  exists t',
    snd (fold_left (createIndex_row "trip_id" true) rows (acc_map, Some t)) = Some t'
    /\ forall route,
         map_get route t' =
           match trips_of_route route rows with
           | [] => map_get route t
           | ids => Some (default [] (map_get route t) ++ ids)
           end.
Proof.
  revert acc_map t. induction rows as [|data rows IH]; intros acc_map t.
  - exists t. split; reflexivity.
  - cbn [fold_left].
    pose proof (createIndex_row_trips acc_map t data) as Hrow.
    destruct (createIndex_row "trip_id" true (acc_map, Some t) data) as [m1 tpr1].
    cbn [snd] in Hrow. subst tpr1.
    destruct (ToBoolean (obj_get "trip_id" data)) eqn:Htruthy.
    + destruct (IH m1 (map_set (obj_get "route_id" data)
                         (default [] (map_get (obj_get "route_id" data) t)
                            ++ [obj_get "trip_id" data]) t)) as (t' & Ht' & Hget).
      exists t'. split; [exact Ht'|]. intros route.
      rewrite Hget, map_get_set, trips_of_route_cons, Htruthy. cbn [andb].
      destruct (same_key route (obj_get "route_id" data)) eqn:E.
      * apply same_key_eq in E. subst route. simpl default.
        destruct (trips_of_route (obj_get "route_id" data) rows) as [|i ids].
        -- reflexivity.
        -- rewrite <- app_assoc. reflexivity.
      * reflexivity.
    + destruct (IH m1 t) as (t' & Ht' & Hget).
      exists t'. split; [exact Ht'|]. intros route.
      rewrite Hget, trips_of_route_cons, Htruthy. reflexivity.
Qed.

(** X9. With the index of trips by route requested, [createIndex] on
    [trips.txt] files under every route the ids of its trips, in the order
    of the file; a route without trips has no entry. *)
Theorem X9_trips_grouped_by_route
    (map : gmap string Row) (d : disk) (lines : list string) (rows : list Row) :
  read_file "trips.txt" d = Some lines ->
  csv_parse lines = Ok rows ->
  exists map' tripsByRoute',
    createIndex "trips.txt" map "trip_id" (Some []) d
    = (Resolved (map', Some tripsByRoute'), d)
    /\ forall route,
         map_get route tripsByRoute' =
           match trips_of_route route rows with
           | [] => None
           | ids => Some ids
           end.
Proof.
  intros Hf Hp. rewrite (createIndex_parsed _ _ _ _ _ _ _ Hf Hp).
  change (endsWith "trips.txt" "trips.txt") with true.
  destruct (createIndex_fold_trips rows map []) as (t' & Ht' & Hget).
  exists (fst (fold_left (createIndex_row "trip_id" true) rows (map, Some []))), t'.
  split; [rewrite <- Ht'; rewrite <- surjective_pairing; reflexivity|].
  intros route. rewrite Hget. cbn [map_get default app].
  destruct (trips_of_route route rows); reflexivity.
Qed.

(** The theorem on [trips.txt] of the example feed: route R1 has the trips
    T1 and T10. *)
Lemma X9_witness :
  read_file "trips.txt" extracted_disk
  = Some ["route_id,trip_id,trip_headsign"; "R1,T1,North"; "R1,T10,South"]
  /\ csv_parse ["route_id,trip_id,trip_headsign"; "R1,T1,North"; "R1,T10,South"]
     = Ok parsed_trips
  /\ exists map' tripsByRoute',
       createIndex "trips.txt" ∅ "trip_id" (Some []) extracted_disk
       = (Resolved (map', Some tripsByRoute'), extracted_disk)
       /\ map_get (Str "R1") tripsByRoute' = Some [Str "T1"; Str "T10"].
Proof.
  assert (H1 : read_file "trips.txt" extracted_disk
               = Some ["route_id,trip_id,trip_headsign"; "R1,T1,North"; "R1,T10,South"])
    by reflexivity.
  assert (H2 : csv_parse ["route_id,trip_id,trip_headsign"; "R1,T1,North"; "R1,T10,South"]
               = Ok parsed_trips) by reflexivity.
  split; [exact H1|]. split; [exact H2|].
  destruct (X9_trips_grouped_by_route ∅ extracted_disk _ _ H1 H2)
    as (map' & tbr & Hc & Hget).
  exists map', tbr. split; [exact Hc | exact (Hget (Str "R1"))].
Defined.

(** *** The scan of the sorted stop times *)

Abbreviation scan_rows := (fold_left processStopTimes_row).

Lemma truthy_field (key : string) (r : Row) :
  ToBoolean (obj_get key r) = true -> exists k, obj_get key r = Str k /\ k <> "".
Proof.
  destruct (obj_get_cases key r) as [H|[k H]]; rewrite H; [discriminate|].
  intros Ht. exists k. split; [reflexivity | apply truthy_string; exact Ht].
Qed.

Lemma processStopTimes_row_skip (s : scan) (data : Row) :
  ToBoolean (obj_get "trip_id" data) = false -> processStopTimes_row s data = s.
Proof.
  unfold processStopTimes_row.
  destruct (obj_get_cases "trip_id" data) as [H|[k H]]; rewrite H; [reflexivity|].
  intros ->. reflexivity.
Qed.

(** A row with a trip id goes on the current list when the id is the
    current one or there is none yet; otherwise the current list is stored
    under the current id and a new list starts. *)
Lemma processStopTimes_row_step (s : scan) (data : Row) (t : string) :
  obj_get "trip_id" data = Str t ->
  t <> "" ->
  currentTripId (processStopTimes_row s data) = Some t
  /\ match currentTripId s with
     | Some cur =>
         if String.eqb t cur
         then currentTrip (processStopTimes_row s data) = currentTrip s ++ [data]
              /\ scan_map (processStopTimes_row s data) = scan_map s
         else currentTrip (processStopTimes_row s data) = [data]
              /\ scan_map (processStopTimes_row s data) = <[cur := currentTrip s]> (scan_map s)
     | None =>
         currentTrip (processStopTimes_row s data) = currentTrip s ++ [data]
         /\ scan_map (processStopTimes_row s data) = scan_map s
     end.
Proof.
  intros Hid Ht. unfold processStopTimes_row. rewrite Hid.
  rewrite (proj2 (truthy_string t) Ht).
  destruct (currentTripId s) as [cur|]; [destruct (String.eqb t cur)|]; simpl; auto.
Qed.

Lemma scan_rows_filter (rows : list Row) (s : scan) :
  scan_rows rows s = scan_rows (rows_with_key "trip_id" rows) s.
Proof.
  revert s. induction rows as [|data rows IH]; intros s; [reflexivity|].
  unfold rows_with_key. cbn [fold_left List.filter].
  destruct (ToBoolean (obj_get "trip_id" data)) eqn:Ht.
  - cbn [fold_left]. apply IH.
  - rewrite (processStopTimes_row_skip s data Ht). apply IH.
Qed.

(** Rows of the current trip are appended to the current list. *)
Lemma scan_rows_block (t : string) (block : list Row) (s : scan) :
  t <> "" ->
  currentTripId s = Some t ->
  (forall r, In r block -> obj_get "trip_id" r = Str t) ->
  currentTripId (scan_rows block s) = Some t
  /\ currentTrip (scan_rows block s) = currentTrip s ++ block
  /\ scan_map (scan_rows block s) = scan_map s.
Proof.
  intros Ht. revert s. induction block as [|data block IH]; intros s Hcur Hall.
  - cbn [fold_left]. rewrite app_nil_r. auto.
  - cbn [fold_left].
    destruct (processStopTimes_row_step s data t (Hall data (or_introl eq_refl)) Ht)
      as [Hid Hstep].
    rewrite Hcur, String.eqb_refl in Hstep. destruct Hstep as [Htrip Hmap].
    destruct (IH (processStopTimes_row s data) Hid
                 (fun r Hr => Hall r (or_intror Hr))) as (H1 & H2 & H3).
    rewrite H1, H2, H3, Htrip, Hmap, <- app_assoc. auto.
Qed.

(** Rows of other trips leave what is stored under [t] alone. *)
Lemma scan_rows_other (t : string) (rows : list Row) (s : scan) :
  currentTripId s <> Some t ->
  (forall r, In r rows -> obj_get "trip_id" r <> Str t) ->
  currentTripId (scan_rows rows s) <> Some t
  /\ scan_map (scan_rows rows s) !! t = scan_map s !! t.
Proof.
  revert s. induction rows as [|data rows IH]; intros s Hcur Hall; [auto|].
  cbn [fold_left].
  destruct (ToBoolean (obj_get "trip_id" data)) eqn:Htruthy.
  - destruct (truthy_field _ _ Htruthy) as (k & Hk & Hne).
    destruct (processStopTimes_row_step s data k Hk Hne) as [Hid Hstep].
    assert (Hkt : k <> t).
    { intros ->. exact (Hall data (or_introl eq_refl) Hk). }
    destruct (IH (processStopTimes_row s data)) as [H1 H2].
    + rewrite Hid. congruence.
    + intros r Hr. apply Hall. right. exact Hr.
    + split; [exact H1|]. rewrite H2.
      destruct (currentTripId s) as [cur|]; [destruct (String.eqb k cur)|];
        destruct Hstep as [_ ->]; try reflexivity.
      apply lookup_insert_ne. congruence.
  - rewrite (processStopTimes_row_skip s data Htruthy). apply IH; [exact Hcur|].
    intros r Hr. apply Hall. right. exact Hr.
Qed.

(** Before any row with a trip id is read the current list is empty. *)
Lemma scan_rows_fresh (rows : list Row) (s : scan) :
  (currentTripId s = None -> currentTrip s = []) ->
  currentTripId (scan_rows rows s) = None -> currentTrip (scan_rows rows s) = [].
Proof.
  revert s. induction rows as [|data rows IH]; intros s Hinv; [exact Hinv|].
  cbn [fold_left]. apply IH.
  destruct (ToBoolean (obj_get "trip_id" data)) eqn:Htruthy.
  - destruct (truthy_field _ _ Htruthy) as (k & Hk & Hne).
    destruct (processStopTimes_row_step s data k Hk Hne) as [Hid _].
    rewrite Hid. discriminate.
  - rewrite (processStopTimes_row_skip s data Htruthy). exact Hinv.
Qed.

(** After a row with a trip id, that id is the current one. *)
Lemma scan_rows_last (rows : list Row) (s : scan) (r : Row) (k : string) :
  last rows = Some r ->
  obj_get "trip_id" r = Str k ->
  k <> "" ->
  currentTripId (scan_rows rows s) = Some k.
Proof.
  intros Hlast Hk Hne.
  apply last_Some in Hlast as [rows' ->].
  rewrite fold_left_app. cbn [fold_left].
  exact (proj1 (processStopTimes_row_step _ r k Hk Hne)).
Qed.

Lemma rows_with_key_truthy (key : string) (rows : list Row) (r : Row) :
  In r (rows_with_key key rows) -> ToBoolean (obj_get key r) = true.
Proof. unfold rows_with_key. intros H. apply filter_In in H. tauto. Qed.

(** X10. The scan of [processStopTimes] stores under a trip id the last
    run of consecutive rows with that id: if, among the rows that have a
    trip id, a non-empty block of rows of trip [t] comes right after a row
    of another trip, or first, and no row of [t] comes after the block,
    then the list stored for [t] is that block, in the order of the
    file. *)
Theorem X10_scan_stores_last_run
    (name : string) (fst : option (gmap string Row)) (d : disk)
    (lines : list string) (rows pre block post : list Row) (t : string) :
  read_file name d = Some lines ->
  csv_parse lines = Ok rows ->
  rows_with_key "trip_id" rows = pre ++ block ++ post ->
  t <> "" ->
  block <> [] ->
  (forall r, In r block -> obj_get "trip_id" r = Str t) ->
  (forall r, last pre = Some r -> obj_get "trip_id" r <> Str t) ->
  (forall r, In r post -> obj_get "trip_id" r <> Str t) ->
  exists stop_times_index fst',
    processStopTimes name ∅ fst d = (Resolved (stop_times_index, fst'), d)
    /\ stop_times_index !! t = Some block.
Proof.
  intros Hf Hp Hrows Ht Hblock Hall Hpre Hpost.
  unfold processStopTimes.
  rewrite (mbind_resolved _ _ _ _ _ (read_csv_parsed _ _ _ _ Hf Hp)).
  eexists _, _. split; [reflexivity|].
  rewrite scan_rows_filter, Hrows, !fold_left_app.
  set (s0 := {| currentTripId := None; currentTrip := []; scan_map := ∅; scan_fst := fst |}).
  set (s1 := scan_rows pre s0).
  assert (Hcur1 : currentTripId s1 <> Some t).
  { unfold s1. destruct (last pre) as [r|] eqn:Hlast.
    - assert (Hin : In r (rows_with_key "trip_id" rows)).
      { rewrite Hrows. apply in_or_app. left.
        apply last_Some in Hlast as [pre' ->]. apply in_or_app. right. left. reflexivity. }
      destruct (truthy_field _ _ (rows_with_key_truthy _ _ _ Hin)) as (k & Hk & Hne).
      rewrite (scan_rows_last pre s0 r k Hlast Hk Hne).
      intros [= ->]. exact (Hpre r eq_refl Hk).
    - apply last_None in Hlast. subst pre. discriminate. }
  assert (Hfresh1 : currentTripId s1 = None -> currentTrip s1 = []).
  { apply scan_rows_fresh. reflexivity. }
  destruct block as [|r0 block']; [contradiction|].
  cbn [fold_left].
  destruct (processStopTimes_row_step s1 r0 t (Hall r0 (or_introl eq_refl)) Ht)
    as [Hid2 Hstep2].
  set (s2 := processStopTimes_row s1 r0) in *.
  assert (Htrip2 : currentTrip s2 = [r0]).
  { destruct (currentTripId s1) as [cur|] eqn:Hc.
    - destruct (String.eqb_spec t cur) as [->|_]; [contradiction|].
      exact (proj1 Hstep2).
    - rewrite (proj1 Hstep2), (Hfresh1 eq_refl). reflexivity. }
  destruct (scan_rows_block t block' s2 Ht Hid2 (fun r Hr => Hall r (or_intror Hr)))
    as (Hid3 & Htrip3 & _).
  rewrite Htrip2 in Htrip3. cbn [app] in Htrip3.
  set (s3 := scan_rows block' s2) in *.
  destruct post as [|r1 post'].
  - cbn [fold_left]. unfold processStopTimes_flush. rewrite Hid3, Htrip3.
    apply lookup_insert_eq.
  - cbn [fold_left].
    assert (Hin1 : In r1 (rows_with_key "trip_id" rows)).
    { rewrite Hrows. apply in_or_app. right. apply in_or_app. right. left. reflexivity. }
    destruct (truthy_field _ _ (rows_with_key_truthy _ _ _ Hin1)) as (k & Hk & Hne).
    assert (Hkt : k <> t).
    { intros ->. exact (Hpost r1 (or_introl eq_refl) Hk). }
    destruct (processStopTimes_row_step s3 r1 k Hk Hne) as [Hid4 Hstep4].
    rewrite Hid3 in Hstep4.
    destruct (String.eqb_spec k t) as [->|_]; [contradiction|].
    destruct Hstep4 as [_ Hmap4].
    set (s4 := processStopTimes_row s3 r1) in *.
    destruct (scan_rows_other t post' s4) as [Hid5 Hmap5].
    + rewrite Hid4. congruence.
    + intros r Hr. apply Hpost. right. exact Hr.
    + unfold processStopTimes_flush.
      destruct (currentTripId (scan_rows post' s4)) as [cur|] eqn:Hc.
      * rewrite lookup_insert_ne by congruence.
        rewrite Hmap5, Hmap4, Htrip3. apply lookup_insert_eq.
      * rewrite Hmap5, Hmap4, Htrip3. apply lookup_insert_eq.
Qed.

(** The theorem on [stop_times.txt] of the example feed and trip T10. *)
Lemma X10_witness :
  read_file "stop_times.txt" extracted_disk
  = Some ["trip_id,arrival_time,departure_time,stop_id,stop_sequence";
          "T1,08:00:00,08:00:00,A,1"; "T1,08:10:00,08:10:00,B,2";
          "T10,09:00:00,09:00:00,C,1"; "T10,09:10:00,09:10:00,D,2"]
  /\ csv_parse ["trip_id,arrival_time,departure_time,stop_id,stop_sequence";
                "T1,08:00:00,08:00:00,A,1"; "T1,08:10:00,08:10:00,B,2";
                "T10,09:00:00,09:00:00,C,1"; "T10,09:10:00,09:10:00,D,2"]
     = Ok [T1_A; T1_B; T10_C; T10_D]
  /\ rows_with_key "trip_id" [T1_A; T1_B; T10_C; T10_D] = [T1_A; T1_B] ++ [T10_C; T10_D] ++ []
  /\ "T10" <> ""
  /\ [T10_C; T10_D] <> []
  /\ (forall r, In r [T10_C; T10_D] -> obj_get "trip_id" r = Str "T10")
  /\ (forall r, last [T1_A; T1_B] = Some r -> obj_get "trip_id" r <> Str "T10")
  /\ (forall r, In r [] -> obj_get "trip_id" r <> Str "T10")
  /\ exists stop_times_index fst',
       processStopTimes "stop_times.txt" ∅ None extracted_disk
       = (Resolved (stop_times_index, fst'), extracted_disk)
       /\ stop_times_index !! "T10" = Some [T10_C; T10_D].
Proof.
  assert (H1 : read_file "stop_times.txt" extracted_disk
               = Some ["trip_id,arrival_time,departure_time,stop_id,stop_sequence";
                       "T1,08:00:00,08:00:00,A,1"; "T1,08:10:00,08:10:00,B,2";
                       "T10,09:00:00,09:00:00,C,1"; "T10,09:10:00,09:10:00,D,2"])
    by reflexivity.
  assert (H2 : csv_parse ["trip_id,arrival_time,departure_time,stop_id,stop_sequence";
                          "T1,08:00:00,08:00:00,A,1"; "T1,08:10:00,08:10:00,B,2";
                          "T10,09:00:00,09:00:00,C,1"; "T10,09:10:00,09:10:00,D,2"]
               = Ok [T1_A; T1_B; T10_C; T10_D]) by reflexivity.
  assert (H3 : rows_with_key "trip_id" [T1_A; T1_B; T10_C; T10_D]
               = [T1_A; T1_B] ++ [T10_C; T10_D] ++ []) by reflexivity.
  assert (H4 : "T10" <> "") by discriminate.
  assert (H5 : [T10_C; T10_D] <> []) by discriminate.
  assert (H6 : forall r, In r [T10_C; T10_D] -> obj_get "trip_id" r = Str "T10").
  { intros r [<-|[<-|[]]]; reflexivity. }
  assert (H7 : forall r, last [T1_A; T1_B] = Some r -> obj_get "trip_id" r <> Str "T10").
  { intros r [= <-]. discriminate. }
  assert (H8 : forall r, In r [] -> obj_get "trip_id" r <> Str "T10").
  { intros r []. }
  repeat (split; [assumption|]).
  exact (X10_scan_stores_last_run "stop_times.txt" None extracted_disk _ _ _ _ _ "T10"
           H1 H2 H3 H4 H5 H6 H7 H8).
Defined.

(** *** First stops *)

Lemma processStopTimes_row_fst (s : scan) (data : Row) :
  scan_fst (processStopTimes_row s data) =
    match scan_fst s with
    | Some f =>
        match obj_get "trip_id" data with
        | Str k =>
            if ToBoolean (Str k) && strict_eq (obj_get "stop_sequence" data) (Str "1")
            then Some (<[k := data]> f) else Some f
        | _ => Some f
        end
    | None => None
    end.
Proof.
  unfold processStopTimes_row.
  destruct (obj_get_cases "trip_id" data) as [H|[k H]]; rewrite H.
  - destruct (scan_fst s); reflexivity.
  - destruct (ToBoolean (Str k)); [|destruct (scan_fst s); reflexivity].
    destruct (scan_fst s) as [f|];
      destruct (currentTripId s) as [cur|]; try destruct (String.eqb k cur);
      cbn [scan_fst andb]; try reflexivity;
      destruct (strict_eq (obj_get "stop_sequence" data) (Str "1")); reflexivity.
Qed.

Lemma scan_rows_fst (t : string) (rows : list Row) (s : scan) (f0 : gmap string Row) :
  t <> "" ->
  scan_fst s = Some f0 ->
  exists f',
    scan_fst (scan_rows rows s) = Some f'
    /\ f' !! t = match first_stop_row t rows with
                 | Some r => Some r
                 | None => f0 !! t
                 end.
Proof.
  intros Ht. revert s f0. induction rows as [|data rows IH]; intros s f0 Hs.
  - exists f0. split; [exact Hs | reflexivity].
  - cbn [fold_left].
    pose proof (processStopTimes_row_fst s data) as Hrow. rewrite Hs in Hrow.
    unfold first_stop_row. cbn [List.filter].
    destruct (obj_get_cases "trip_id" data) as [Hk|[k Hk]]; rewrite Hk in Hrow |- *.
    + destruct (IH _ f0 Hrow) as (f' & Hf' & Hget). exists f'. split; [exact Hf'|].
      exact Hget.
    + cbn [strict_eq].
      destruct (ToBoolean (Str k) && strict_eq (obj_get "stop_sequence" data) (Str "1"))
        eqn:Hcond.
      * apply andb_true_iff in Hcond as [Htruthy Hseq].
        destruct (IH _ _ Hrow) as (f' & Hf' & Hget). exists f'. split; [exact Hf'|].
        rewrite Hget. unfold first_stop_row. rewrite Hseq, andb_true_r.
        destruct (String.eqb_spec k t) as [->|Hne].
        -- destruct (List.filter _ rows) as [|r rs] eqn:Hfl.
           ++ cbn [last]. apply lookup_insert_eq.
           ++ change (last (data :: r :: rs)) with (last (r :: rs)).
              destruct (last (r :: rs)) eqn:Hl; [reflexivity|].
              apply last_None in Hl. discriminate.
        -- rewrite lookup_insert_ne by exact Hne. reflexivity.
      * destruct (IH _ f0 Hrow) as (f' & Hf' & Hget). exists f'. split; [exact Hf'|].
        rewrite Hget. unfold first_stop_row.
        destruct (String.eqb_spec k t) as [->|Hne]; [|reflexivity].
        rewrite (proj2 (truthy_string t) Ht) in Hcond. cbn [andb] in Hcond.
        rewrite Hcond. reflexivity.
Qed.

(** X11. With the first stops requested, [processStopTimes] files under a
    trip id the last row of that trip whose stop sequence is the text 1.
    A trip none of whose rows has that very sequence, one numbered from 0
    for instance, gets no first stop. *)
Theorem X11_first_stop_is_sequence_one
    (name : string) (map : gmap string (list Row)) (d : disk)
    (lines : list string) (rows : list Row) (t : string) :
  read_file name d = Some lines ->
  csv_parse lines = Ok rows ->
  t <> "" ->
  exists stop_times_index firstStops,
    processStopTimes name map (Some ∅) d
    = (Resolved (stop_times_index, Some firstStops), d)
    /\ firstStops !! t = first_stop_row t rows
    /\ ((forall r, In r rows -> obj_get "trip_id" r = Str t ->
                   obj_get "stop_sequence" r <> Str "1") ->
        firstStops !! t = None).
Proof.
  intros Hf Hp Ht. unfold processStopTimes.
  rewrite (mbind_resolved _ _ _ _ _ (read_csv_parsed _ _ _ _ Hf Hp)).
  set (s0 := {| currentTripId := None; currentTrip := []; scan_map := map;
                scan_fst := Some ∅ |}).
  destruct (scan_rows_fst t rows s0 ∅ Ht eq_refl) as (f' & Hf' & Hget).
  exists (processStopTimes_flush (scan_rows rows s0)), f'.
  assert (Hfirst : f' !! t = first_stop_row t rows).
  { rewrite Hget. destruct (first_stop_row t rows); [reflexivity | apply lookup_empty]. }
  split; [unfold ret; rewrite Hf'; reflexivity|]. split; [exact Hfirst|].
  intros Hnone. rewrite Hfirst. unfold first_stop_row.
  assert (Hnil : List.filter
                   (fun r => strict_eq (obj_get "trip_id" r) (Str t)
                             && strict_eq (obj_get "stop_sequence" r) (Str "1")) rows = []).
  { clear -Hnone. induction rows as [|r rows IH]; [reflexivity|].
    cbn [List.filter].
    destruct (strict_eq (obj_get "trip_id" r) (Str t)
              && strict_eq (obj_get "stop_sequence" r) (Str "1")) eqn:Hc.
    - apply andb_true_iff in Hc as [H1 H2].
      unfold obj_get in *. apply field_strict_eq in H1. apply field_strict_eq in H2.
      exfalso. exact (Hnone r (or_introl eq_refl) H1 H2).
    - apply IH. intros r' Hr'. apply Hnone. right. exact Hr'. }
  rewrite Hnil. reflexivity.
Qed.

(** The theorem on [stop_times.txt] of the example feed and trip T10, whose
    first stop is C. *)
Lemma X11_witness :
  read_file "stop_times.txt" extracted_disk
  = Some ["trip_id,arrival_time,departure_time,stop_id,stop_sequence";
          "T1,08:00:00,08:00:00,A,1"; "T1,08:10:00,08:10:00,B,2";
          "T10,09:00:00,09:00:00,C,1"; "T10,09:10:00,09:10:00,D,2"]
  /\ csv_parse ["trip_id,arrival_time,departure_time,stop_id,stop_sequence";
                "T1,08:00:00,08:00:00,A,1"; "T1,08:10:00,08:10:00,B,2";
                "T10,09:00:00,09:00:00,C,1"; "T10,09:10:00,09:10:00,D,2"]
     = Ok [T1_A; T1_B; T10_C; T10_D]
  /\ "T10" <> ""
  /\ exists stop_times_index firstStops,
       processStopTimes "stop_times.txt" ∅ (Some ∅) extracted_disk
       = (Resolved (stop_times_index, Some firstStops), extracted_disk)
       /\ firstStops !! "T10" = Some T10_C.
Proof.
  assert (H1 : read_file "stop_times.txt" extracted_disk
               = Some ["trip_id,arrival_time,departure_time,stop_id,stop_sequence";
                       "T1,08:00:00,08:00:00,A,1"; "T1,08:10:00,08:10:00,B,2";
                       "T10,09:00:00,09:00:00,C,1"; "T10,09:10:00,09:10:00,D,2"])
    by reflexivity.
  assert (H2 : csv_parse ["trip_id,arrival_time,departure_time,stop_id,stop_sequence";
                          "T1,08:00:00,08:00:00,A,1"; "T1,08:10:00,08:10:00,B,2";
                          "T10,09:00:00,09:00:00,C,1"; "T10,09:10:00,09:10:00,D,2"]
               = Ok [T1_A; T1_B; T10_C; T10_D]) by reflexivity.
  assert (H3 : "T10" <> "") by discriminate.
  split; [exact H1|]. split; [exact H2|]. split; [exact H3|].
  destruct (X11_first_stop_is_sequence_one "stop_times.txt" ∅ extracted_disk _ _ "T10" H1 H2 H3)
    as (idx & fs & Hc & Hget & _).
  exists idx, fs. split; [exact Hc | exact Hget].
Defined.

(** *** Scoped extraction *)

Lemma prefix_app (pat b : string) : String.prefix pat (pat +:+ b) = true.
Proof.
  induction pat as [|c pat IH]; [destruct b; reflexivity|].
  rewrite append_cons. simpl. destruct (ascii_dec c c); [exact IH | contradiction].
Qed.

Lemma includes_unfold (pat s : string) :
  includes pat s =
    String.prefix pat s
    || match s with
       | String _ r => includes pat r
       | EmptyString => false
       end.
Proof. destruct s; reflexivity. Qed.

Lemma includes_app (pat a b : string) : includes pat (a +:+ pat +:+ b) = true.
Proof.
  induction a as [|c a IH].
  - rewrite append_nil, includes_unfold, prefix_app. reflexivity.
  - rewrite append_cons, includes_unfold, IH. apply orb_true_r.
Qed.

(** The first part of a split is the beginning of the string, and every
    part is a piece of it. *)
Lemma split_head (sep : ascii) (s x : string) (xs : list string) :
  split sep s = x :: xs -> exists b, s = x +:+ b.
Proof.
  revert x xs. induction s as [|c s IH]; intros x xs H; simpl in H.
  - injection H as <- _. exists "". reflexivity.
  - destruct (Ascii.eqb c sep).
    + injection H as <- _. exists (String c s). reflexivity.
    + destruct (split sep s) as [|y ys] eqn:Hs.
      * exfalso. exact (split_not_nil sep s Hs).
      * injection H as <- _. destruct (IH y ys eq_refl) as [b ->].
        exists b. reflexivity.
Qed.

Lemma split_piece (sep : ascii) (s x : string) :
  In x (split sep s) -> exists a b, s = a +:+ x +:+ b.
Proof.
  revert x. induction s as [|c s IH]; intros x H; simpl in H.
  - destruct H as [<-|[]]. exists "", "". reflexivity.
  - destruct (Ascii.eqb c sep).
    + destruct H as [<-|H].
      * exists "", (String c s). reflexivity.
      * destruct (IH x H) as (a & b & ->). exists (String c a), b. reflexivity.
    + destruct (split sep s) as [|y ys] eqn:Hs.
      * exfalso. exact (split_not_nil sep s Hs).
      * destruct H as [<-|H].
        -- destruct (split_head sep s y ys Hs) as [b ->].
           exists "", b. reflexivity.
        -- destruct (IH x (or_intror H)) as (a & b & ->).
           exists (String c a), b. reflexivity.
Qed.

Lemma includes_field (tripId line : string) :
  In tripId (split "," line) -> includes tripId line = true.
Proof. intros H. destruct (split_piece _ _ _ H) as (a & b & ->). apply includes_app. Qed.

(** X12. For a trip id that [grep] takes for the text it is, the search
    of [grepGtfsFile] never misses a row of the trip: every line of the
    file one of whose comma-separated fields is the trip id is returned as
    a row, and there are as many rows as lines that contain the id. *)
Theorem X12_grep_finds_every_row_of_the_trip
    (tripId fileName : string) (headers : list string) (d : disk) (lines : list string) :
  literal_pattern tripId = true ->
  read_file fileName d = Some lines ->
  exists rows,
    grepGtfsFile tripId fileName headers d = (Resolved rows, d)
    /\ length rows = length (List.filter (includes tripId) lines)
    /\ forall line,
         In line lines -> In tripId (split "," line) -> In (grep_row headers line) rows.
Proof.
  intros _ Hf. unfold grepGtfsFile. rewrite Hf. eexists. split; [reflexivity|]. split.
  - rewrite length_map. clear Hf. induction lines as [|l lines IH]; [reflexivity|].
    rewrite filter_cons. cbn [List.filter].
    destruct (decide (includes tripId l = true)) as [E|E].
    + rewrite E. cbn [length]. rewrite IH. reflexivity.
    + apply not_true_is_false in E. rewrite E. exact IH.
  - intros line Hin Hfield. apply in_map_iff. exists line. split; [reflexivity|].
    apply list_elem_of_In. apply list_elem_of_filter. split.
    + apply includes_field. exact Hfield.
    + apply list_elem_of_In. exact Hin.
Qed.

(** The theorem on [stop_times.txt] of the example feed and trip T10. *)
Lemma X12_witness :
  literal_pattern "T10" = true
  /\ read_file "stop_times.txt" extracted_disk
  = Some ["trip_id,arrival_time,departure_time,stop_id,stop_sequence";
          "T1,08:00:00,08:00:00,A,1"; "T1,08:10:00,08:10:00,B,2";
          "T10,09:00:00,09:00:00,C,1"; "T10,09:10:00,09:10:00,D,2"]
  /\ exists rows,
       grepGtfsFile "T10" "stop_times.txt"
         ["trip_id"; "arrival_time"; "departure_time"; "stop_id"; "stop_sequence"]
         extracted_disk = (Resolved rows, extracted_disk)
       /\ length rows = 2%nat.
Proof.
  assert (H1 : read_file "stop_times.txt" extracted_disk
               = Some ["trip_id,arrival_time,departure_time,stop_id,stop_sequence";
                       "T1,08:00:00,08:00:00,A,1"; "T1,08:10:00,08:10:00,B,2";
                       "T10,09:00:00,09:00:00,C,1"; "T10,09:10:00,09:10:00,D,2"])
    by reflexivity.
  assert (H0 : literal_pattern "T10" = true) by reflexivity.
  split; [exact H0|]. split; [exact H1|].
  destruct (X12_grep_finds_every_row_of_the_trip "T10" "stop_times.txt"
              ["trip_id"; "arrival_time"; "departure_time"; "stop_id"; "stop_sequence"]
              extracted_disk _ H0 H1) as (rows & Hg & Hlen & _).
  exists rows. split; [exact Hg | exact Hlen].
Defined.

(** *** The order of the extracted stop times *)

Lemma by_stop_sequence_key (a b : Row) :
  has_sequence a -> has_sequence b ->
  by_stop_sequence a b = (sequence_key a <=? sequence_key b).
Proof.
  intros [x Hx] [y Hy]. unfold by_stop_sequence, sequence_key. rewrite Hx, Hy. simpl.
  destruct (Z.leb_spec (x - y) 0), (Z.leb_spec x y); try reflexivity; lia.
Qed.

Lemma insert_sorted_sequence (x : Row) (l : list Row) :
  has_sequence x ->
  Forall has_sequence l ->
  StronglySorted (fun a b => sequence_key a <= sequence_key b) l ->
  StronglySorted (fun a b => sequence_key a <= sequence_key b)
                 (insert_sorted by_stop_sequence x l).
Proof.
  intros Hx Hl Hs. induction l as [|y l IH]; simpl.
  - repeat constructor.
  - inversion Hl as [|? ? Hy Hl']; subst. inversion Hs as [|? ? Hs' Hall]; subst.
    rewrite (by_stop_sequence_key x y Hx Hy).
    destruct (Z.leb_spec (sequence_key x) (sequence_key y)) as [Hle|Hgt].
    + constructor; [exact Hs|]. constructor; [exact Hle|].
      eapply Forall_impl; [exact Hall|]. intros z Hz. simpl in Hz. lia.
    + constructor; [apply IH; assumption|].
      eapply Permutation_Forall; [symmetry; apply insert_sorted_perm|].
      constructor; [lia | exact Hall].
Qed.

Lemma insertion_sort_sequence (l : list Row) :
  Forall has_sequence l ->
  StronglySorted (fun a b => sequence_key a <= sequence_key b)
                 (insertion_sort by_stop_sequence l).
Proof.
  induction l as [|x l IH]; intros H; [constructor|].
  inversion H as [|? ? Hx Hl]; subst.
  unfold insertion_sort in *. cbn [foldr].
  apply insert_sorted_sequence; [exact Hx| |apply IH; exact Hl].
  eapply Permutation_Forall; [symmetry; apply (insertion_sort_perm by_stop_sequence)|exact Hl].
Qed.

(** What [grepStopTimes] leaves in the index. *)
Lemma grepStopTimes_spec
    (trips headers : list string) (index index' : gmap string (list Row)) (d d' : disk) :
  grepStopTimes trips headers index d = (Resolved index', d') ->
  d' = d
  /\ (forall t, In t trips ->
        exists rows sorted,
          grepGtfsFile t "stop_times.txt" headers d = (Resolved rows, d)
          /\ index' !! t = Some sorted
          /\ Permutation sorted rows
          /\ (Forall has_sequence rows ->
              StronglySorted (fun a b => sequence_key a <= sequence_key b) sorted))
  /\ (forall t, ~ In t trips -> index' !! t = index !! t).
Proof.
  revert index. induction trips as [|trip rest IH]; intros index H.
  - injection H as <- <-. split; [reflexivity|]. split; [intros t []|reflexivity].
  - cbn [grepStopTimes] in H.
    apply mbind_resolved_inv in H as (rows & d1 & Hg & H).
    assert (d1 = d) as ->.
    { pose proof (grepGtfsFile_reads_only trip "stop_times.txt" headers d) as Hd.
      rewrite Hg in Hd. exact Hd. }
    destruct (IH _ H) as (-> & Hin & Hout).
    split; [reflexivity|]. split.
    + intros t Ht.
      destruct (in_dec String.string_dec t rest) as [Hrest|Hrest]; [exact (Hin t Hrest)|].
      destruct Ht as [->|Ht]; [|contradiction].
      exists rows, (insertion_sort by_stop_sequence rows).
      split; [exact Hg|]. split; [rewrite (Hout t Hrest); apply lookup_insert_eq|].
      split; [apply insertion_sort_perm | apply insertion_sort_sequence].
    + intros t Ht. rewrite (Hout t (fun Hr => Ht (or_intror Hr))).
      apply lookup_insert_ne. intros ->. apply Ht. left. reflexivity.
Qed.

(** X13. When [grepStopTimes] resolves it has not touched the disk, and
    the index holds, for every requested trip, the rows [grepGtfsFile]
    finds for it, reordered: the same rows, in ascending stop sequence
    whenever the sequence of every one of them begins with a number.  The
    entries of other keys are as before. *)
Theorem X13_grepStopTimes_sorts_the_matches
    (trips headers : list string) (index index' : gmap string (list Row)) (d d' : disk) :
  grepStopTimes trips headers index d = (Resolved index', d') ->
  d' = d
  /\ (forall t, In t trips ->
        exists rows sorted,
          grepGtfsFile t "stop_times.txt" headers d = (Resolved rows, d)
          /\ index' !! t = Some sorted
          /\ Permutation sorted rows
          /\ (Forall has_sequence rows ->
              StronglySorted (fun a b => sequence_key a <= sequence_key b) sorted))
  /\ (forall t, ~ In t trips -> index' !! t = index !! t).
Proof. apply grepStopTimes_spec. Qed.

(** The theorem on the extraction of T1 from the example feed. *)
Lemma X13_witness :
  grepStopTimes ["T1"]
    ["trip_id"; "arrival_time"; "departure_time"; "stop_id"; "stop_sequence"] ∅ extracted_disk
  = (Resolved {["T1" := [T1_A; T10_C; T1_B; T10_D]]}, extracted_disk)
  /\ forall t, ~ In t ["T1"] ->
       ({["T1" := [T1_A; T10_C; T1_B; T10_D]]} : gmap string (list Row)) !! t
       = (∅ : gmap string (list Row)) !! t.
Proof.
  assert (H1 : grepStopTimes ["T1"]
                 ["trip_id"; "arrival_time"; "departure_time"; "stop_id"; "stop_sequence"]
                 ∅ extracted_disk
               = (Resolved {["T1" := [T1_A; T10_C; T1_B; T10_D]]}, extracted_disk))
    by (vm_compute; reflexivity).
  split; [exact H1|].
  exact (proj2 (proj2 (X13_grepStopTimes_sorts_the_matches _ _ _ _ _ _ H1))).
Defined.

Lemma reads_only_keeps_files {A} (m : M A) : reads_only m -> keeps_files m.
Proof. intros H d files Hd. rewrite H. exists files. auto. Qed.

Lemma reads_only_same_store {A} (m : M A) : reads_only m -> same_store m.
Proof. intros H d. rewrite H. reflexivity. Qed.

Lemma keeps_files_mbind {A B} (m : M A) (k : A -> M B) :
  keeps_files m -> (forall a, keeps_files (k a)) -> keeps_files (mbind m k).
Proof.
  intros Hm Hk d files Hd. unfold mbind.
  destruct (Hm d files Hd) as (files1 & H1 & Hsame1).
  destruct (m d) as [[a|f] d1]; simpl in H1.
  - destruct (Hk a d1 files1 H1) as (files2 & H2 & Hsame2).
    exists files2. split; [exact H2|].
    intros name Hne. rewrite (Hsame2 name Hne). exact (Hsame1 name Hne).
  - exists files1. auto.
Qed.

Lemma same_store_mbind {A B} (m : M A) (k : A -> M B) :
  same_store m -> (forall a, same_store (k a)) -> same_store (mbind m k).
Proof.
  intros Hm Hk d. unfold mbind. specialize (Hm d).
  destruct (m d) as [[a|f] d1]; simpl in Hm; [rewrite Hk; exact Hm | exact Hm].
Qed.

Lemma sortStopTimes_keeps_files (ti ss : nat) : keeps_files (sortStopTimes ti ss).
Proof.
  intros d files Hd. unfold sortStopTimes. rewrite Hd. cbn [snd auxPath].
  eexists. split; [reflexivity|].
  intros name Hne. apply lookup_insert_ne. congruence.
Qed.

Lemma sortStopTimes_same_store (ti ss : nat) : same_store (sortStopTimes ti ss).
Proof. intros d. unfold sortStopTimes. destruct (auxPath d); reflexivity. Qed.

Lemma create_rt_indexes_keeps_files : keeps_files create_rt_indexes.
Proof. intros d files Hd. exists files. auto. Qed.

Lemma full_build_keeps_files (headers : list string)
    (tripsByRoute : option (JsMap (list value))) (firstStops : option (gmap string Row)) :
  keeps_files (full_build headers tripsByRoute firstStops).
Proof.
  unfold full_build.
  apply keeps_files_mbind; [apply reads_only_keeps_files, createIndex_reads_only | intros tp].
  apply keeps_files_mbind; [apply sortStopTimes_keeps_files | intros _].
  apply reads_only_keeps_files, reads_only_mbind; [apply processStopTimes_reads_only|].
  intros stp. apply reads_only_ret.
Qed.

Lemma full_build_same_store (headers : list string) (tripsByRoute : option (JsMap (list value)))
    (firstStops : option (gmap string Row)) :
  same_store (full_build headers tripsByRoute firstStops).
Proof.
  unfold full_build.
  apply same_store_mbind; [apply reads_only_same_store, createIndex_reads_only | intros tp].
  apply same_store_mbind; [apply sortStopTimes_same_store | intros _].
  apply reads_only_same_store, reads_only_mbind; [apply processStopTimes_reads_only|].
  intros stp. apply reads_only_ret.
Qed.

Lemma cleans_iff_resolved_mbind {A B} (m : M A) (k : A -> M B) :
  keeps_files m -> (forall a, cleans_iff_resolved (k a)) -> cleans_iff_resolved (mbind m k).
Proof.
  intros Hm Hk d. unfold mbind. specialize (Hm d).
  destruct (m d) as [[a|f] d1]; simpl in Hm.
  - specialize (Hk a d1). destruct (k a d1) as [[b|f] d2]; simpl in *; [exact Hk|].
    intros files Hd. destruct (Hm files Hd) as (files1 & H1 & Hsame1).
    destruct (Hk files1 H1) as (files2 & H2 & Hsame2).
    exists files2. split; [exact H2|].
    intros name Hne. rewrite (Hsame2 name Hne). exact (Hsame1 name Hne).
  - simpl. exact Hm.
Qed.

(** X14. [createIndexes] deletes the working directory exactly when it
    resolves: after a build that resolves the directory is gone, and after
    a build that fails a directory that was there is still there, with the
    files it held; only [stop_times.txt] may have been rewritten by the
    sort. *)
Theorem X14_working_directory_deleted_iff_resolved
    (store : string) (uTrips : option (list string)) (deduce : bool) (d : disk) :
  match fst (createIndexes store uTrips deduce d) with
  | Resolved _ => auxPath (snd (createIndexes store uTrips deduce d)) = None
  | Failed _ =>
      forall files,
        auxPath d = Some files ->
        exists files',
          auxPath (snd (createIndexes store uTrips deduce d)) = Some files'
          /\ forall name, name <> "stop_times.txt" -> files' !! name = files !! name
  end.
Proof.
  revert d. change (cleans_iff_resolved (createIndexes store uTrips deduce)).
  unfold createIndexes.
  apply cleans_iff_resolved_mbind;
    [apply reads_only_keeps_files, getGtfsHeaders_reads_only | intros headers].
  apply cleans_iff_resolved_mbind.
  - destruct (String.eqb store "MemStore").
    + destruct uTrips as [ts|]; [|apply full_build_keeps_files].
      apply reads_only_keeps_files, scoped_build_reads_only.
    + destruct (String.eqb store "LevelStore");
        [|apply reads_only_keeps_files, reads_only_fail].
      apply keeps_files_mbind;
        [apply create_rt_indexes_keeps_files | intros _; apply full_build_keeps_files].
  - intros [[[trips_index tripsByRoute'] stop_times_index] firstStops'].
    apply cleans_iff_resolved_mbind;
      [apply reads_only_keeps_files, createIndex_reads_only | intros sp].
    apply cleans_iff_resolved_mbind;
      [apply reads_only_keeps_files, createIndex_reads_only | intros rp].
    apply cleans_iff_resolved_mbind.
    { destruct deduce; [|apply reads_only_keeps_files, reads_only_ret].
      apply reads_only_keeps_files, reads_only_mbind; [apply createIndex_reads_only|].
      intros c. apply reads_only_ret. }
    intros cp. apply cleans_iff_resolved_mbind.
    { destruct deduce; [|apply reads_only_keeps_files, reads_only_ret].
      apply reads_only_keeps_files, reads_only_mbind; [apply processCalendarDates_reads_only|].
      intros c. apply reads_only_ret. }
    intros cdp d. reflexivity.
Qed.

(** *** What a resolved build returns *)

Lemma returns_any {A} (m : M A) : returns (fun _ => True) m.
Proof. intros d a d' _. exact I. Qed.

Lemma returns_ret {A} (P : A -> Prop) (a : A) : P a -> returns P (ret a).
Proof. intros H d a' d' [= <- _]. exact H. Qed.

Lemma returns_fail {A} (P : A -> Prop) (f : failure) : returns P (fail f).
Proof. intros d a d' H. discriminate. Qed.

Lemma returns_mbind {A B} (Q : A -> Prop) (P : B -> Prop) (m : M A) (k : A -> M B) :
  returns Q m -> (forall a, Q a -> returns P (k a)) -> returns P (mbind m k).
Proof.
  intros Hm Hk d b d' H. apply mbind_resolved_inv in H as (a & d1 & Ha & Hb).
  exact (Hk a (Hm _ _ _ Ha) _ _ _ Hb).
Qed.

Lemma createIndex_row_snd (key : string) (is_trips : bool)
    (acc : gmap string Row * option (JsMap (list value))) (data : Row) :
  (snd acc = None -> snd (createIndex_row key is_trips acc data) = None)
  /\ (is_Some (snd acc) -> is_Some (snd (createIndex_row key is_trips acc data))).
Proof.
  unfold createIndex_row. destruct acc as [map [t|]]; cbn [snd].
  - split; [discriminate|]. intros _.
    destruct (obj_get key data) as [|k|n]; try (eexists; reflexivity).
    destruct (ToBoolean (Str k)); [|eexists; reflexivity].
    cbn [snd]. destruct is_trips; [|eexists; reflexivity].
    destruct (map_get (obj_get "route_id" data) t); eexists; reflexivity.
  - split; [|intros [x Hx]; discriminate]. intros _.
    destruct (obj_get key data) as [|k|n]; try reflexivity.
    destruct (ToBoolean (Str k)); reflexivity.
Qed.

Lemma createIndex_fold_snd (key : string) (is_trips : bool) (rows : list Row)
    (acc : gmap string Row * option (JsMap (list value))) :
  (snd acc = None -> snd (fold_left (createIndex_row key is_trips) rows acc) = None)
  /\ (is_Some (snd acc) -> is_Some (snd (fold_left (createIndex_row key is_trips) rows acc))).
Proof.
  revert acc. induction rows as [|data rows IH]; intros acc; [auto|].
  cbn [fold_left]. destruct (createIndex_row_snd key is_trips acc data) as [H1 H2].
  destruct (IH (createIndex_row key is_trips acc data)) as [H3 H4]. auto.
Qed.

Lemma createIndex_returns_tpr (name : string) (map : gmap string Row) (key : string)
    (tpr : option (JsMap (list value))) :
  returns (fun r => (tpr = None -> snd r = None) /\ (is_Some tpr -> is_Some (snd r)))
          (createIndex name map key tpr).
Proof.
  intros d r d' H. unfold createIndex in H.
  destruct (read_file name d); [|injection H as <- _; auto].
  apply mbind_resolved_inv in H as (rows & d1 & _ & H). injection H as <- _.
  apply (createIndex_fold_snd key _ rows (map, tpr)).
Qed.

Lemma scan_rows_fst_shape (rows : list Row) (s : scan) :
  (scan_fst s = None -> scan_fst (scan_rows rows s) = None)
  /\ (is_Some (scan_fst s) -> is_Some (scan_fst (scan_rows rows s))).
Proof.
  revert s. induction rows as [|data rows IH]; intros s; [auto|].
  cbn [fold_left]. destruct (IH (processStopTimes_row s data)) as [H1 H2].
  pose proof (processStopTimes_row_fst s data) as Hrow.
  split; intros H.
  - apply H1. rewrite Hrow, H. reflexivity.
  - apply H2. rewrite Hrow. destruct H as [f ->].
    destruct (obj_get "trip_id" data) as [|k|n]; try (eexists; reflexivity).
    destruct (ToBoolean (Str k) && strict_eq (obj_get "stop_sequence" data) (Str "1"));
      eexists; reflexivity.
Qed.

Lemma processStopTimes_returns_fst (name : string) (map : gmap string (list Row))
    (fst : option (gmap string Row)) :
  returns (fun r => (fst = None -> snd r = None) /\ (is_Some fst -> is_Some (snd r)))
          (processStopTimes name map fst).
Proof.
  intros d r d' H. unfold processStopTimes in H.
  apply mbind_resolved_inv in H as (rows & d1 & _ & H). injection H as <- _.
  cbn [snd].
  exact (scan_rows_fst_shape rows
           {| currentTripId := None; currentTrip := []; scan_map := map; scan_fst := fst |}).
Qed.

Lemma full_build_returns (headers : list string) (tripsByRoute : option (JsMap (list value)))
    (firstStops : option (gmap string Row)) :
  returns (fun built =>
             (tripsByRoute = None -> snd (fst (fst built)) = None)
             /\ (is_Some tripsByRoute -> is_Some (snd (fst (fst built))))
             /\ (firstStops = None -> snd built = None)
             /\ (is_Some firstStops -> is_Some (snd built)))
          (full_build headers tripsByRoute firstStops).
Proof.
  unfold full_build.
  eapply returns_mbind; [apply createIndex_returns_tpr | intros tp [Htp1 Htp2]].
  eapply returns_mbind; [apply returns_any | intros _ _].
  eapply returns_mbind; [apply processStopTimes_returns_fst | intros stp [Hs1 Hs2]].
  apply returns_ret. cbn [fst snd]. auto.
Qed.

(** X15. The four auxiliary indexes of a build that resolves follow the
    [deduce] flag: all four are there when it is set, and all four are
    [null] when it is not. *)
Theorem X15_auxiliary_indexes_follow_deduce
    (store : string) (uTrips : option (list string)) (deduce : bool)
    (d d' : disk) (indexes : Indexes) :
  createIndexes store uTrips deduce d = (Resolved indexes, d') ->
  if deduce
  then is_Some (tripsByRoute indexes) /\ is_Some (firstStops indexes)
       /\ is_Some (calendar indexes) /\ is_Some (calendarDates indexes)
  else tripsByRoute indexes = None /\ firstStops indexes = None
       /\ calendar indexes = None /\ calendarDates indexes = None.
Proof.
  revert d indexes d'.
  change (returns (fun indexes =>
    if deduce
    then is_Some (tripsByRoute indexes) /\ is_Some (firstStops indexes)
         /\ is_Some (calendar indexes) /\ is_Some (calendarDates indexes)
    else tripsByRoute indexes = None /\ firstStops indexes = None
         /\ calendar indexes = None /\ calendarDates indexes = None)
    (createIndexes store uTrips deduce)).
  unfold createIndexes.
  eapply returns_mbind; [apply returns_any | intros headers _].
  apply (returns_mbind
           (fun built =>
              if deduce then is_Some (snd (fst (fst built))) /\ is_Some (snd built)
              else snd (fst (fst built)) = None /\ snd built = None)).
  - assert (Hfull : returns
              (fun built =>
                 if deduce then is_Some (snd (fst (fst built))) /\ is_Some (snd built)
                 else snd (fst (fst built)) = None /\ snd built = None)
              (full_build headers (if deduce then Some [] else None)
                                  (if deduce then Some ∅ else None))).
    { intros d0 built d1 H. apply full_build_returns in H as (H1 & H2 & H3 & H4).
      destruct deduce.
      - split; [apply H2|apply H4]; eexists; reflexivity.
      - split; [apply H1|apply H3]; reflexivity. }
    destruct (String.eqb store "MemStore").
    + destruct uTrips as [ts|]; [|exact Hfull].
      eapply returns_mbind; [apply returns_any | intros tripsHeaders _].
      eapply returns_mbind; [apply returns_any | intros tp _].
      eapply returns_mbind; [apply returns_any | intros stp _].
      apply returns_ret. cbn [fst snd].
      destruct deduce; split; try reflexivity; eexists; reflexivity.
    + destruct (String.eqb store "LevelStore"); [|apply returns_fail].
      eapply returns_mbind; [apply returns_any | intros _ _; exact Hfull].
  - intros [[[trips_index tripsByRoute'] stop_times_index] firstStops'] Hbuilt.
    cbn [fst snd] in Hbuilt.
    eapply returns_mbind; [apply returns_any | intros sp _].
    eapply returns_mbind; [apply returns_any | intros rp _].
    apply (returns_mbind (fun cp => if deduce then is_Some cp else cp = None)).
    { destruct deduce; [|apply returns_ret; reflexivity].
      eapply returns_mbind; [apply returns_any | intros c _].
      apply returns_ret. eexists; reflexivity. }
    intros cp Hcp.
    apply (returns_mbind (fun cdp => if deduce then is_Some cdp else cdp = None)).
    { destruct deduce; [|apply returns_ret; reflexivity].
      eapply returns_mbind; [apply returns_any | intros c _].
      apply returns_ret. eexists; reflexivity. }
    intros cdp Hcdp.
    eapply returns_mbind; [apply returns_any | intros _ _].
    apply returns_ret. cbn [tripsByRoute firstStops calendar calendarDates].
    destruct deduce; tauto.
Qed.

(** The theorem on the full in-memory build of the example feed. *)
Lemma X15_witness :
  exists indexes d',
    createIndexes "MemStore" None false extracted_disk = (Resolved indexes, d')
    /\ tripsByRoute indexes = None.
Proof.
  assert (H : exists indexes d',
             createIndexes "MemStore" None false extracted_disk = (Resolved indexes, d'))
    by (eexists _, _; vm_compute; reflexivity).
  destruct H as (indexes & d' & H). exists indexes, d'. split; [exact H|].
  exact (proj1 (X15_auxiliary_indexes_follow_deduce _ _ false _ _ _ H)).
Defined.

Lemma grepTrips_outside (trips headers : list string) (index index' : gmap string Row)
    (d d' : disk) :
  grepTrips trips headers index d = (Resolved index', d') ->
  forall t, ~ In t trips -> index' !! t = index !! t.
Proof.
  revert index d. induction trips as [|trip rest IH]; intros index d H t Ht.
  - injection H as <- _. reflexivity.
  - cbn [grepTrips] in H. apply mbind_resolved_inv in H as (rows & d1 & _ & H).
    rewrite (IH _ _ H t (fun Hr => Ht (or_intror Hr))).
    assert (Hne : trip <> t) by (intros ->; apply Ht; left; reflexivity).
    destruct rows; [apply lookup_delete_ne | apply lookup_insert_ne]; exact Hne.
Qed.

(** X16. A scoped in-memory build that resolves holds a list of stop times
    for each requested trip id and for no other key, holds trips under
    requested ids only, and leaves the two auxiliary indexes that the full
    build fills from the files, trips by route and first stops, empty when
    they are requested. *)
Theorem X16_scoped_build_keys
    (ts : list string) (deduce : bool) (d d' : disk) (indexes : Indexes) :
  createIndexes "MemStore" (Some ts) deduce d = (Resolved indexes, d') ->
  (forall t, is_Some (GtfsIndex.stop_times indexes !! t) <-> In t ts)
  /\ (forall t, is_Some (GtfsIndex.trips indexes !! t) -> In t ts)
  /\ tripsByRoute indexes = (if deduce then Some [] else None)
  /\ firstStops indexes = (if deduce then Some ∅ else None).
Proof.
  revert d indexes d'.
  change (returns (fun indexes =>
    (forall t, is_Some (GtfsIndex.stop_times indexes !! t) <-> In t ts)
    /\ (forall t, is_Some (GtfsIndex.trips indexes !! t) -> In t ts)
    /\ tripsByRoute indexes = (if deduce then Some [] else None)
    /\ firstStops indexes = (if deduce then Some ∅ else None))
    (createIndexes "MemStore" (Some ts) deduce)).
  unfold createIndexes.
  eapply returns_mbind; [apply returns_any | intros headers _].
  change (String.eqb "MemStore" "MemStore") with true. cbv iota.
  apply (returns_mbind
           (fun built =>
              (forall t, is_Some (snd (fst built) !! t) <-> In t ts)
              /\ (forall t, is_Some (fst (fst (fst built)) !! t) -> In t ts)
              /\ snd (fst (fst built)) = (if deduce then Some [] else None)
              /\ snd built = (if deduce then Some ∅ else None))).
  - eapply returns_mbind; [apply returns_any | intros tripsHeaders _].
    apply (returns_mbind (fun tp : gmap string Row =>
                            forall t, is_Some (tp !! t) -> In t ts)).
    { intros d0 tp d1 H t Hsome.
      destruct (in_dec String.string_dec t ts) as [Hin|Hout]; [exact Hin|].
      rewrite (grepTrips_outside _ _ _ _ _ _ H t Hout), lookup_empty in Hsome.
      destruct Hsome as [x Hx]. discriminate. }
    intros tp Htp.
    apply (returns_mbind (fun stp : gmap string (list Row) =>
                            forall t, is_Some (stp !! t) <-> In t ts)).
    { intros d0 stp d1 H t. apply grepStopTimes_spec in H as (_ & Hin & Hout). split.
      - intros Hsome.
        destruct (in_dec String.string_dec t ts) as [Ht|Ht]; [exact Ht|].
        rewrite (Hout t Ht), lookup_empty in Hsome. destruct Hsome as [x Hx]. discriminate.
      - intros Ht. destruct (Hin t Ht) as (rows & sorted & _ & Hs & _).
        rewrite Hs. eexists. reflexivity. }
    intros stp Hstp. apply returns_ret. cbn [fst snd]. auto.
  - intros [[[trips_index tripsByRoute'] stop_times_index] firstStops'] Hbuilt.
    cbn [fst snd] in Hbuilt.
    eapply returns_mbind; [apply returns_any | intros sp _].
    eapply returns_mbind; [apply returns_any | intros rp _].
    eapply returns_mbind; [apply returns_any | intros cp _].
    eapply returns_mbind; [apply returns_any | intros cdp _].
    eapply returns_mbind; [apply returns_any | intros _ _].
    apply returns_ret. exact Hbuilt.
Qed.

(** The theorem on the extraction of T1 from the example feed, with the
    auxiliary indexes requested. *)
Lemma X16_witness :
  exists indexes d',
    createIndexes "MemStore" (Some ["T1"]) true calendar_disk = (Resolved indexes, d')
    /\ tripsByRoute indexes = Some []
    /\ firstStops indexes = Some ∅.
Proof.
  assert (H : exists indexes d',
             createIndexes "MemStore" (Some ["T1"]) true calendar_disk
             = (Resolved indexes, d'))
    by (eexists _, _; vm_compute; reflexivity).
  destruct H as (indexes & d' & H). exists indexes, d'. split; [exact H|].
  exact (proj2 (proj2 (X16_scoped_build_keys _ _ _ _ _ H))).
Defined.

(** *** The LevelStore directory *)

Lemma cleanUp_same_store : same_store cleanUp.
Proof. intros d. reflexivity. Qed.

Lemma createIndexes_same_store (store : string) (uTrips : option (list string))
    (deduce : bool) :
  String.eqb store "LevelStore" = false ->
  same_store (createIndexes store uTrips deduce).
Proof.
  intros Hstore. unfold createIndexes.
  apply same_store_mbind;
    [apply reads_only_same_store, getGtfsHeaders_reads_only | intros headers].
  apply same_store_mbind.
  - rewrite Hstore. destruct (String.eqb store "MemStore").
    + destruct uTrips as [ts|]; [|apply full_build_same_store].
      apply reads_only_same_store, scoped_build_reads_only.
    + apply reads_only_same_store, reads_only_fail.
  - intros [[[trips_index tripsByRoute'] stop_times_index] firstStops'].
    apply same_store_mbind;
      [apply reads_only_same_store, createIndex_reads_only | intros sp].
    apply same_store_mbind;
      [apply reads_only_same_store, createIndex_reads_only | intros rp].
    apply same_store_mbind.
    { destruct deduce; [|apply reads_only_same_store, reads_only_ret].
      apply reads_only_same_store, reads_only_mbind; [apply createIndex_reads_only|].
      intros c. apply reads_only_ret. }
    intros cp. apply same_store_mbind.
    { destruct deduce; [|apply reads_only_same_store, reads_only_ret].
      apply reads_only_same_store, reads_only_mbind; [apply processCalendarDates_reads_only|].
      intros c. apply reads_only_ret. }
    intros cdp. apply same_store_mbind; [apply cleanUp_same_store|].
    intros _. apply reads_only_same_store, reads_only_ret.
Qed.

(** X17. Only a LevelStore build touches the LevelStore directory: with
    any other store, whatever the feed and however the run ends,
    [getIndexes] leaves that directory as it found it. *)
Theorem X17_only_LevelStore_touches_the_store
    (f : fetched) (store : string) (uTrips : option (list string)) (deduce : bool)
    (d : disk) :
  String.eqb store "LevelStore" = false ->
  rt_indexes (snd (getIndexes f store uTrips deduce d)) = rt_indexes d.
Proof.
  intros Hstore. unfold getIndexes. simpl.
  destruct f as [|e|partial e|partial e|files]; simpl; try reflexivity.
  rewrite (createIndexes_same_store store uTrips deduce Hstore). reflexivity.
Qed.

(** The theorem on an in-memory build of the example feed. *)
Lemma X17_witness :
  String.eqb "MemStore" "LevelStore" = false
  /\ rt_indexes (snd (getIndexes (Extracted feed_files) "MemStore" None false empty_disk))
     = rt_indexes empty_disk.
Proof.
  assert (H : String.eqb "MemStore" "LevelStore" = false) by reflexivity.
  split; [exact H|].
  exact (X17_only_LevelStore_touches_the_store (Extracted feed_files) "MemStore" None false
           empty_disk H).
Defined.

(** X18. A LevelStore build creates the LevelStore directory as soon as
    the header of [stop_times.txt] has been read, and the directory is
    there when [getIndexes] settles, whether the build resolves or
    fails. *)
Theorem X18_LevelStore_build_creates_the_store
    (files : gmap string (list string)) (lines : list string)
    (uTrips : option (list string)) (deduce : bool) (d : disk) :
  files !! "stop_times.txt" = Some lines ->
  rt_indexes (snd (getIndexes (Extracted files) "LevelStore" uTrips deduce d)) = true.
Proof.
  intros Hfile. unfold getIndexes. simpl.
  set (d2 := {| auxPath := Some files; rt_indexes := rt_indexes d |}).
  assert (Hh : exists headers, getGtfsHeaders "stop_times.txt" d2 = (Resolved headers, d2)).
  { apply getGtfsHeaders_present. unfold read_file, d2. cbn [auxPath]. rewrite Hfile. discriminate. }
  destruct Hh as [headers Hh].
  unfold createIndexes. rewrite (mbind_resolved _ _ _ _ _ Hh).
  change (String.eqb "LevelStore" "MemStore") with false.
  change (String.eqb "LevelStore" "LevelStore") with true. cbv iota.
  unfold mbind at 1. unfold mbind at 1. unfold create_rt_indexes at 1.
  match goal with
  | |- context [full_build ?h ?a ?b ?dd] =>
      pose proof (keeps_full_build h a b dd eq_refl) as Hfull;
      destruct (full_build h a b dd) as [[built|fl] d3]
  end; cbn [snd] in Hfull; [|exact Hfull].
  destruct built as [[[trips_index tripsByRoute'] stop_times_index] firstStops'].
  match goal with
  | |- rt_indexes (snd (?m d3)) = true =>
      assert (Hk : keeps_store m); [|exact (Hk d3 Hfull)]
  end.
  apply keeps_mbind; [apply keeps_createIndex | intros sp].
  apply keeps_mbind; [apply keeps_createIndex | intros rp].
  apply keeps_mbind.
  { destruct deduce; [|apply keeps_ret].
    apply keeps_mbind; [apply keeps_createIndex | intros c; apply keeps_ret]. }
  intros cp. apply keeps_mbind.
  { destruct deduce; [|apply keeps_ret].
    apply keeps_mbind; [apply keeps_processCalendarDates | intros c; apply keeps_ret]. }
  intros cdp. apply keeps_mbind; [apply keeps_cleanUp | intros _; apply keeps_ret].
Qed.

(** The theorem on a LevelStore build of the example feed, which fails for
    want of [calendar_dates.txt]. *)
Lemma X18_witness :
  feed_files !! "stop_times.txt"
  = Some ["trip_id,arrival_time,departure_time,stop_id,stop_sequence";
          "T1,08:00:00,08:00:00,A,1"; "T1,08:10:00,08:10:00,B,2";
          "T10,09:00:00,09:00:00,C,1"; "T10,09:10:00,09:10:00,D,2"]
  /\ rt_indexes (snd (getIndexes (Extracted feed_files) "LevelStore" None true empty_disk))
     = true.
Proof.
  assert (H : feed_files !! "stop_times.txt"
              = Some ["trip_id,arrival_time,departure_time,stop_id,stop_sequence";
                      "T1,08:00:00,08:00:00,A,1"; "T1,08:10:00,08:10:00,B,2";
                      "T10,09:00:00,09:00:00,C,1"; "T10,09:10:00,09:10:00,D,2"])
    by reflexivity.
  split; [exact H|].
  exact (X18_LevelStore_build_creates_the_store feed_files _ None true empty_disk H).
Defined.

(** X19. [getIndexes] begins by deleting the working directory, so what a
    previous run left there plays no part: two runs that differ only in
    the former content of the working directory give the same outcome and
    the same disk. *)
Theorem X19_getIndexes_ignores_stale_files
    (f : fetched) (store : string) (uTrips : option (list string)) (deduce : bool)
    (d1 d2 : disk) :
  rt_indexes d1 = rt_indexes d2 ->
  getIndexes f store uTrips deduce d1 = getIndexes f store uTrips deduce d2.
Proof.
  intros H. unfold getIndexes. simpl. rewrite H. destruct f; simpl; rewrite ?H; reflexivity.
Qed.

(** The theorem on a run after which the example feed was left behind. *)
Lemma X19_witness :
  rt_indexes extracted_disk = rt_indexes empty_disk
  /\ getIndexes (RequestError (Error "ECONNREFUSED")) "MemStore" None false extracted_disk
     = getIndexes (RequestError (Error "ECONNREFUSED")) "MemStore" None false empty_disk.
Proof.
  assert (H : rt_indexes extracted_disk = rt_indexes empty_disk) by reflexivity.
  split; [exact H|].
  exact (X19_getIndexes_ignores_stale_files (RequestError (Error "ECONNREFUSED"))
           "MemStore" None false extracted_disk empty_disk H).
Defined.

(** *** The sort of the stop times *)

Lemma sort_le_total (ti ss : nat) (a b : string) :
  sort_le ti ss a b = false -> sort_le ti ss b a = true.
Proof.
  unfold sort_le.
  rewrite (String.compare_antisym (dictionary_key (sort_field ti a))
                                  (dictionary_key (sort_field ti b))).
  destruct (String.compare (dictionary_key (sort_field ti b))
                           (dictionary_key (sort_field ti a))); simpl;
    try discriminate; try reflexivity.
  rewrite (Z.compare_antisym (numeric_key (sort_field ss b)) (numeric_key (sort_field ss a))).
  destruct (numeric_key (sort_field ss b) ?= numeric_key (sort_field ss a)); simpl;
    try discriminate; try reflexivity.
  intros H. destruct (String.leb_total a b) as [H'|H']; [congruence | exact H'].
Qed.

Lemma insert_sorted_Sorted {A} (le : A -> A -> bool) (x : A) (l : list A) :
  (forall a b, le a b = false -> le b a = true) ->
  Sorted (fun a b => le a b = true) l ->
  Sorted (fun a b => le a b = true) (insert_sorted le x l).
Proof.
  intros Htotal Hs. induction l as [|y l IH]; simpl.
  - repeat constructor.
  - destruct (le x y) eqn:Hxy.
    + constructor; [exact Hs|]. constructor. exact Hxy.
    + inversion Hs as [|? ? Hs' Hhd]; subst.
      constructor; [apply IH; exact Hs'|].
      destruct l as [|z l']; simpl.
      * constructor. apply Htotal. exact Hxy.
      * destruct (le x z); constructor.
        -- apply Htotal. exact Hxy.
        -- inversion Hhd; subst. assumption.
Qed.

Lemma insertion_sort_Sorted {A} (le : A -> A -> bool) (l : list A) :
  (forall a b, le a b = false -> le b a = true) ->
  Sorted (fun a b => le a b = true) (insertion_sort le l).
Proof.
  intros Htotal. induction l as [|x l IH]; [constructor|].
  unfold insertion_sort in *. cbn [foldr]. apply insert_sorted_Sorted; assumption.
Qed.

(** X20. With both field numbers found, [sortStopTimes] rewrites
    [stop_times.txt] and nothing else: the header line stays first, the
    other lines are the same lines in the order of the sort, by trip id and
    then by stop sequence. *)
Theorem X20_sortStopTimes_keeps_header_and_lines
    (ti ss : nat) (d : disk) (files : gmap string (list string))
    (header : string) (rest : list string) :
  auxPath d = Some files ->
  files !! "stop_times.txt" = Some (header :: rest) ->
  ti <> 0%nat ->
  ss <> 0%nat ->
  exists sorted,
    sortStopTimes ti ss d
    = (Resolved tt,
       {| auxPath := Some (<["stop_times.txt" := header :: sorted]> files);
          rt_indexes := rt_indexes d |})
    /\ Permutation sorted rest
    /\ Sorted (fun a b => sort_le ti ss a b = true) sorted.
Proof.
  intros Haux Hfile Hti Hss.
  exists (insertion_sort (sort_le ti ss) rest).
  split; [|split].
  - unfold sortStopTimes. rewrite Haux, Hfile.
    destruct ti; [contradiction|]. destruct ss; [contradiction|]. reflexivity.
  - apply insertion_sort_perm.
  - apply insertion_sort_Sorted. apply sort_le_total.
Qed.

(** The theorem on the example feed, sorted on its first and fifth
    fields. *)
Lemma X20_witness :
  auxPath extracted_disk = Some feed_files
  /\ feed_files !! "stop_times.txt"
     = Some ["trip_id,arrival_time,departure_time,stop_id,stop_sequence";
             "T1,08:00:00,08:00:00,A,1"; "T1,08:10:00,08:10:00,B,2";
             "T10,09:00:00,09:00:00,C,1"; "T10,09:10:00,09:10:00,D,2"]
  /\ 1%nat <> 0%nat
  /\ 5%nat <> 0%nat
  /\ exists sorted,
       Permutation sorted ["T1,08:00:00,08:00:00,A,1"; "T1,08:10:00,08:10:00,B,2";
                           "T10,09:00:00,09:00:00,C,1"; "T10,09:10:00,09:10:00,D,2"]
       /\ Sorted (fun a b => sort_le 1 5 a b = true) sorted.
Proof.
  assert (H1 : auxPath extracted_disk = Some feed_files) by reflexivity.
  assert (H2 : feed_files !! "stop_times.txt"
               = Some ["trip_id,arrival_time,departure_time,stop_id,stop_sequence";
                       "T1,08:00:00,08:00:00,A,1"; "T1,08:10:00,08:10:00,B,2";
                       "T10,09:00:00,09:00:00,C,1"; "T10,09:10:00,09:10:00,D,2"])
    by reflexivity.
  assert (H3 : 1%nat <> 0%nat) by discriminate.
  assert (H4 : 5%nat <> 0%nat) by discriminate.
  repeat (split; [assumption|]).
  destruct (X20_sortStopTimes_keeps_header_and_lines 1 5 extracted_disk feed_files _ _
              H1 H2 H3 H4) as (sorted & _ & Hp & Hs).
  exists sorted. split; [exact Hp | exact Hs].
Defined.

(** *** Calendar dates *)

Lemma obj_field_set (k k0 : string) (v : option string) (o : Row) :
  obj_field k (obj_set k0 v o) = if String.eqb k k0 then v else obj_field k o.
Proof.
  induction o as [|[k' v'] o IH]; simpl.
  - reflexivity.
  - destruct (String.eqb_spec k0 k') as [->|Hne]; simpl.
    + destruct (String.eqb k k'); reflexivity.
    + rewrite IH. destruct (String.eqb_spec k k') as [->|Hne'].
      * destruct (String.eqb_spec k' k0) as [->|_]; [contradiction | reflexivity].
      * reflexivity.
Qed.

Lemma processCalendarDates_row_exception (m : JsMap Row) (data : Row)
    (service : value) (date : string) :
  exception_of (processCalendarDates_row m data) service date =
    if same_key service (obj_get "service_id" data)
       && String.eqb date (ToString (obj_get "date" data))
    then obj_field "exception_type" data
    else exception_of m service date.
Proof.
  unfold exception_of, processCalendarDates_row. rewrite map_get_set.
  destruct (same_key service (obj_get "service_id" data)) eqn:E; cbn [andb]; [|reflexivity].
  apply same_key_eq in E. subst service. rewrite obj_field_set.
  destruct (String.eqb date (ToString (obj_get "date" data))); [reflexivity|].
  destruct (map_get (obj_get "service_id" data) m); reflexivity.
Qed.

Lemma processCalendarDates_fold (rows : list Row) (m : JsMap Row)
    (service : value) (date : string) :
  exception_of (fold_left processCalendarDates_row rows m) service date =
    match exception_row service date rows with
    | Some r => obj_field "exception_type" r
    | None => exception_of m service date
    end.
Proof.
  revert m. induction rows as [|data rows IH]; intros m; [reflexivity|].
  cbn [fold_left]. rewrite IH, processCalendarDates_row_exception.
  unfold exception_row. cbn [List.filter].
  destruct (same_key service (obj_get "service_id" data)
            && String.eqb date (ToString (obj_get "date" data))).
  - destruct (List.filter _ rows) as [|r rs] eqn:Hf; [reflexivity|].
    change (last (data :: r :: rs)) with (last (r :: rs)).
    destruct (last (r :: rs)) eqn:Hl; [reflexivity|].
    apply last_None in Hl. discriminate.
  - reflexivity.
Qed.

(** X21. In the index [processCalendarDates] builds from a file that
    parses, the exception type filed for a service and a date is the one of
    the last row of the file for that service and that date; a service and
    a date no row has are filed with nothing. *)
Theorem X21_calendar_dates_last_row_wins
    (name : string) (d : disk) (lines : list string) (rows : list Row) :
  read_file name d = Some lines ->
  csv_parse lines = Ok rows ->
  exists calendarDates,
    processCalendarDates name [] d = (Resolved calendarDates, d)
    /\ forall service date,
         exception_of calendarDates service date =
           match exception_row service date rows with
           | Some r => obj_field "exception_type" r
           | None => None
           end.
Proof.
  intros Hf Hp. unfold processCalendarDates.
  rewrite (mbind_resolved _ _ _ _ _ (read_csv_parsed _ _ _ _ Hf Hp)).
  eexists. split; [reflexivity|].
  intros service date. rewrite processCalendarDates_fold.
  destruct (exception_row service date rows); reflexivity.
Qed.

(** The theorem on a [calendar_dates.txt] with one exception. *)
Lemma X21_witness :
  read_file "calendar_dates.txt" calendar_disk
  = Some ["service_id,date,exception_type"; "S1,20200101,2"]
  /\ csv_parse ["service_id,date,exception_type"; "S1,20200101,2"]
     = Ok [[("service_id", Some "S1"); ("date", Some "20200101"); ("exception_type", Some "2")]]
  /\ exists calendarDates,
       processCalendarDates "calendar_dates.txt" [] calendar_disk
       = (Resolved calendarDates, calendar_disk)
       /\ exception_of calendarDates (Str "S1") "20200101" = Some "2".
Proof.
  assert (H1 : read_file "calendar_dates.txt" calendar_disk
               = Some ["service_id,date,exception_type"; "S1,20200101,2"]) by reflexivity.
  assert (H2 : csv_parse ["service_id,date,exception_type"; "S1,20200101,2"]
               = Ok [[("service_id", Some "S1"); ("date", Some "20200101");
                      ("exception_type", Some "2")]]) by reflexivity.
  split; [exact H1|]. split; [exact H2|].
  destruct (X21_calendar_dates_last_row_wins "calendar_dates.txt" calendar_disk _ _ H1 H2)
    as (cd & Hc & Hget).
  exists cd. split; [exact Hc | exact (Hget (Str "S1") "20200101")].
Defined.
